(** * esp32-speaker: the MP3 streaming pipeline

    A shallow embedding of [MP3Decoder] (src/MP3Decoder.cpp) and [MP3Player]
    (src/MP3Player.cpp): the streaming window over the SPIFFS file, the
    frame loop with its resynchronisation, and the playback session that
    scales each decoded frame and hands it to the I2S speaker.

    The Helix codec (mp3dec.h), the file system, the heap and the I2S driver
    are not part of the repository ; they appear as a [Codec] and an [Env]
    that the program is parametrised by. *)

From Stdlib Require Import ZArith List Bool Lia SpecFloat.
From Stdlib Require String.
Import ListNotations.
Open Scope Z_scope.

(** ** Machine arithmetic (ESP32: 32-bit [size_t] and [int], 16-bit samples) *)

(** [size_t] arithmetic wraps modulo 2^32. *)
Definition size_wrap (z : Z) : Z := z mod 4294967296.

(** The value of a [size_t] read through an [int]: the codec receives
    [_bytesLeft] as an [int] count and updates it through an [int] pointer. *)
Definition to_int (z : Z) : Z :=
  let u := size_wrap z in if u <? 2147483648 then u else u - 4294967296.

(** The [(int16_t)] conversion of an integer value. *)
Definition to_int16 (z : Z) : Z :=
  let u := z mod 65536 in if u <? 32768 then u else u - 65536.

(** ** Single-precision floats ([float] is IEEE binary32 on the ESP32) *)

Definition float := spec_float.

Definition f32_prec : Z := 24.
Definition f32_emax : Z := 128.

Definition f32_of_Z (z : Z) : float := binary_normalize f32_prec f32_emax z 0 false.
Definition f32_mul : float -> float -> float := SFmul f32_prec f32_emax.
Definition f32_div : float -> float -> float := SFdiv f32_prec f32_emax.
Definition f32_leb : float -> float -> bool := SFleb.
Definition f32_ltb : float -> float -> bool := SFltb.

Definition f32_zero : float := S754_zero false.
Definition f32_one : float := f32_of_Z 1.

(** Conversion of a float to an integer type truncates toward zero. *)
Definition f32_trunc (f : float) : Z :=
  match f with
  | S754_finite s m e =>
      let a := if 0 <=? e then Z.pos m * 2 ^ e else Z.pos m / 2 ^ (- e) in
      if s then - a else a
  | _ => 0
  end.

(** Arduino's [constrain(amt, low, high)] macro. *)
Definition constrain (amt low high : float) : float :=
  if f32_ltb amt low then low else if f32_ltb high amt then high else amt.

(** ** MP3Player::applyVolume (MP3Player.cpp, 152-164)

    [samples] is the block of [sampleCount] samples; the null-pointer test of
    the source has no counterpart for a list. *)
Definition applyVolume (samples : list Z) (sampleCount : Z) (volume : float) : list Z :=
  if (sampleCount =? 0) || f32_leb volume f32_zero then samples
  else if f32_leb f32_one volume then samples
  else
    map (fun s => to_int16 (f32_trunc (f32_mul (f32_of_Z s) volume)))
        (firstn (Z.to_nat sampleCount) samples)
    ++ skipn (Z.to_nat sampleCount) samples.

Definition f32_half : float := S754_finite false 8388608 (-24).
Definition f32_0_7 : float := S754_finite false 11744051 (-24).

(** ** The file system (Arduino [File] over SPIFFS) *)

Record File := mkFile {
  isOpen : bool;          (* [operator bool] of the handle *)
  contents : list Z;      (* the bytes of the file *)
  position : nat          (* the read position *)
}.

Definition invalidFile : File := mkFile false [] 0.

(** [SPIFFS.open(path, "r")]: the bytes of the file, or nothing. *)
Definition SPIFFS := String.string -> option (list Z).

Definition File_open (fs : SPIFFS) (path : String.string) : File :=
  match fs path with
  | Some bytes => mkFile true bytes 0
  | None => invalidFile
  end.

Definition File_size (f : File) : Z :=
  if isOpen f then Z.of_nat (length (contents f)) else 0.

Definition File_available (f : File) : Z :=
  if isOpen f then Z.of_nat (length (contents f) - position f) else 0.

(** [read(dst, size)]: the next bytes, at most [size] of them, and the
    handle after the read. *)
Definition File_read (f : File) (size : Z) : list Z * File :=
  if isOpen f then
    let chunk := firstn (Z.to_nat size) (skipn (position f) (contents f)) in
    (chunk, mkFile true (contents f) (position f + length chunk))
  else ([], f).

Definition File_close (f : File) : File :=
  mkFile false (contents f) (position f).

(** ** The codec (Helix, mp3dec.h) *)

Record MP3FrameInfo := mkFrameInfo {
  bitrate : Z;
  nChans : Z;
  samprate : Z;
  outputSamps : Z
}.

(** What the program uses of the codec.  [D] is the state behind the
    [HMP3Decoder] handle.  A window is the list of the [nBytes] valid bytes
    at the pointer passed; [MP3GetNextFrameInfo] takes no length and is given
    the memory from the pointer to the end of the buffer.  [MP3Decode]
    returns its status, the number of bytes by which it moved the input
    pointer and lowered the byte count, and the samples it left in the
    output buffer.

    The program passes bare pointers, and how far the codec reads through
    them is not followed: a header is longer than the two bytes of a sync
    pattern, and a read of the codec beyond the end of the buffer is no
    outcome of this model.  Nothing below says that a codec call stays
    inside the buffer. *)
Record Codec (D : Type) := mkCodec {
  MP3InitDecoder : D;
  MP3FindSyncWord : list Z -> Z;
  MP3GetNextFrameInfo : D -> list Z -> D * Z * MP3FrameInfo;
  MP3Decode : D -> list Z -> D * Z * Z * list Z;
  ERR_MP3_INDATA_UNDERFLOW : Z
}.
Arguments MP3InitDecoder {D} _.
Arguments MP3FindSyncWord {D} _ _.
Arguments MP3GetNextFrameInfo {D} _ _ _.
Arguments MP3Decode {D} _ _ _.
Arguments ERR_MP3_INDATA_UNDERFLOW {D} _.

(** ** esp_err_t *)

Definition ESP_OK : Z := 0.
Definition ESP_ERR_NO_MEM : Z := 257.
Definition ESP_ERR_INVALID_ARG : Z := 258.
Definition ESP_ERR_INVALID_STATE : Z := 259.
Definition ESP_ERR_TIMEOUT : Z := 263.

(** ** The environment

    Everything the program asks of the outside is answered by an oracle
    indexed by a clock that advances with each question. *)
Record Env := mkEnv {
  malloc_ok : nat -> bool;          (* does the allocation succeed *)
  i2s_channel_enable : nat -> Z;    (* status of enabling the channel *)
  i2s_channel_write : nat -> Z;     (* status of the I2S write *)
  stop_requested : nat -> bool      (* does another task call
                                       MP3Player::stop() at this point *)
}.

(** ** Object state *)

Module I2SSpeaker.
(** [_bitsPerSample] and [_channelMode] hold the numeric value of the
    driver's enumerators (16, 24 or 32 bits; 1 for mono, 2 for stereo). *)
Record t := mk {
  _initialized : bool;
  _active : bool;
  _sampleRate : Z;
  _bitsPerSample : Z;
  _channelMode : Z
}.

Definition set_active (x : bool) (s : t) : t :=
  mk (_initialized s) x (_sampleRate s) (_bitsPerSample s) (_channelMode s).
End I2SSpeaker.

Module MP3Decoder.
Record MP3Info := mkInfo {
  sampleRate : Z;
  channels : Z;
  bitRate : Z;
  duration : Z;
  valid : bool
}.

Definition INPUT_BUFFER_SIZE : Z := 2048.
Definition OUTPUT_BUFFER_SIZE : Z := 4608.
Definition STREAM_BUFFER_SIZE : Z := 8192.

(** [_streamBuffer] is the content of the allocated block or [None] for a
    null pointer; [_readPtr] is an offset from the start of that block or
    [None] for a null pointer; [_callback] tells whether a callback is
    installed. *)
Record t (D : Type) := mk {
  _decoder : D;
  _initialized : bool;
  _streaming : bool;
  _outputBuffer : list Z;
  _streamBuffer : option (list Z);
  _streamFile : File;
  _bytesLeft : Z;
  _readPtr : option Z;
  _firstFrame : bool;
  _streamInfo : MP3Info;
  _callback : bool
}.
Arguments mk {D}.
Arguments _decoder {D}.
Arguments _initialized {D}.
Arguments _streaming {D}.
Arguments _outputBuffer {D}.
Arguments _streamBuffer {D}.
Arguments _streamFile {D}.
Arguments _bytesLeft {D}.
Arguments _readPtr {D}.
Arguments _firstFrame {D}.
Arguments _streamInfo {D}.
Arguments _callback {D}.
End MP3Decoder.

Module MP3Player.
(** [_speaker] tells whether the pointer is set; the speaker itself is
    part of the world. *)
Record t := mk {
  _speaker : bool;
  _initialized : bool;
  _playing : bool;
  _volume : float;
  _progressCallback : bool;
  _totalFrames : Z;
  _processedFrames : Z
}.
End MP3Player.

(** ** What a run does, in order (most recent first) *)

Inductive Event :=
| EvSkip (bytesLeftBefore : Z)                 (* a one-byte resync skip *)
| EvFrame (sampleCount : Z) (info : MP3Decoder.MP3Info)
                                               (* the stream callback is invoked *)
| EvWriteSamples (samples : list Z) (status : Z)  (* a block goes to the speaker *)
| EvProgress (fraction : float)                (* the progress observer is invoked *)
| EvStop                                       (* MP3Player::stop() runs *)
| EvStopSeen                                   (* a check finds [_playing] false *)
| EvClear (status : Z).                        (* the speaker is flushed with silence *)

Record World (D : Type) := mkWorld {
  decoder : MP3Decoder.t D;
  player : MP3Player.t;
  speaker : I2SSpeaker.t;
  clock : nat;
  trace : list Event
}.
Arguments mkWorld {D}.
Arguments decoder {D}.
Arguments player {D}.
Arguments speaker {D}.
Arguments clock {D}.
Arguments trace {D}.

(** ** Outcomes

    A call returns a value, or runs into undefined behaviour on memory in
    an access that the program makes itself (a null pointer, a [memmove]
    or a file read that leaves the block), or is cut off because the
    recursion budget of the model ran out.  Each outcome carries the world
    reached. *)
Inductive Res (D A : Type) :=
| Ret (a : A) (w : World D)
| MemFault (w : World D)
| OutOfFuel (w : World D).
Arguments Ret {D A}.
Arguments MemFault {D A}.
Arguments OutOfFuel {D A}.

Definition world_of {D A} (r : Res D A) : World D :=
  match r with Ret _ w => w | MemFault w => w | OutOfFuel w => w end.

Definition bind {D A B} (r : Res D A) (k : A -> World D -> Res D B) : Res D B :=
  match r with
  | Ret a w => k a w
  | MemFault w => MemFault w
  | OutOfFuel w => OutOfFuel w
  end.

Notation "'do' ( a , w ) <- r ; k" := (bind r (fun a w => k))
  (at level 10, a name, w name, r at level 100, k at level 200).

(** ** Field updates *)

Section Updates.
Context {D : Type}.
Import MP3Decoder.

Definition set_decoder (x : D) (d : MP3Decoder.t D) : MP3Decoder.t D :=
  mk x (_initialized d) (_streaming d) (_outputBuffer d) (_streamBuffer d) (_streamFile d) (_bytesLeft d) (_readPtr d) (_firstFrame d) (_streamInfo d) (_callback d).

Definition set_streaming (x : bool) (d : MP3Decoder.t D) : MP3Decoder.t D :=
  mk (_decoder d) (_initialized d) x (_outputBuffer d) (_streamBuffer d) (_streamFile d) (_bytesLeft d) (_readPtr d) (_firstFrame d) (_streamInfo d) (_callback d).

Definition set_outputBuffer (x : list Z) (d : MP3Decoder.t D) : MP3Decoder.t D :=
  mk (_decoder d) (_initialized d) (_streaming d) x (_streamBuffer d) (_streamFile d) (_bytesLeft d) (_readPtr d) (_firstFrame d) (_streamInfo d) (_callback d).

Definition set_streamBuffer (x : option (list Z)) (d : MP3Decoder.t D) : MP3Decoder.t D :=
  mk (_decoder d) (_initialized d) (_streaming d) (_outputBuffer d) x (_streamFile d) (_bytesLeft d) (_readPtr d) (_firstFrame d) (_streamInfo d) (_callback d).

Definition set_streamFile (x : File) (d : MP3Decoder.t D) : MP3Decoder.t D :=
  mk (_decoder d) (_initialized d) (_streaming d) (_outputBuffer d) (_streamBuffer d) x (_bytesLeft d) (_readPtr d) (_firstFrame d) (_streamInfo d) (_callback d).

Definition set_bytesLeft (x : Z) (d : MP3Decoder.t D) : MP3Decoder.t D :=
  mk (_decoder d) (_initialized d) (_streaming d) (_outputBuffer d) (_streamBuffer d) (_streamFile d) x (_readPtr d) (_firstFrame d) (_streamInfo d) (_callback d).

Definition set_readPtr (x : option Z) (d : MP3Decoder.t D) : MP3Decoder.t D :=
  mk (_decoder d) (_initialized d) (_streaming d) (_outputBuffer d) (_streamBuffer d) (_streamFile d) (_bytesLeft d) x (_firstFrame d) (_streamInfo d) (_callback d).

Definition set_firstFrame (x : bool) (d : MP3Decoder.t D) : MP3Decoder.t D :=
  mk (_decoder d) (_initialized d) (_streaming d) (_outputBuffer d) (_streamBuffer d) (_streamFile d) (_bytesLeft d) (_readPtr d) x (_streamInfo d) (_callback d).

Definition set_streamInfo (x : MP3Info) (d : MP3Decoder.t D) : MP3Decoder.t D :=
  mk (_decoder d) (_initialized d) (_streaming d) (_outputBuffer d) (_streamBuffer d) (_streamFile d) (_bytesLeft d) (_readPtr d) (_firstFrame d) x (_callback d).

Definition set_callback (x : bool) (d : MP3Decoder.t D) : MP3Decoder.t D :=
  mk (_decoder d) (_initialized d) (_streaming d) (_outputBuffer d) (_streamBuffer d) (_streamFile d) (_bytesLeft d) (_readPtr d) (_firstFrame d) (_streamInfo d) x.

Definition with_decoder (f : MP3Decoder.t D -> MP3Decoder.t D) (w : World D) : World D :=
  mkWorld (f (decoder w)) (player w) (speaker w) (clock w) (trace w).

Definition with_player (f : MP3Player.t -> MP3Player.t) (w : World D) : World D :=
  mkWorld (decoder w) (f (player w)) (speaker w) (clock w) (trace w).

Definition with_speaker (f : I2SSpeaker.t -> I2SSpeaker.t) (w : World D) : World D :=
  mkWorld (decoder w) (player w) (f (speaker w)) (clock w) (trace w).

Definition tick (w : World D) : World D :=
  mkWorld (decoder w) (player w) (speaker w) (S (clock w)) (trace w).

Definition log (e : Event) (w : World D) : World D :=
  mkWorld (decoder w) (player w) (speaker w) (clock w) (e :: trace w).
End Updates.

Definition set_playing (x : bool) (p : MP3Player.t) : MP3Player.t :=
  MP3Player.mk (MP3Player._speaker p) (MP3Player._initialized p) x
    (MP3Player._volume p) (MP3Player._progressCallback p)
    (MP3Player._totalFrames p) (MP3Player._processedFrames p).

Definition set_volume (x : float) (p : MP3Player.t) : MP3Player.t :=
  MP3Player.mk (MP3Player._speaker p) (MP3Player._initialized p) (MP3Player._playing p)
    x (MP3Player._progressCallback p)
    (MP3Player._totalFrames p) (MP3Player._processedFrames p).

Definition set_progressCallback (x : bool) (p : MP3Player.t) : MP3Player.t :=
  MP3Player.mk (MP3Player._speaker p) (MP3Player._initialized p) (MP3Player._playing p)
    (MP3Player._volume p) x
    (MP3Player._totalFrames p) (MP3Player._processedFrames p).

Definition set_totalFrames (x : Z) (p : MP3Player.t) : MP3Player.t :=
  MP3Player.mk (MP3Player._speaker p) (MP3Player._initialized p) (MP3Player._playing p)
    (MP3Player._volume p) (MP3Player._progressCallback p)
    x (MP3Player._processedFrames p).

Definition set_processedFrames (x : Z) (p : MP3Player.t) : MP3Player.t :=
  MP3Player.mk (MP3Player._speaker p) (MP3Player._initialized p) (MP3Player._playing p)
    (MP3Player._volume p) (MP3Player._progressCallback p)
    (MP3Player._totalFrames p) x.

(** ** The program *)

Section Program.
Context {D : Type} (codec : Codec D) (env : Env) (fs : SPIFFS).
Import MP3Decoder.

Local Abbreviation W := (World D).
Local Abbreviation R := (Res D).

(** *** MP3Decoder::stopStreaming (MP3Decoder.cpp, 414-433) *)
Definition stopStreaming (d : MP3Decoder.t D) : MP3Decoder.t D :=
  if negb (_streaming d) then d
  else
    let d1 := set_streaming false d in
    let d2 := if isOpen (_streamFile d1)
              then set_streamFile (File_close (_streamFile d1)) d1 else d1 in
    let d3 := set_streamBuffer None d2 in
    set_callback false (set_readPtr None (set_bytesLeft 0 d3)).

(** *** MP3Decoder::fillStreamBuffer (MP3Decoder.cpp, 435-458)

    [memmove] reads [_bytesLeft] bytes at [_readPtr] and the file read
    writes at [_streamBuffer + _bytesLeft]; either one leaving the
    allocated block is a memory fault. *)
Definition fillStreamBuffer (w : W) : R bool :=
  let d := decoder w in
  if negb (isOpen (_streamFile d)) || (File_available (_streamFile d) =? 0)
  then Ret false w
  else
    match _streamBuffer d with
    | None => MemFault w
    | Some buf =>
        let bl := _bytesLeft d in
        let moved :=
          match _readPtr d with
          | Some rp =>
              if (0 <? bl) && negb (rp =? 0) then
                if (0 <=? rp) && (rp + bl <=? STREAM_BUFFER_SIZE)
                then Some (firstn (Z.to_nat bl) (skipn (Z.to_nat rp) buf)
                           ++ skipn (Z.to_nat bl) buf)
                else None
              else Some buf
          | None => if 0 <? bl then None else Some buf
          end in
        match moved with
        | None => MemFault w
        | Some buf1 =>
            let spaceLeft := size_wrap (STREAM_BUFFER_SIZE - bl) in
            let (chunk, f1) := File_read (_streamFile d) spaceLeft in
            let bytesRead := Z.of_nat (length chunk) in
            if STREAM_BUFFER_SIZE <? bl + bytesRead then MemFault w
            else
              let buf2 := firstn (Z.to_nat bl) buf1 ++ chunk
                          ++ skipn (Z.to_nat (bl + bytesRead)) buf1 in
              let d1 := set_streamFile f1
                          (set_streamBuffer (Some buf2) (set_readPtr (Some 0) d)) in
              if bytesRead =? 0 then Ret false (with_decoder (fun _ => d1) w)
              else Ret true (with_decoder
                               (fun _ => set_bytesLeft (size_wrap (bl + bytesRead)) d1) w)
        end
    end.

(** *** MP3Decoder::getFileInfo (MP3Decoder.cpp, 205-276)

    The source returns [true] and fills [*info], or returns [false] and
    leaves it alone; here the result is the filled record or nothing. *)
Definition getFileInfo (filePath : String.string) (w : W) : R (option MP3Info) :=
  let d := decoder w in
  if negb (_initialized d) then Ret None w
  else
    let file := File_open fs filePath in
    if negb (isOpen file) then Ret None w
    else
      let fileSize := File_size file in
      if fileSize =? 0 then Ret None w
      else
        let readSize := Z.min fileSize 4096 in
        let w1 := tick w in
        if negb (malloc_ok env (clock w)) then Ret None w1
        else
          let buffer := fst (File_read file readSize) in
          let bytesRead := Z.of_nat (length buffer) in
          if bytesRead =? 0 then Ret None w1
          else
            let offset := MP3FindSyncWord codec buffer in
            if offset <? 0 then Ret None w1
            else
              let '(dec1, result, frameInfo) :=
                MP3GetNextFrameInfo codec (_decoder d)
                                    (skipn (Z.to_nat offset) buffer) in
              let w2 := with_decoder (set_decoder dec1) w1 in
              if negb (result =? 0) then Ret None w2
              else
                let dur :=
                  if 0 <? bitrate frameInfo
                  then to_int (size_wrap (fileSize * 8) / size_wrap (bitrate frameInfo))
                  else 0 in
                Ret (Some (mkInfo (samprate frameInfo) (nChans frameInfo)
                                  (bitrate frameInfo) dur true)) w2.

(** *** MP3Decoder::startStreaming (MP3Decoder.cpp, 284-323)

    A fresh block is taken to hold zeros.  The block freed when the probe
    fails is modelled as a null pointer. *)
Definition startStreaming (filePath : String.string) (w : W) : R bool :=
  let d := decoder w in
  if negb (_initialized d) || _streaming d then Ret false w
  else
    let file := File_open fs filePath in
    let w1 := with_decoder (set_streamFile file) w in
    if negb (isOpen file) then Ret false w1
    else
      let w2 := tick w1 in
      if negb (malloc_ok env (clock w1))
      then Ret false (with_decoder
                        (fun d => set_streamFile (File_close file)
                                    (set_streamBuffer None d)) w2)
      else
        let w3 := with_decoder
                    (set_streamBuffer
                       (Some (repeat 0 (Z.to_nat STREAM_BUFFER_SIZE)))) w2 in
        do (info, w4) <- getFileInfo filePath w3;
        match info with
        | None => Ret false (with_decoder
                               (fun d => set_streamFile (File_close file)
                                           (set_streamBuffer None d)) w4)
        | Some i =>
            let w5 := with_decoder
                        (fun d => set_streaming true
                                    (set_firstFrame true
                                       (set_readPtr (Some 0)
                                          (set_bytesLeft 0
                                             (set_callback true
                                                (set_streamInfo i d)))))) w4 in
            do (ok, w6) <- fillStreamBuffer w5;
            if ok then Ret true w6
            else Ret false (with_decoder stopStreaming w6)
        end.

(** *** MP3Decoder::processStreamFrame (MP3Decoder.cpp, 325-412)

    The frame-info call (346) gets the bare [_readPtr]: the codec is given
    the bytes from the sync position to the end of the block, which may
    be as few as two.  The same holds for the probe of getFileInfo (252)
    on its own buffer. *)
Section Streaming.
Variable callback : list Z -> Z -> MP3Info -> W -> R bool.

(** The unread window [_readPtr, _readPtr + n) of a buffer. *)
Definition window (buf : list Z) (rp n : Z) : list Z :=
  firstn (Z.to_nat n) (skipn (Z.to_nat rp) buf).

(** The one-byte skip [_readPtr++; _bytesLeft--]. *)
Definition skipByte (w : W) : W :=
  let d := decoder w in
  log (EvSkip (_bytesLeft d))
      (with_decoder
         (fun d => set_bytesLeft (size_wrap (_bytesLeft d - 1))
                     (set_readPtr (option_map (Z.add 1) (_readPtr d)) d)) w).

(** [if (!fillStreamBuffer()) return false; return processStreamFrame();]
    where [retry] is the recursive call. *)
Definition refillAndRetry (retry : W -> R bool) (w : W) : R bool :=
  do (ok, w1) <- fillStreamBuffer w;
  if ok then retry w1 else Ret false w1.

(** The resynchronisation after a failed frame (348-356, and the same
    lines again at 385-392): skip one byte, refill if that emptied the
    window, search again. *)
Definition resync (retry : W -> R bool) (w : W) : R bool :=
  let w1 := skipByte w in
  if _bytesLeft (decoder w1) =? 0 then refillAndRetry retry w1
  else retry w1.

(** The end of a successful call (406-411). *)
Definition topUp (w : W) : R bool :=
  if (_bytesLeft (decoder w) <? INPUT_BUFFER_SIZE)
     && negb (File_available (_streamFile (decoder w)) =? 0)
  then do (_ok, w1) <- fillStreamBuffer w; Ret true w1
  else Ret true w.

Fixpoint processStreamFrame (fuel : nat) (w : W) : R bool :=
  match fuel with
  | O => OutOfFuel w
  | S fuel' =>
    let d := decoder w in
    if negb (_streaming d) || negb (_initialized d) then Ret false w
    else
      match _streamBuffer d, _readPtr d with
      | Some buf, Some rp =>
        let offset :=
          MP3FindSyncWord codec (window buf rp (to_int (_bytesLeft d))) in
        if offset <? 0 then refillAndRetry (processStreamFrame fuel') w
        else
          let rp1 := rp + offset in
          let bl1 := size_wrap (_bytesLeft d - offset) in
          let '(dec1, result, frameInfo) :=
            MP3GetNextFrameInfo codec (_decoder d) (skipn (Z.to_nat rp1) buf) in
          let w1 := with_decoder
                      (fun d => set_decoder dec1
                                  (set_bytesLeft bl1 (set_readPtr (Some rp1) d))) w in
          if negb (result =? 0) then resync (processStreamFrame fuel') w1
          else
            let w2 :=
              if _firstFrame (decoder w1) then
                with_decoder
                  (fun d => set_firstFrame false
                              (set_streamInfo
                                 (mkInfo (samprate frameInfo) (nChans frameInfo)
                                         (bitrate frameInfo)
                                         (duration (_streamInfo d)) true) d)) w1
              else w1 in
            let '(dec2, result2, consumed, pcm) :=
              MP3Decode codec dec1 (window buf rp1 (to_int bl1)) in
            let w3 := with_decoder
                        (fun d => set_decoder dec2
                                    (set_outputBuffer pcm
                                       (set_bytesLeft (size_wrap (to_int bl1 - consumed))
                                          (set_readPtr (Some (rp1 + consumed)) d)))) w2 in
            if negb (result2 =? 0) then
              if result2 =? ERR_MP3_INDATA_UNDERFLOW codec
              then refillAndRetry (processStreamFrame fuel') w3
              else resync (processStreamFrame fuel') w3
            else
              if _callback (decoder w3) then
                let sampleCount := size_wrap (outputSamps frameInfo) in
                do (continue, w4) <-
                   callback (_outputBuffer (decoder w3)) sampleCount
                            (_streamInfo (decoder w3))
                            (log (EvFrame sampleCount (_streamInfo (decoder w3))) w3);
                if continue then topUp w4
                else Ret false (with_decoder stopStreaming w4)
              else topUp w3
      | _, _ => MemFault w
      end
  end.
End Streaming.

(** *** I2SSpeaker (I2SSpeaker.cpp) *)

(** I2SSpeaker::start (99-119). *)
Definition I2SSpeaker_start (w : W) : Z * W :=
  let sp := speaker w in
  if negb (I2SSpeaker._initialized sp) then (ESP_ERR_INVALID_STATE, w)
  else if I2SSpeaker._active sp then (ESP_OK, w)
  else
    let ret := i2s_channel_enable env (clock w) in
    let w1 := tick w in
    if negb (ret =? ESP_OK) then (ret, w1)
    else (ESP_OK, with_speaker (I2SSpeaker.set_active true) w1).

(** I2SSpeaker::writeAudioData (136-165); the buffer is never null. *)
Definition writeAudioData (bufferSize : Z) (w : W) : Z * W :=
  let sp := speaker w in
  if negb (I2SSpeaker._initialized sp) then (ESP_ERR_INVALID_STATE, w)
  else if negb (I2SSpeaker._active sp) then (ESP_ERR_INVALID_STATE, w)
  else if bufferSize =? 0 then (ESP_ERR_INVALID_ARG, w)
  else (i2s_channel_write env (clock w), tick w).

(** I2SSpeaker::writeSamples (167-184). *)
Definition writeSamples (sampleCount : Z) (w : W) : Z * W :=
  if sampleCount =? 0 then (ESP_ERR_INVALID_ARG, w)
  else writeAudioData (size_wrap (sampleCount * 2)) w.

Definition getBytesPerSample (sp : I2SSpeaker.t) : Z :=
  let b := I2SSpeaker._bitsPerSample sp in
  if b =? 16 then 2 else if b =? 24 then 3 else if b =? 32 then 4 else 2.

Definition getChannelCount (sp : I2SSpeaker.t) : Z :=
  let m := I2SSpeaker._channelMode sp in
  if m =? 1 then 1 else if m =? 2 then 2 else 2.

(** I2SSpeaker::calculateBufferSize (292-299). *)
Definition calculateBufferSize (sp : I2SSpeaker.t) (durationMs : Z) : Z :=
  let samplesPerMs := I2SSpeaker._sampleRate sp / 1000 in
  let totalSamples := size_wrap (samplesPerMs * durationMs) in
  size_wrap (size_wrap (totalSamples * getChannelCount sp) * getBytesPerSample sp).

(** I2SSpeaker::clear (320-340). *)
Definition clear (w : W) : W :=
  let sp := speaker w in
  if negb (I2SSpeaker._initialized sp) || negb (I2SSpeaker._active sp)
  then log (EvClear ESP_ERR_INVALID_STATE) w
  else
    let bufferSize := calculateBufferSize sp 1000 in
    let w1 := tick w in
    if negb (malloc_ok env (clock w)) then log (EvClear ESP_ERR_NO_MEM) w1
    else
      let (ret, w2) := writeAudioData bufferSize w1 in
      log (EvClear ret) w2.

(** *** MP3Player (MP3Player.cpp) *)

(** MP3Player::stop (85-93). *)
Definition stop (w : W) : W :=
  if MP3Player._playing (player w) then
    let w1 := with_player (set_playing false) w in
    if _streaming (decoder w1) then with_decoder stopStreaming w1 else w1
  else w.

(** A point at which another task may run [MP3Player::stop()] while the
    playback task is inside playFileWithProgress.  The points followed
    are: between the test of [_playing] at the entry of the stream
    callback and the speaker write, during that write, in the progress
    observer, and between two frames.  A [stop()] that runs while
    processStreamFrame itself works on the stream block, which [stop()]
    releases, is not followed. *)
Definition yield (w : W) : W :=
  let w1 := tick w in
  if stop_requested env (clock w) then stop (log EvStop w1) else w1.

(** MP3Player::streamingCallback (115-150).  [data] is the decoder's
    output buffer, never null.  [_playing] is tested at the entry (117)
    and not again before the write (133); the speaker write blocks for up
    to 100 ms, and the progress observer is code of the caller. *)
Definition streamingCallback (data : list Z) (sampleCount : Z) (info : MP3Info)
           (w : W) : R bool :=
  let p := player w in
  if negb (MP3Player._speaker p) then Ret false w
  else if negb (MP3Player._playing p) then Ret false (log EvStopSeen w)
  else if sampleCount =? 0 then Ret false w
  else
    let w0 := yield w in
    let w1 := tick w0 in
    if negb (malloc_ok env (clock w0)) then Ret false w1
    else
      let volumeAdjustedSamples :=
        applyVolume (firstn (Z.to_nat sampleCount) data) sampleCount
                    (MP3Player._volume p) in
      let (result, w2) := writeSamples sampleCount w1 in
      let w3 := yield (log (EvWriteSamples volumeAdjustedSamples result) w2) in
      if negb (result =? ESP_OK) then Ret false w3
      else
        let w4 := with_player
                    (fun p => set_processedFrames
                                (size_wrap (MP3Player._processedFrames p + 1)) p) w3 in
        let p4 := player w4 in
        let w5 :=
          if MP3Player._progressCallback p4 && (0 <? MP3Player._totalFrames p4) then
            let progress := f32_div (f32_of_Z (MP3Player._processedFrames p4))
                                    (f32_of_Z (MP3Player._totalFrames p4)) in
            yield (log (EvProgress progress) w4)
          else w4 in
        if MP3Player._playing (player w5) then Ret true w5
        else Ret false (log EvStopSeen w5).

(** The frame loop of playFileWithProgress (63-71). *)
Fixpoint playLoop (fuel : nat) (w : W) : R unit :=
  match fuel with
  | O => OutOfFuel w
  | S fuel' =>
      if negb (_streaming (decoder w)) then Ret tt w
      else if negb (MP3Player._playing (player w)) then Ret tt (log EvStopSeen w)
      else
        do (ok, w1) <- processStreamFrame streamingCallback fuel' w;
        if ok then playLoop fuel' (yield w1) else Ret tt w1
  end.

(** MP3Player::playFileWithProgress (34-83).  [progressCallback] tells
    whether an observer is supplied. *)
Definition playFileWithProgress (filePath : String.string) (volume : float)
           (progressCallback : bool) (fuel : nat) (w : W) : R bool :=
  let p := player w in
  if negb (MP3Player._initialized p) || negb (MP3Player._speaker p)
     || MP3Player._playing p
  then Ret false w
  else
    let w1 := with_player
                (fun p => set_processedFrames 0
                            (set_totalFrames 0
                               (set_progressCallback progressCallback
                                  (set_volume (constrain volume f32_zero f32_one) p)))) w in
    let started :=
      if negb (I2SSpeaker._active (speaker w1)) then I2SSpeaker_start w1
      else (ESP_OK, w1) in
    let (err, w2) := started in
    if negb (err =? ESP_OK) then Ret false w2
    else
      let w3 := with_player (set_playing true) w2 in
      do (success, w4) <- startStreaming filePath w3;
      if negb success then Ret false (with_player (set_playing false) w4)
      else
        do (_u, w5) <- playLoop fuel w4;
        let w6 := if _streaming (decoder w5)
                  then with_decoder stopStreaming w5 else w5 in
        let w7 := with_player
                    (fun p => set_progressCallback false (set_playing false p)) w6 in
        Ret success (clear w7).

(** MP3Player::playFile (30-32). *)
Definition playFile (filePath : String.string) (volume : float)
           (fuel : nat) (w : W) : R bool :=
  playFileWithProgress filePath volume false fuel w.
End Program.

(** ** A synthetic codec and concrete worlds for the runs below

    A frame is [0xFF; h; n; p1 .. pn]: the sync pattern is [0xFF] followed
    by a byte with its three high bits set; the two low bits of [h] select
    the sample rate (0 is not a valid header), bit 2 of [h] says that the
    frame needs main data of an earlier frame, and the [n] payload bytes
    decode to [n] samples.  As with the bit reservoir of MP3, a frame that
    needs earlier main data when none has been seen is consumed whole and
    reported as an error. *)
Module TestCodec.
Definition ERR_INDATA_UNDERFLOW : Z := -1.
Definition ERR_MAINDATA_UNDERFLOW : Z := -2.
Definition ERR_INVALID_FRAMEHEADER : Z := -6.

Fixpoint findSync (w : list Z) (i : Z) : Z :=
  match w with
  | a :: ((b :: _) as rest) =>
      if (Z.land a 255 =? 255) && (Z.land b 224 =? 224) then i
      else findSync rest (i + 1)
  | _ => -1
  end.

Definition noInfo : MP3FrameInfo := mkFrameInfo 0 0 0 0.

Definition validHeader (h : Z) : bool :=
  (Z.land h 224 =? 224) && negb (Z.land h 3 =? 0).

Definition frameInfo (h n : Z) : MP3FrameInfo :=
  mkFrameInfo 128000 1 (11025 * Z.land h 3) n.

Definition getNextFrameInfo (d : bool) (mem : list Z) : bool * Z * MP3FrameInfo :=
  match mem with
  | 255 :: h :: n :: _ =>
      if validHeader h then (d, 0, frameInfo h n)
      else (d, ERR_INVALID_FRAMEHEADER, noInfo)
  | _ => (d, ERR_INVALID_FRAMEHEADER, noInfo)
  end.

Definition sample (b : Z) : Z := (b - 128) * 256.

Definition decode (d : bool) (w : list Z) : bool * Z * Z * list Z :=
  match w with
  | 255 :: h :: n :: rest =>
      if negb (validHeader h) then (d, ERR_INVALID_FRAMEHEADER, 0, [])
      else if Z.of_nat (length rest) <? n then (d, ERR_INDATA_UNDERFLOW, 0, [])
      else if negb (Z.land h 4 =? 0) && negb d
      then (true, ERR_MAINDATA_UNDERFLOW, 3 + n, [])
      else (true, 0, 3 + n, map sample (firstn (Z.to_nat n) rest))
  | _ => (d, ERR_INDATA_UNDERFLOW, 0, [])
  end.

Definition codec : Codec bool :=
  mkCodec bool false (fun w => findSync w 0) getNextFrameInfo decode
          ERR_INDATA_UNDERFLOW.

(** The same decoder, except that a failed decode consumes nothing and a
    length byte outside the window is refused. *)
Definition strictDecode (d : bool) (w : list Z) : bool * Z * Z * list Z :=
  match decode d w with
  | (d', r, c, pcm) =>
      if negb (r =? 0) then (d', r, 0, pcm)
      else if (0 <=? c) && (c <=? Z.of_nat (length w)) then (d', r, c, pcm)
      else (d, ERR_INVALID_FRAMEHEADER, 0, [])
  end.

Definition strictCodec : Codec bool :=
  mkCodec bool false (fun w => findSync w 0) getNextFrameInfo strictDecode
          ERR_INDATA_UNDERFLOW.
End TestCodec.

(** An environment in which every allocation and every I2S call succeeds
    and nobody calls [stop()]. *)
Definition calmEnv : Env :=
  mkEnv (fun _ => true) (fun _ => ESP_OK) (fun _ => ESP_OK) (fun _ => false).

(** The I2S write of the first frame fails. *)
Definition brokenSinkEnv : Env :=
  mkEnv (fun _ => true) (fun _ => ESP_OK) (fun _ => ESP_ERR_INVALID_STATE)
        (fun _ => false).

Definition oneFile (bytes : list Z) : SPIFFS := fun _ => Some bytes.

Definition emptyInfo : MP3Decoder.MP3Info := MP3Decoder.mkInfo 0 0 0 0 false.

(** The objects after [I2SSpeaker::init], [I2SSpeaker::start] and
    [MP3Player::init]. *)
Definition readyWorld : World bool :=
  mkWorld
    (MP3Decoder.mk (MP3InitDecoder TestCodec.codec) true false [] None invalidFile
                   0 None true emptyInfo false)
    (MP3Player.mk true true false f32_0_7 false 0 0)
    (I2SSpeaker.mk true true 44100 16 2)
    0 [].

Definition path : String.string := String.EmptyString.

Definition goodFrame1 : list Z := [255; 225; 3; 128; 129; 130].
Definition goodFrame2 : list Z := [255; 226; 2; 138; 118].
Definition reservoirFrame : list Z := [255; 229; 2; 138; 118].


Definition twoFrames : list Z := goodFrame1 ++ goodFrame2.


(** A file without any sync pattern. *)
Definition noSyncFile : list Z := [1; 2; 3; 4; 5].

(** 5000 bytes without any sync pattern: more than the probe of
    getFileInfo reads. *)
Definition longNoSyncFile : list Z := repeat 0 (Z.to_nat 5000).

(** A first frame that needs main data that was never seen, then a stray
    byte and a frame that decodes. *)
Definition resyncFile : list Z := reservoirFrame ++ [0] ++ goodFrame2.

(** The block of the stream over [resyncFile] after the first refill. *)
Definition resyncBuffer : list Z := resyncFile ++ repeat 0 (Z.to_nat 8181).

(** Another task calls [stop()] after the stream callback has tested
    [_playing] for the first block and before it writes the block. *)
Definition stopBeforeWriteEnv : Env :=
  mkEnv (fun _ => true) (fun _ => ESP_OK) (fun _ => ESP_OK)
        (fun t => Nat.eqb t 2).

(** The objects of [readyWorld] once playFileWithProgress has set
    [_playing]. *)
Definition playingWorld : World bool :=
  with_player (set_playing true) readyWorld.

(** The world in which startStreaming leaves a stream over [bytes]. *)
Definition streamOver (bytes : list Z) (w : World bool) : World bool :=
  world_of (startStreaming TestCodec.codec calmEnv (oneFile bytes) path w).


Definition resyncWorld : World bool := streamOver resyncFile readyWorld.

Definition resyncPlayingWorld : World bool := streamOver resyncFile playingWorld.

(** The stream over a file that holds just one frame, which needs earlier
    main data. *)
Definition reservoirWorld : World bool := streamOver reservoirFrame readyWorld.

(** The state in which the decode call on that frame returns: the frame is
    consumed whole, no unread byte is left, and the call reports an error. *)
Definition afterFailedDecode : World bool :=
  with_decoder
    (fun d => set_decoder true
                (set_outputBuffer []
                   (set_bytesLeft 0
                      (set_readPtr (Some 5) (set_firstFrame false d)))))
    reservoirWorld.

(** A window that begins with a sync pattern which is no frame header,
    before a frame that decodes, with the first-frame flag still up.  The
    state is set up by hand: startStreaming does not start a stream on a
    file whose first header does not parse. *)
Definition badHeaderBuffer : list Z :=
  [255; 224; 0] ++ goodFrame2 ++ repeat 0 (Z.to_nat 8184).

Definition badHeaderWorld : World bool :=
  with_decoder
    (fun d => set_bytesLeft 8 (set_streamBuffer (Some badHeaderBuffer) d))
    resyncPlayingWorld.

(** What startStreaming leaves when it is offered [longNoSyncFile]. *)
Definition refusedWorld : World bool := streamOver longNoSyncFile playingWorld.

(** The state of a stream after its one good frame has been played, with
    [junk] behind that frame in the file. *)
Definition afterFirstFrame (junk : list Z) : World bool :=
  world_of
    (processStreamFrame TestCodec.codec (streamingCallback calmEnv) 1
                        (streamOver (goodFrame1 ++ junk) playingWorld)).

(** 8193 bytes without a sync pattern behind the first frame. *)
Definition longTailWorld : World bool :=
  afterFirstFrame (repeat 0 (Z.to_nat 8193)).

(** ** Reading a trace *)

Definition is_write (e : Event) : bool :=
  match e with EvWriteSamples _ _ => true | _ => false end.

Definition is_failed_write (e : Event) : bool :=
  match e with EvWriteSamples _ status => negb (status =? ESP_OK) | _ => false end.

Definition is_seen (e : Event) : bool :=
  match e with EvStopSeen => true | _ => false end.

Definition is_progress (e : Event) : bool :=
  match e with EvProgress _ => true | _ => false end.

(** No check has found the playing flag down. *)
Definition no_seen (tr : list Event) : bool :=
  forallb (fun e => negb (is_seen e)) tr.

Definition no_progress (tr : list Event) : bool :=
  forallb (fun e => negb (is_progress e)) tr.

Definition no_failed_write (tr : list Event) : bool :=
  forallb (fun e => negb (is_failed_write e)) tr.

(** Every block that went to the speaker did so before the first check
    that found the playing flag down (the trace is most recent first). *)
Fixpoint writes_before_seen (tr : list Event) : bool :=
  match tr with
  | [] => true
  | e :: older =>
      (if is_write e then no_seen older else true) && writes_before_seen older
  end.

(** The value a call returned, if it returned. *)
Definition returned {D A} (r : Res D A) : option A :=
  match r with Ret a _ => Some a | _ => None end.

(** ** Predicates on states *)

Import MP3Decoder.

(** The source has nothing more to give: the handle is closed or at its end. *)
Definition drained (f : File) : Prop :=
  isOpen f = false \/ File_available f = 0.

(** Every byte of the source has been read. *)
Definition source_consumed (f : File) : Prop :=
  (length (contents f) <= position f)%nat.

(** [cursor <= fillLevel <= capacity]: the read position is an offset into
    the block, the unread count is not negative, and the unread bytes end
    inside the block. *)
Definition window_invariant {D} (d : MP3Decoder.t D) : Prop :=
  match _readPtr d with
  | Some rp => 0 <= rp /\ 0 <= _bytesLeft d /\ rp + _bytesLeft d <= STREAM_BUFFER_SIZE
  | None => _bytesLeft d = 0
  end.

(** The unread bytes of the window and the bytes the source still holds. *)
Definition unread {D} (d : MP3Decoder.t D) : list Z :=
  match _streamBuffer d, _readPtr d with
  | Some buf, Some rp => window buf rp (_bytesLeft d)
  | _, _ => []
  end.

Definition pending (f : File) : list Z :=
  if isOpen f then skipn (position f) (contents f) else [].

(** The sync search finds nothing in any prefix of the stream. *)
Definition no_sync {D} (codec : Codec D) (stream : list Z) : Prop :=
  forall k, MP3FindSyncWord codec (firstn k stream) < 0.

(** A stream in progress over the block [buf], reading at offset [rp]. *)
Definition streaming_at {D} (w : World D) (buf : list Z) (rp : Z) : Prop :=
  let d := decoder w in
  _streaming d = true /\ _initialized d = true
  /\ isOpen (_streamFile d) = true
  /\ _streamBuffer d = Some buf
  /\ Z.of_nat (length buf) = STREAM_BUFFER_SIZE
  /\ _readPtr d = Some rp
  /\ 0 <= rp /\ 0 <= _bytesLeft d
  /\ rp + _bytesLeft d <= STREAM_BUFFER_SIZE.

(** What the streaming loop needs of the window: the invariant, and while a
    stream is in progress a block of the full capacity and a read position
    inside it. *)
Definition stream_inv {D} (w : World D) : Prop :=
  window_invariant (decoder w)
  /\ (_streaming (decoder w) = true ->
      _initialized (decoder w) = true
      /\ exists buf rp,
          _streamBuffer (decoder w) = Some buf
          /\ Z.of_nat (length buf) = STREAM_BUFFER_SIZE
          /\ _readPtr (decoder w) = Some rp).

(** Every one-byte skip of the trace ran with an unread byte to skip. *)
Definition skips_positive (tr : list Event) : bool :=
  forallb (fun e => match e with EvSkip n => 0 <? n | _ => true end) tr.

(** The invariant together with the record of the skips. *)
Definition window_safe {D} (w : World D) : Prop :=
  stream_inv w /\ skips_positive (trace w) = true.

Definition decode_status {D} (codec : Codec D) (d : D) (w : list Z) : Z :=
  snd (fst (fst (MP3Decode codec d w))).

Definition decode_consumed {D} (codec : Codec D) (d : D) (w : list Z) : Z :=
  snd (fst (MP3Decode codec d w)).

(** The codec stays inside the window it is given: a sync offset lies in
    the window, and a decode consumes a prefix of it. *)
Definition codec_within_window {D} (codec : Codec D) : Prop :=
  (forall w, MP3FindSyncWord codec w < Z.of_nat (length w))
  /\ (forall d w, 0 <= decode_consumed codec d w <= Z.of_nat (length w)).

(** A decode that reports an error other than underflow has left at least
    one byte of the window unread. *)
Definition error_leaves_byte {D} (codec : Codec D) : Prop :=
  forall d w,
    decode_status codec d w <> 0 ->
    decode_status codec d w <> ERR_MP3_INDATA_UNDERFLOW codec ->
    decode_consumed codec d w < Z.of_nat (length w).

(** The latched metadata and the flag that guards the latch. *)
Definition meta {D} (w : World D) : MP3Info * bool :=
  (_streamInfo (decoder w), _firstFrame (decoder w)).

(** A predicate on worlds that no change of the decoder object touches. *)
Definition decoder_blind {D} (I : World D -> Prop) : Prop :=
  forall f w, I w -> I (with_decoder f w).

(** A predicate that only reads the trace, the playing flag and the frame
    total. *)
Definition session_blind {D} (I : World D -> Prop) : Prop :=
  forall w w', trace w' = trace w ->
               MP3Player._playing (player w') = MP3Player._playing (player w) ->
               MP3Player._totalFrames (player w')
               = MP3Player._totalFrames (player w) ->
               I w -> I w'.

(** The events that a run has added to the trace [tr0] satisfy [P]. *)
Definition added {D} (tr0 : list Event) (P : list Event -> bool)
           (w : World D) : Prop :=
  exists evs, trace w = evs ++ tr0 /\ P evs = true.

(** How a call that started at the trace [tr0] stands to the checks of
    the playing flag: if it returns [true] no check has found the flag
    down, and however it ends every speaker write came before the first
    check that did. *)
Definition stop_order {D} (tr0 : list Event) (r : Res D bool) : Prop :=
  match r with
  | Ret true w => added tr0 no_seen w
  | _ => added tr0 writes_before_seen (world_of r)
  end.

(** The frame total is zero and the observer has not been invoked. *)
Definition no_total {D} (w : World D) : Prop :=
  MP3Player._totalFrames (player w) = 0 /\ no_progress (trace w) = true.

(** ** The claims that fail, as the specification words them *)

(** C2, for the state [w] in which the frame loop is entered on a stream
    without any sync pattern: the calls end with the end-of-stream signal,
    no frame is emitted, and the source has been read to its end. *)
Definition C2_spec_says {D} (codec : Codec D)
           (callback : list Z -> Z -> MP3Info -> World D -> Res D bool)
           (w : World D) : Prop :=
  exists fuel w',
    processStreamFrame codec callback fuel w = Ret false w'
    /\ trace w' = trace w
    /\ source_consumed (_streamFile (decoder w')).


(** C5, for the state [w] in which the failing call returns: the skip moves
    the read position by one byte, lowers the unread count by one and
    changes nothing else of the buffer. *)
Definition C5_spec_says {D} (w : World D) : Prop :=
  let w1 := skipByte w in
  _readPtr (decoder w1) = option_map (Z.add 1) (_readPtr (decoder w))
  /\ _bytesLeft (decoder w1) = _bytesLeft (decoder w) - 1
  /\ _streamBuffer (decoder w1) = _streamBuffer (decoder w)
  /\ _streamFile (decoder w1) = _streamFile (decoder w).

(** C7: the metadata held once a frame has been decoded is that of the
    first frame that decoded, [first]. *)
Definition C7_spec_says {D} (first : MP3FrameInfo) (w : World D) : Prop :=
  let i := _streamInfo (decoder w) in
  sampleRate i = samprate first /\ channels i = nChans first
  /\ bitRate i = bitrate first /\ valid i = true.

(** C9: [stop()] only sets the flag. *)
Definition C9_spec_says {D} (w : World D) : Prop :=
  stop w = with_player (set_playing false) w.

(** ** What is left of a stream, and codecs that advance *)

(** The bytes of the stream that have not been consumed yet: the unread
    window and what the source still holds. *)
Definition stream_left {D} (w : World D) : Z :=
  _bytesLeft (decoder w) + File_available (_streamFile (decoder w)).

(** A successful decode consumes at least one byte. *)
Definition decode_advances {D} (codec : Codec D) : Prop :=
  forall d w, decode_status codec d w = 0 -> 1 <= decode_consumed codec d w.

(** A bound on the nested calls of one processStreamFrame: a byte still in
    the source can cost a refill and a skip, a byte of the window a skip. *)
Definition frame_budget {D} (w : World D) : Z :=
  _bytesLeft (decoder w) + 2 * File_available (_streamFile (decoder w)).

(** The call [r] ends within its budget, by a return or by a memory
    fault of the program's own. *)
Definition ends {D A} (r : Res D A) : Prop :=
  match r with OutOfFuel _ => False | _ => True end.

(** The call [r] made in the state [w] returns, keeps the window, and does
    not lengthen the stream; when it returns true and the codec advances,
    the stream has become shorter. *)
Definition returns_shorter {D} (codec : Codec D)
           (r : Res D bool) (w : World D) : Prop :=
  exists b w',
    r = Ret b w'
    /\ stream_inv w'
    /\ stream_left w' <= stream_left w
    /\ (b = true -> decode_advances codec -> stream_left w' < stream_left w).

(** The synthetic decoder made to advance: a failed decode consumes
    nothing, and a decode that would consume no byte, or more than the
    window holds, is refused. *)
Definition steadyDecode (d : bool) (w : list Z) : bool * Z * Z * list Z :=
  match TestCodec.decode d w with
  | (d', r, c, pcm) =>
      if negb (r =? 0) then (d', r, 0, pcm)
      else if (1 <=? c) && (c <=? Z.of_nat (length w)) then (d', r, c, pcm)
      else (d, TestCodec.ERR_INVALID_FRAMEHEADER, 0, [])
  end.

Definition steadyCodec : Codec bool :=
  mkCodec bool false (fun w => TestCodec.findSync w 0)
          TestCodec.getNextFrameInfo steadyDecode
          TestCodec.ERR_INDATA_UNDERFLOW.

(** What the probe of getFileInfo looks at: the frame header at the first
    sync pattern of the first 4096 bytes, if the search finds one and the
    header parses. *)
Definition probe {D} (codec : Codec D) (d : D) (bytes : list Z)
  : option MP3FrameInfo :=
  let buffer := firstn (Z.to_nat 4096) bytes in
  let offset := MP3FindSyncWord codec buffer in
  if offset <? 0 then None
  else
    let '(_, result, frameInfo) :=
      MP3GetNextFrameInfo codec d (skipn (Z.to_nat offset) buffer) in
    if result =? 0 then Some frameInfo else None.

(** ** Counting in a trace *)

Definition is_frame (e : Event) : bool :=
  match e with EvFrame _ _ => true | _ => false end.

Definition is_good_write (e : Event) : bool :=
  match e with EvWriteSamples _ status => status =? ESP_OK | _ => false end.

(** The frames handed to the stream callback, the blocks sent to the
    speaker and the blocks the speaker accepted. *)
Definition frames (tr : list Event) : nat := length (filter is_frame tr).
Definition writes (tr : list Event) : nat := length (filter is_write tr).
Definition good_writes (tr : list Event) : nat :=
  length (filter is_good_write tr).

(** The call [r] made in the state [w] hands at most one frame to the
    callback, and exactly one when a callback is installed and the call
    returns true. *)
Definition one_frame {D} (r : Res D bool) (w : World D) : Prop :=
  (frames (trace (world_of r)) <= S (frames (trace w)))%nat
  /\ (_callback (decoder w) = true ->
      forall w', r = Ret true w' -> frames (trace w') = S (frames (trace w))).

(** The frame counter of the player agrees with the blocks the speaker has
    accepted since the trace held [base] of them. *)
Definition counter_agrees {D} (base : nat) (w : World D) : Prop :=
  MP3Player._processedFrames (player w)
  = size_wrap (Z.of_nat (good_writes (trace w)) - Z.of_nat base).

(** ** MP3Player::setVolume and getVolume (MP3Player.cpp, 99-105) *)

Definition setVolume {D} (volume : float) (w : World D) : World D :=
  with_player (set_volume (constrain volume f32_zero f32_one)) w.

Definition getVolume {D} (w : World D) : float :=
  MP3Player._volume (player w).

(** ** AudioSamples::getDTMFFrequencies (AudioSamples.cpp, 391-416)

    The source returns [true] and fills the two frequencies, or returns
    [false]; here the result is the pair (low, high) or nothing. *)
Module AudioSamples.
Import Ascii.
Local Open Scope char_scope.

Definition getDTMFFrequencies (digit : ascii) : option (Z * Z) :=
  match digit with
  | "1" => Some (697, 1209)
  | "2" => Some (697, 1336)
  | "3" => Some (697, 1477)
  | "A" => Some (697, 1633)
  | "4" => Some (770, 1209)
  | "5" => Some (770, 1336)
  | "6" => Some (770, 1477)
  | "B" => Some (770, 1633)
  | "7" => Some (852, 1209)
  | "8" => Some (852, 1336)
  | "9" => Some (852, 1477)
  | "C" => Some (852, 1633)
  | "*" => Some (941, 1209)
  | "0" => Some (941, 1336)
  | "#" => Some (941, 1477)
  | "D" => Some (941, 1633)
  | _ => None
  end.

(** The keypad: four rows (low tone) by four columns (high tone). *)
Definition keypad : list (list ascii) :=
  [["1"; "2"; "3"; "A"];
   ["4"; "5"; "6"; "B"];
   ["7"; "8"; "9"; "C"];
   ["*"; "0"; "#"; "D"]].

Definition rowTones : list Z := [697; 770; 852; 941].
Definition columnTones : list Z := [1209; 1336; 1477; 1633].

(** The key at row [r], column [c] of the keypad. *)
Definition keyAt (r c : nat) : option ascii :=
  match nth_error keypad r with
  | Some row => nth_error row c
  | None => None
  end.

(** The position of a tone in a list of tones. *)
Fixpoint toneIndex (tones : list Z) (f : Z) : option nat :=
  match tones with
  | [] => None
  | t :: rest => if Z.eqb t f then Some O else option_map S (toneIndex rest f)
  end.

(** The key of a tone pair. *)
Definition keyOfTones (low high : Z) : option ascii :=
  match toneIndex rowTones low, toneIndex columnTones high with
  | Some r, Some c => keyAt r c
  | _, _ => None
  end.
End AudioSamples.

(** ** Decoding a whole file (MP3Decoder.cpp, 57-203)

    [decodeFile] and [decodeData] hand a block of MP3 bytes to
    [decodeInternal], which decodes it frame by frame into one PCM block. *)

Module Decode.
(** The caller's output variables [*pcmBuffer], [*pcmSize] and [*info];
    [pcmBuffer] is the content of the block or [None] for a null pointer,
    and [info] is [None] when the caller passes no [info] pointer. *)
Record Out := mkOut {
  pcmBuffer : option (list Z);
  pcmSize : Z;
  info : option MP3Decoder.MP3Info
}.

(** The local variables of decodeInternal.  [readPtr] is an offset into
    [mp3Data]; [pcmData] is the content of the block of
    [estimatedPCMSize] bytes, two bytes to a sample. *)
Record Locals := mkLocals {
  readPtr : Z;
  bytesLeft : Z;
  pcmData : list Z;
  estimatedPCMSize : Z;
  totalPCMSamples : Z;
  firstFrame : bool;
  infoOut : option MP3Decoder.MP3Info
}.
End Decode.

(** A block after [realloc] to [n] samples: the old content, cut or
    extended (with zeros, as for a fresh block). *)
Definition resized (n : Z) (block : list Z) : list Z :=
  firstn (Z.to_nat n) block ++ repeat 0 (Z.to_nat n - length block).

(** The block after [samples] have been written at sample offset [at]. *)
Definition written (block : list Z) (at_ : Z) (samples : list Z) : list Z :=
  firstn (Z.to_nat at_) block ++ samples
  ++ skipn (Z.to_nat at_ + length samples) block.

Section WholeFile.
Context {D : Type} (codec : Codec D) (env : Env) (fs : SPIFFS).
Import MP3Decoder Decode.

Local Abbreviation W := (World D).
Local Abbreviation R := (Res D).

(** The loop of decodeInternal (128-186).  It gives the locals when it
    ends, with [true], or with [false] when the function has returned false
    from inside the loop (the block could not be grown).  The decoder
    writes at [pcmData + totalPCMSamples]; a write that leaves the block is
    a memory fault.  The codec is C code and throws nothing, so the [catch]
    clause has no counterpart. *)
Fixpoint decodeLoop (fuel : nat) (mp3Data : list Z) (s : Locals) (w : W)
  : R (bool * Locals) :=
  match fuel with
  | O => OutOfFuel w
  | S fuel' =>
    if negb (0 <? bytesLeft s) then Ret (true, s) w
    else
      let offset :=
        MP3FindSyncWord codec (window mp3Data (readPtr s) (to_int (bytesLeft s))) in
      if offset <? 0 then Ret (true, s) w
      else
        let rp1 := readPtr s + offset in
        let bl1 := size_wrap (bytesLeft s - offset) in
        let '(dec1, result, frameInfo) :=
          MP3GetNextFrameInfo codec (_decoder (decoder w))
                              (skipn (Z.to_nat rp1) mp3Data) in
        let w1 := with_decoder (set_decoder dec1) w in
        if negb (result =? 0)
        then Ret (true, mkLocals rp1 bl1 (pcmData s) (estimatedPCMSize s)
                                 (totalPCMSamples s) (firstFrame s) (infoOut s)) w1
        else
          let latched :=
            match infoOut s with
            | Some i =>
                if firstFrame s
                then (false, Some (mkInfo (samprate frameInfo) (nChans frameInfo)
                                          (bitrate frameInfo) (duration i) true))
                else (firstFrame s, infoOut s)
            | None => (firstFrame s, infoOut s)
            end in
          let samplesNeeded := size_wrap (outputSamps frameInfo) in
          let grow :=
            estimatedPCMSize s
            <? size_wrap (size_wrap (totalPCMSamples s + samplesNeeded) * 2) in
          let est1 := if grow then size_wrap (estimatedPCMSize s * 2)
                      else estimatedPCMSize s in
          let w2 := if grow then tick w1 else w1 in
          if grow && negb (malloc_ok env (clock w1))
          then Ret (false, mkLocals rp1 bl1 [] est1 (totalPCMSamples s)
                                    (fst latched) (snd latched)) w2
          else
            let block1 := if grow then resized (est1 / 2) (pcmData s)
                          else pcmData s in
            let '(dec2, result2, consumed, pcm) :=
              MP3Decode codec dec1 (window mp3Data rp1 (to_int bl1)) in
            let w3 := with_decoder (set_decoder dec2) w2 in
            if Z.of_nat (length block1)
               <? totalPCMSamples s + Z.of_nat (length pcm)
            then MemFault w3
            else
              let block2 := written block1 (totalPCMSamples s) pcm in
              let rp2 := rp1 + consumed in
              let bl2 := size_wrap (to_int bl1 - consumed) in
              if negb (result2 =? 0) then
                if result2 =? ERR_MP3_INDATA_UNDERFLOW codec
                then Ret (true, mkLocals rp2 bl2 block2 est1 (totalPCMSamples s)
                                         (fst latched) (snd latched)) w3
                else
                  decodeLoop fuel' mp3Data
                    (mkLocals (rp2 + 1)
                              (if 0 <? bl2 then size_wrap (bl2 - 1) else bl2)
                              block2 est1 (totalPCMSamples s)
                              (fst latched) (snd latched)) w3
              else
                decodeLoop fuel' mp3Data
                  (mkLocals rp2 bl2 block2 est1
                            (size_wrap (totalPCMSamples s + outputSamps frameInfo))
                            (fst latched) (snd latched)) w3
  end.

(** MP3Decoder::decodeInternal (105-203).  [mp3Data] is the block of
    [mp3Size] bytes; the output pointers are never null. *)
Definition decodeInternal (fuel : nat) (mp3Data : list Z) (out : Out) (w : W)
  : R (bool * Out) :=
  let mp3Size := Z.of_nat (length mp3Data) in
  let cleared := mkOut None 0 (info out) in
  let estimatedPCMSize := size_wrap (mp3Size * 10) in
  let w1 := tick w in
  if negb (malloc_ok env (clock w)) then Ret (false, cleared) w1
  else
    let s0 := mkLocals 0 mp3Size (repeat 0 (Z.to_nat (estimatedPCMSize / 2)))
                       estimatedPCMSize 0 true (info out) in
    do (ended, w2) <- decodeLoop fuel mp3Data s0 w1;
    let s := snd ended in
    if negb (fst ended) || (totalPCMSamples s =? 0)
    then Ret (false, mkOut None 0 (infoOut s)) w2
    else
      let w3 := tick w2 in
      let final :=
        if malloc_ok env (clock w2)
        then resized (size_wrap (totalPCMSamples s * 2) / 2) (pcmData s)
        else pcmData s in
      Ret (true, mkOut (Some final) (totalPCMSamples s) (infoOut s)) w3.

(** MP3Decoder::decodeData (97-103); [mp3Data] is never null. *)
Definition decodeData (fuel : nat) (mp3Data : list Z) (out : Out) (w : W)
  : R (bool * Out) :=
  if negb (_initialized (decoder w)) || (Z.of_nat (length mp3Data) =? 0)
  then Ret (false, out) w
  else decodeInternal fuel mp3Data out w.

(** MP3Decoder::decodeFile (57-95). *)
Definition decodeFile (fuel : nat) (filePath : String.string) (out : Out) (w : W)
  : R (bool * Out) :=
  if negb (_initialized (decoder w)) then Ret (false, out) w
  else
    let file := File_open fs filePath in
    if negb (isOpen file) then Ret (false, out) w
    else
      let fileSize := File_size file in
      if fileSize =? 0 then Ret (false, out) w
      else
        let w1 := tick w in
        if negb (malloc_ok env (clock w)) then Ret (false, out) w1
        else
          let mp3Data := fst (File_read file fileSize) in
          let bytesRead := Z.of_nat (length mp3Data) in
          if negb (bytesRead =? fileSize) then Ret (false, out) w1
          else decodeInternal fuel mp3Data out w1.
End WholeFile.

(** The read window of the decode loop stays inside the block of [len]
    bytes, or is empty. *)
Definition in_block (len : Z) (s : Decode.Locals) : Prop :=
  0 <= Decode.bytesLeft s < 2147483648
  /\ (Decode.bytesLeft s = 0
      \/ (0 <= Decode.readPtr s
          /\ Decode.readPtr s + Decode.bytesLeft s <= len)).

(** Once a header has been latched the record, if there is one, is valid,
    and samples are only counted after a header has been latched. *)
Definition info_latched (s : Decode.Locals) : Prop :=
  (Decode.firstFrame s = false ->
   forall i, Decode.infoOut s = Some i -> valid i = true)
  /\ (Decode.totalPCMSamples s <> 0 ->
      Decode.firstFrame s = false \/ Decode.infoOut s = None).

(** Two calls end the same way, with the same value and the same decoder
    object. *)
Definition same_outcome {D A} (r r' : Res D A) : Prop :=
  match r, r' with
  | Ret a w, Ret a' w' => a = a' /\ decoder w = decoder w'
  | MemFault w, MemFault w' => decoder w = decoder w'
  | OutOfFuel w, OutOfFuel w' => decoder w = decoder w'
  | _, _ => False
  end.

(** * Properties *)

#[local] Arguments size_wrap : simpl never.
#[local] Arguments to_int : simpl never.
#[local] Arguments Z.add : simpl never.
#[local] Arguments Z.sub : simpl never.
#[local] Arguments Z.mul : simpl never.
#[local] Arguments Z.of_nat : simpl never.
#[local] Arguments Z.to_nat : simpl never.

(** ** Arithmetic and lists *)

Lemma size_wrap_small (z : Z) : 0 <= z < 4294967296 -> size_wrap z = z.
Proof. intro H. unfold size_wrap. apply Z.mod_small. exact H. Qed.

Lemma to_int_small (z : Z) : 0 <= z < 2147483648 -> to_int z = z.
Proof.
  intro H. unfold to_int. rewrite size_wrap_small by lia.
  destruct (Z.ltb_spec z 2147483648); lia.
Qed.

Lemma firstn_then_rest {A} (s : nat) (l : list A) :
  firstn s l ++ skipn (length (firstn s l)) l = l.
Proof.
  rewrite length_firstn.
  destruct (Nat.le_gt_cases s (length l)) as [H | H].
  - rewrite Nat.min_l by exact H. apply firstn_skipn.
  - rewrite Nat.min_r by lia.
    rewrite firstn_all2 by lia. rewrite skipn_all. apply app_nil_r.
Qed.

Lemma forallb_firstn {A} (p : A -> bool) (k : nat) (l : list A) :
  forallb p l = true -> forallb p (firstn k l) = true.
Proof.
  revert k. induction l as [|a l IH]; intros k H.
  - rewrite firstn_nil. reflexivity.
  - destruct k; [reflexivity|].
    cbn [forallb firstn] in *. apply andb_true_iff in H. destruct H as [Ha Hl].
    rewrite Ha. cbn [andb]. apply IH. exact Hl.
Qed.

(** ** Volume scaling *)

(** A volume of 1.0 or more leaves every block as it is. *)
Lemma applyVolume_unit (samples : list Z) (n : Z) (v : float) :
  f32_leb f32_one v = true -> applyVolume samples n v = samples.
Proof.
  intro H. unfold applyVolume. rewrite H.
  destruct ((n =? 0) || f32_leb v f32_zero); reflexivity.
Qed.

(** A scaled block has the length of the block it was made from. *)
Lemma applyVolume_length (samples : list Z) (n : Z) (v : float) :
  length (applyVolume samples n v) = length samples.
Proof.
  unfold applyVolume.
  destruct ((n =? 0) || f32_leb v f32_zero); [reflexivity|].
  destruct (f32_leb f32_one v); [reflexivity|].
  rewrite length_app, length_map, <- length_app, firstn_skipn. reflexivity.
Qed.

(** C4 (code defect).  applyVolume returns at once when the volume is zero
    or negative, so a block scaled by 0.0 keeps every sample instead of
    becoming silence. *)
Theorem C4_zero_volume_keeps_samples (samples : list Z) (n : Z) (v : float) :
  f32_leb v f32_zero = true -> applyVolume samples n v = samples.
Proof.
  intro H. unfold applyVolume. rewrite H, orb_true_r. reflexivity.
Qed.

Lemma C4_zero_volume_witness :
  applyVolume [1000; -2000; 32767] 3 f32_zero = [1000; -2000; 32767]
  /\ applyVolume [1000; -2000; 32767] 3 f32_zero <> [0; 0; 0].
Proof.
  split.
  - apply (C4_zero_volume_keeps_samples [1000; -2000; 32767] 3 f32_zero).
    reflexivity.
  - rewrite (C4_zero_volume_keeps_samples [1000; -2000; 32767] 3 f32_zero)
      by reflexivity.
    discriminate.
Defined.

(** ** Refill *)

Lemma fillStreamBuffer_drained {D} (w : World D) :
  drained (_streamFile (decoder w)) -> fillStreamBuffer w = Ret false w.
Proof.
  intro H. unfold fillStreamBuffer.
  destruct H as [H | H]; rewrite H; simpl.
  - reflexivity.
  - rewrite orb_true_r. reflexivity.
Qed.


(** Refill keeps the window invariant: it never raises the fill level
    beyond the capacity. *)
Lemma fillStreamBuffer_invariant {D} (w : World D) :
  window_invariant (decoder w) ->
  window_invariant (decoder (world_of (fillStreamBuffer w))).
Proof.
  intro Inv. unfold fillStreamBuffer.
  destruct (negb (isOpen (_streamFile (decoder w)))
            || (File_available (_streamFile (decoder w)) =? 0)); [exact Inv|].
  destruct (_streamBuffer (decoder w)) as [buf|]; [|exact Inv].
  match goal with
  | |- context [match ?m with Some _ => _ | None => _ end] => destruct m as [buf1|]
  end; [|exact Inv].
  destruct (File_read (_streamFile (decoder w))
                      (size_wrap (STREAM_BUFFER_SIZE - _bytesLeft (decoder w))))
    as [chunk f1].
  set (n := Z.of_nat (length chunk)).
  assert (Hn : 0 <= n) by (subst n; lia).
  assert (Hbl : 0 <= _bytesLeft (decoder w)).
  { unfold window_invariant in Inv.
    destruct (_readPtr (decoder w)); lia. }
  destruct (Z.ltb_spec STREAM_BUFFER_SIZE (_bytesLeft (decoder w) + n));
    [exact Inv|].
  unfold STREAM_BUFFER_SIZE in *.
  destruct (n =? 0); unfold window_invariant, STREAM_BUFFER_SIZE; cbn.
  - lia.
  - rewrite size_wrap_small by lia. lia.
Qed.

(** ** The one-byte resynchronisation skip *)

Section Resync.
Context {D : Type} (codec : Codec D).
Variable callback : list Z -> Z -> MP3Info -> World D -> Res D bool.

(** With at least one unread byte the skip moves the read position by one,
    lowers the unread count by one, and touches nothing else of the
    buffer. *)
Lemma skipByte_exact (w : World D) (rp : Z) :
  _readPtr (decoder w) = Some rp ->
  0 < _bytesLeft (decoder w) < 4294967296 ->
  let w1 := skipByte w in
  _readPtr (decoder w1) = Some (rp + 1)
  /\ _bytesLeft (decoder w1) = _bytesLeft (decoder w) - 1
  /\ _streamBuffer (decoder w1) = _streamBuffer (decoder w)
  /\ _streamFile (decoder w1) = _streamFile (decoder w)
  /\ trace w1 = EvSkip (_bytesLeft (decoder w)) :: trace w.
Proof.
  intros Hrp Hbl. unfold skipByte.
  cbn [decoder with_decoder log trace set_bytesLeft set_readPtr
       _readPtr _bytesLeft _streamBuffer _streamFile].
  rewrite Hrp.
  rewrite size_wrap_small by lia.
  repeat split. unfold option_map. f_equal. lia.
Qed.

(** When the frame-info call or the decode call fails with an error other
    than underflow at a position found by the sync search, and at least
    one unread byte remains when that call returns (after a frame-info
    error this is always so), processStreamFrame moves the read position
    by exactly one byte past where the call left it, lowers the unread
    count by exactly one, leaves the buffer contents and the source
    untouched, and searches again; if the skip emptied the window it
    refills first and ends the stream when the refill fails.

    [unread] and [cursor] are the unread count and the read position when
    the failing call returns. *)
Lemma resync_skips_one_byte
        (fuel : nat) (w : World D) (buf : list Z) (rp : Z)
        (dec1 dec2 : D) (result result2 consumed : Z)
        (fi : MP3FrameInfo) (pcm : list Z) :
  let d := decoder w in
  let bl := _bytesLeft d in
  let offset := MP3FindSyncWord codec (window buf rp (to_int bl)) in
  let failedInfo := negb (result =? 0) in
  let unread := if failedInfo then bl - offset else bl - offset - consumed in
  let cursor := if failedInfo then rp + offset else rp + offset + consumed in
  _streaming d = true -> _initialized d = true ->
  _streamBuffer d = Some buf -> _readPtr d = Some rp ->
  bl < 2147483648 ->
  0 <= offset < bl ->
  MP3GetNextFrameInfo codec (_decoder d) (skipn (Z.to_nat (rp + offset)) buf)
  = (dec1, result, fi) ->
  MP3Decode codec dec1 (window buf (rp + offset) (bl - offset))
  = (dec2, result2, consumed, pcm) ->
  (result <> 0 \/ (result2 <> 0 /\ result2 <> ERR_MP3_INDATA_UNDERFLOW codec)) ->
  0 < unread <= bl - offset ->
  exists w1,
    processStreamFrame codec callback (S fuel) w
    = (if unread - 1 =? 0
       then refillAndRetry (processStreamFrame codec callback fuel) w1
       else processStreamFrame codec callback fuel w1)
    /\ _readPtr (decoder w1) = Some (cursor + 1)
    /\ _bytesLeft (decoder w1) = unread - 1
    /\ _streamBuffer (decoder w1) = Some buf
    /\ _streamFile (decoder w1) = _streamFile d
    /\ trace w1 = EvSkip unread :: trace w.
Proof.
  intros d bl offset failedInfo unread cursor
         Hs Hi Hbuf Hrp Hbl Hoff Hinfo Hdec Herr Hun.
  assert (Hti : to_int bl = bl) by (apply to_int_small; lia).
  assert (Hw : size_wrap (bl - offset) = bl - offset)
    by (apply size_wrap_small; lia).
  assert (Hti1 : to_int (bl - offset) = bl - offset)
    by (apply to_int_small; lia).
  cbn [processStreamFrame].
  fold d. rewrite Hs, Hi, Hbuf, Hrp. cbn [negb orb].
  fold bl. fold offset.
  destruct (Z.ltb_spec offset 0) as [Hneg | _]; [lia|].
  rewrite Hinfo, Hw.
  subst unread cursor failedInfo.
  destruct (Z.eqb_spec result 0) as [Hr0 | Hr0]; cbn [negb] in *.
  - (* the header parsed; the decode failed *)
    destruct Herr as [Herr | [Hr2 Hunder]]; [contradiction|].
    rewrite Hti1, Hdec.
    destruct (Z.eqb_spec result2 0) as [? | _]; [contradiction|].
    destruct (Z.eqb_spec result2 (ERR_MP3_INDATA_UNDERFLOW codec))
      as [? | _]; [contradiction|].
    cbn [negb]. unfold resync.
    match goal with
    | |- context [skipByte ?x] => set (w3 := x)
    end.
    assert (R3 : _readPtr (decoder w3) = Some (rp + offset + consumed))
      by (subst w3; cbn; destruct (_firstFrame (decoder w)); reflexivity).
    assert (B3 : _bytesLeft (decoder w3) = bl - offset - consumed).
    { subst w3. cbn. destruct (_firstFrame (decoder w)); cbn;
        apply size_wrap_small; lia. }
    assert (U3 : _streamBuffer (decoder w3) = Some buf)
      by (subst w3; cbn; destruct (_firstFrame (decoder w)); cbn; exact Hbuf).
    assert (F3 : _streamFile (decoder w3) = _streamFile d)
      by (subst w3; cbn; destruct (_firstFrame (decoder w)); reflexivity).
    assert (T3 : trace w3 = trace w)
      by (subst w3; cbn; destruct (_firstFrame (decoder w)); reflexivity).
    destruct (skipByte_exact w3 _ R3) as (A1 & A2 & A3 & A4 & A5);
      [rewrite B3; lia|].
    exists (skipByte w3).
    rewrite A1, A2, A3, A4, A5, B3, U3, F3, T3.
    repeat split.
  - (* the header did not parse *)
    unfold resync.
    match goal with
    | |- context [skipByte ?x] => set (w1 := x)
    end.
    assert (R1 : _readPtr (decoder w1) = Some (rp + offset)) by reflexivity.
    assert (B1 : _bytesLeft (decoder w1) = bl - offset) by reflexivity.
    destruct (skipByte_exact w1 _ R1) as (A1 & A2 & A3 & A4 & A5);
      [rewrite B1; lia|].
    exists (skipByte w1).
    rewrite A1, A2, A3, A4, A5, B1.
    repeat split. cbn. exact Hbuf.
Qed.
End Resync.

Lemma resync_skips_one_byte_example :
  exists w1,
    processStreamFrame TestCodec.codec (streamingCallback calmEnv) 3 resyncWorld
    = processStreamFrame TestCodec.codec (streamingCallback calmEnv) 2 w1
    /\ _readPtr (decoder w1) = Some 6
    /\ _bytesLeft (decoder w1) = 5
    /\ _streamBuffer (decoder w1) = Some resyncBuffer
    /\ _streamFile (decoder w1) = _streamFile (decoder resyncWorld)
    /\ trace w1 = EvSkip 6 :: trace resyncWorld.
Proof.
  refine (resync_skips_one_byte
            TestCodec.codec (streamingCallback calmEnv) 2 resyncWorld
            resyncBuffer 0 false true 0 (-2) 5
            (TestCodec.frameInfo 229 2) [] _ _ _ _ _ _ _ _ _ _);
    try (vm_compute; reflexivity).
  - vm_compute. split; [discriminate | reflexivity].
  - right. vm_compute. split; discriminate.
  - vm_compute. split; [reflexivity | discriminate].
Qed.

(** C5 (code defect).  The one-byte skip of the streaming path is not
    guarded: [_readPtr++; _bytesLeft--] runs even when no unread byte is
    left.  The frame of [reservoirFrame] is found by the sync search and
    its header parses; the decode call consumes its five bytes and reports
    an error other than underflow, so that processStreamFrame goes on with
    the resynchronisation from the state [afterFailedDecode], in which the
    unread count is 0 and the read position stands behind the last valid
    byte.  The skip takes the count from 0 to 2^32 - 1 and the read
    position from 5 to 6: the count does not decrease by one, and the
    position leaves the bytes that were read. *)
Theorem C5_skip_on_empty_window_wraps_count :
  processStreamFrame TestCodec.codec (streamingCallback calmEnv) 3 reservoirWorld
  = resync (processStreamFrame TestCodec.codec (streamingCallback calmEnv) 2)
           afterFailedDecode
  /\ _bytesLeft (decoder afterFailedDecode) = 0
  /\ _readPtr (decoder afterFailedDecode) = Some 5
  /\ _bytesLeft (decoder (skipByte afterFailedDecode)) = 4294967295
  /\ _readPtr (decoder (skipByte afterFailedDecode)) = Some 6
  /\ ~ C5_spec_says afterFailedDecode.
Proof.
  assert (E0 : _bytesLeft (decoder afterFailedDecode) = 0)
    by (vm_compute; reflexivity).
  assert (E1 : _bytesLeft (decoder (skipByte afterFailedDecode)) = 4294967295)
    by (vm_compute; reflexivity).
  split; [vm_compute; reflexivity|].
  split; [exact E0|]. split; [vm_compute; reflexivity|].
  split; [exact E1|]. split; [vm_compute; reflexivity|].
  unfold C5_spec_says. cbv zeta. intros (_ & H & _).
  rewrite E0, E1 in H. discriminate H.
Qed.

(** ** The window invariant *)

(** C10 (code defect).  The frame of [reservoirFrame] fills the window
    exactly; its header parses, the decode call consumes it and reports an
    error, and the one-byte skip then runs with no unread byte left: the
    count wraps to 2^32 - 1 and the read position passes the end of the
    valid bytes. *)
Theorem C10_skip_runs_on_empty_window :
  let r := processStreamFrame TestCodec.codec (streamingCallback calmEnv) 3
                              reservoirWorld in
  _bytesLeft (decoder reservoirWorld) = 5
  /\ _readPtr (decoder reservoirWorld) = Some 0
  /\ (exists w, r = Ret false w)
  /\ trace (world_of r) = [EvSkip 0]
  /\ _bytesLeft (decoder (world_of r)) = 4294967295
  /\ _readPtr (decoder (world_of r)) = Some 6.
Proof.
  cbv zeta. repeat split; try (vm_compute; reflexivity).
  eexists. vm_compute. reflexivity.
Qed.

(** C6 (code defect).  The same run breaks the window invariant, which
    holds when the stream starts: afterwards the unread count exceeds the
    capacity. *)
Theorem C6_invariant_broken_by_skip_on_empty_window :
  let r := processStreamFrame TestCodec.codec (streamingCallback calmEnv) 3
                              reservoirWorld in
  window_invariant (decoder reservoirWorld)
  /\ ~ window_invariant (decoder (world_of r))
  /\ STREAM_BUFFER_SIZE < _bytesLeft (decoder (world_of r)).
Proof.
  intro r.
  assert (E0 : _readPtr (decoder reservoirWorld) = Some 0)
    by (vm_compute; reflexivity).
  assert (E1 : _bytesLeft (decoder reservoirWorld) = 5)
    by (vm_compute; reflexivity).
  assert (E2 : _readPtr (decoder (world_of r)) = Some 6)
    by (vm_compute; reflexivity).
  assert (E3 : _bytesLeft (decoder (world_of r)) = 4294967295)
    by (vm_compute; reflexivity).
  unfold window_invariant, STREAM_BUFFER_SIZE.
  rewrite E0, E1, E2, E3. lia.
Qed.

(** ** A stream without any sync pattern *)

Lemma pending_length (f : File) :
  Z.of_nat (length (pending f)) = File_available f.
Proof.
  unfold pending, File_available.
  destruct (isOpen f); [|reflexivity].
  rewrite length_skipn. reflexivity.
Qed.

Lemma available_consumed (f : File) :
  isOpen f = true -> File_available f = 0 -> source_consumed f.
Proof.
  intros Ho Ha. unfold File_available in Ha. rewrite Ho in Ha.
  unfold source_consumed. lia.
Qed.

Section NoSync.
Context {D : Type} (codec : Codec D).

Lemma unread_length (w : World D) (buf : list Z) (rp : Z) :
  streaming_at w buf rp ->
  length (unread (decoder w)) = Z.to_nat (_bytesLeft (decoder w)).
Proof.
  intros (_ & _ & _ & Hb & Hl & Hr & H0 & H1 & H2).
  unfold unread, window. rewrite Hb, Hr.
  rewrite length_firstn, length_skipn.
  unfold STREAM_BUFFER_SIZE in *. lia.
Qed.

Lemma unread_is_prefix (w : World D) (buf : list Z) (rp : Z) :
  streaming_at w buf rp ->
  unread (decoder w)
  = firstn (Z.to_nat (_bytesLeft (decoder w)))
           (unread (decoder w) ++ pending (_streamFile (decoder w))).
Proof.
  intro H. rewrite firstn_app, <- (unread_length w buf rp H).
  rewrite firstn_all, Nat.sub_diag, firstn_O, app_nil_r. reflexivity.
Qed.

(** What a refill does to a stream in progress: it leaves the trace
    alone; when it returns false the source is where it was, and is at its
    end unless the window is full; when it returns true the window starts
    at the block, holds the old unread bytes followed by new ones, and
    either is full or has taken all the source had. *)
Lemma fillStreamBuffer_streaming (w : World D) (buf : list Z) (rp : Z) :
  streaming_at w buf rp ->
  exists b w',
    fillStreamBuffer w = Ret b w'
    /\ trace w' = trace w
    /\ isOpen (_streamFile (decoder w')) = true
    /\ (exists buf' rp', streaming_at w' buf' rp')
    /\ (b = false ->
        File_available (_streamFile (decoder w'))
        = File_available (_streamFile (decoder w))
        /\ (File_available (_streamFile (decoder w)) = 0
            \/ _bytesLeft (decoder w) = STREAM_BUFFER_SIZE))
    /\ (b = true ->
        (exists buf', streaming_at w' buf' 0)
        /\ unread (decoder w') ++ pending (_streamFile (decoder w'))
           = unread (decoder w) ++ pending (_streamFile (decoder w))
        /\ (_bytesLeft (decoder w') = STREAM_BUFFER_SIZE
            \/ File_available (_streamFile (decoder w')) = 0)
        /\ _bytesLeft (decoder w) < _bytesLeft (decoder w')).
Proof.
  intros (Hs & Hi & Hopen & Hb & Hl & Hr & H0 & H1 & H2).
  unfold STREAM_BUFFER_SIZE in *.
  unfold fillStreamBuffer. rewrite Hopen. cbn [negb orb].
  destruct (Z.eqb_spec (File_available (_streamFile (decoder w))) 0) as [Ha | Ha].
  { exists false, w. split; [reflexivity|]. split; [reflexivity|].
    split; [exact Hopen|].
    split; [exists buf, rp; unfold streaming_at, STREAM_BUFFER_SIZE;
            repeat split; assumption|].
    split; [intros _; split; [reflexivity | left; exact Ha] | discriminate]. }
  rewrite Hb, Hr.
  set (bl := _bytesLeft (decoder w)) in *.
  set (win := window buf rp bl).
  assert (Hwin : length win = Z.to_nat bl).
  { subst win. unfold window. rewrite length_firstn, length_skipn. lia. }
  (* the block after the move *)
  assert (Hmoved :
            exists buf1,
              (if (0 <? bl) && negb (rp =? 0)
               then if (0 <=? rp) && (rp + bl <=? STREAM_BUFFER_SIZE)
                    then Some (firstn (Z.to_nat bl) (skipn (Z.to_nat rp) buf)
                               ++ skipn (Z.to_nat bl) buf)
                    else None
               else Some buf) = Some buf1
              /\ length buf1 = length buf
              /\ firstn (Z.to_nat bl) buf1 = win).
  { unfold STREAM_BUFFER_SIZE.
    destruct (Z.ltb_spec 0 bl) as [Hpos | Hzero]; cbn [andb].
    - destruct (Z.eqb_spec rp 0) as [Hrp0 | Hrp0]; cbn [negb].
      + exists buf. repeat split. subst win rp. unfold window.
        change (Z.to_nat 0) with 0%nat. rewrite skipn_O. reflexivity.
      + destruct (Z.leb_spec 0 rp); [|lia].
        destruct (Z.leb_spec (rp + bl) 8192); [|lia]. cbn [andb].
        eexists. split; [reflexivity|]. fold (window buf rp bl). fold win.
        split.
        * rewrite length_app, length_skipn. lia.
        * rewrite firstn_app, Hwin, Nat.sub_diag, firstn_O, app_nil_r.
          apply firstn_all2. lia.
    - exists buf. repeat split. subst win. unfold window.
      assert (Z.to_nat bl = 0%nat) as -> by lia. reflexivity. }
  destruct Hmoved as (buf1 & -> & Hl1 & Hf1).
  unfold STREAM_BUFFER_SIZE.
  rewrite size_wrap_small by lia.
  unfold File_read. rewrite Hopen.
  set (f := _streamFile (decoder w)) in *.
  set (pend := skipn (position f) (contents f)).
  set (chunk := firstn (Z.to_nat (8192 - bl)) pend).
  assert (Hpend : pending f = pend) by (unfold pending; rewrite Hopen; reflexivity).
  assert (Hav : File_available f = Z.of_nat (length pend))
    by (rewrite <- Hpend; symmetry; apply pending_length).
  assert (Hchunk : length chunk = Nat.min (Z.to_nat (8192 - bl)) (length pend))
    by (subst chunk; apply length_firstn).
  destruct (Z.ltb_spec 8192 (bl + Z.of_nat (length chunk))); [lia|].
  destruct (Z.eqb_spec (Z.of_nat (length chunk)) 0) as [Hn | Hn].
  - (* nothing was read: the window is full *)
    exists false. eexists. split; [reflexivity|].
    split; [reflexivity|]. split; [reflexivity|].
    split.
    { eexists. exists 0. unfold streaming_at.
      cbn [decoder with_decoder set_bytesLeft set_streamFile set_streamBuffer
           set_readPtr _bytesLeft _streamFile _streamBuffer _readPtr
           _streaming _initialized isOpen].
      fold bl. unfold STREAM_BUFFER_SIZE.
      repeat split; try assumption; try lia.
      rewrite !length_app, length_firstn, length_skipn. lia. }
    split; [|discriminate]. intros _. split.
    + cbn. unfold File_available. cbn.
      assert (length chunk = 0%nat) as -> by lia.
      rewrite Nat.add_0_r. fold f. rewrite Hopen. reflexivity.
    + right. lia.
  - set (buf2 := firstn (Z.to_nat bl) buf1 ++ chunk
                 ++ skipn (Z.to_nat (bl + Z.of_nat (length chunk))) buf1).
    assert (Hl2 : length buf2 = length buf).
    { subst buf2. rewrite !length_app, length_firstn, length_skipn. lia. }
    assert (Hat2 : streaming_at
                     (with_decoder
                        (fun _ => set_bytesLeft
                                    (size_wrap (bl + Z.of_nat (length chunk)))
                                    (set_streamFile
                                       (mkFile true (contents f)
                                               (position f + length chunk))
                                       (set_streamBuffer (Some buf2)
                                          (set_readPtr (Some 0) (decoder w)))))
                        w) buf2 0).
    { unfold streaming_at.
      cbn [decoder with_decoder set_bytesLeft set_streamFile set_streamBuffer
           set_readPtr _bytesLeft _streamFile _streamBuffer _readPtr
           _streaming _initialized isOpen].
      rewrite size_wrap_small by lia.
      unfold STREAM_BUFFER_SIZE. repeat split; try assumption; lia. }
    exists true. eexists. split; [reflexivity|].
    split; [reflexivity|]. split; [reflexivity|].
    split; [exists buf2, 0; exact Hat2|].
    split; [discriminate|].
    intros _.
    cbn [decoder with_decoder set_bytesLeft set_streamFile set_streamBuffer
         set_readPtr _bytesLeft _streamFile _streamBuffer _readPtr
         _streaming _initialized].
    rewrite size_wrap_small by lia.
    assert (Hu2 : window buf2 0 (bl + Z.of_nat (length chunk)) = win ++ chunk).
    { unfold window. change (Z.to_nat 0) with 0%nat. cbn [skipn].
      subst buf2. rewrite Hf1.
      rewrite app_assoc.
      rewrite firstn_app.
      assert (Z.to_nat (bl + Z.of_nat (length chunk))
              = length (win ++ chunk)) as -> by (rewrite length_app; lia).
      rewrite firstn_all, Nat.sub_diag, firstn_O. apply app_nil_r. }
    split; [|split; [|split]].
    + exists buf2.
      unfold streaming_at in Hat2 |- *.
      cbn [decoder with_decoder set_bytesLeft set_streamFile set_streamBuffer
           set_readPtr _bytesLeft _streamFile _streamBuffer _readPtr
           _streaming _initialized isOpen] in Hat2 |- *.
      rewrite size_wrap_small in Hat2 by lia. exact Hat2.
    + unfold unread.
      cbn [set_bytesLeft set_streamFile set_streamBuffer
           set_readPtr _bytesLeft _streamFile _streamBuffer _readPtr].
      rewrite Hu2. fold win. rewrite Hpend.
      unfold pending. cbn [isOpen position contents].
      rewrite Hb, Hr. fold bl. fold win.
      rewrite <- app_assoc. f_equal.
      rewrite Nat.add_comm, <- skipn_skipn. fold pend.
      apply firstn_then_rest.
    + destruct (Nat.le_gt_cases (Z.to_nat (8192 - bl)) (length pend)).
      * left. unfold STREAM_BUFFER_SIZE. lia.
      * right. unfold File_available. cbn [isOpen position contents].
        fold pend in Hav.
        assert (length (contents f) - position f = length pend)%nat
          by (subst pend; rewrite length_skipn; reflexivity).
        lia.
    + lia.
Qed.

(** A file without a sync pattern does not pass the probe. *)
Lemma getFileInfo_no_sync (env : Env) (fs : SPIFFS) (filePath : String.string)
      (bytes : list Z) (w : World D) :
  fs filePath = Some bytes -> no_sync codec bytes ->
  exists w', getFileInfo codec env fs filePath w = Ret None w'
             /\ trace w' = trace w
             /\ decoder w' = decoder w.
Proof.
  intros Hfs Hno. unfold getFileInfo, File_open. rewrite Hfs.
  cbn [isOpen negb].
  destruct (negb (_initialized (decoder w))); [exists w; repeat split|].
  destruct (File_size (mkFile true bytes 0) =? 0); [exists w; repeat split|].
  destruct (negb (malloc_ok env (clock w))); [eexists; repeat split|].
  match goal with |- context [File_read ?f ?n] =>
    assert (Hbuf : fst (File_read f n) = firstn (Z.to_nat n) bytes)
      by reflexivity;
    rewrite Hbuf
  end.
  match goal with |- context [Z.of_nat (length ?l) =? 0] =>
    destruct (Z.of_nat (length l) =? 0)
  end; [eexists; repeat split|].
  match goal with |- context [MP3FindSyncWord codec ?x <? 0] =>
    destruct (Z.ltb_spec (MP3FindSyncWord codec x) 0) as [_ | Hge]
  end; [eexists; repeat split|].
  exfalso.
  match type of Hge with
  | 0 <= MP3FindSyncWord codec (firstn ?k bytes) => specialize (Hno k)
  end.
  lia.
Qed.

Variable callback : list Z -> Z -> MP3Info -> World D -> Res D bool.

(** With no sync pattern in the unread window, a call refills and tries
    again, or ends the stream when the refill fails. *)
Lemma processStreamFrame_no_sync (fuel : nat) (w : World D) (buf : list Z) (rp : Z) :
  streaming_at w buf rp ->
  MP3FindSyncWord codec (unread (decoder w)) < 0 ->
  processStreamFrame codec callback (S fuel) w
  = refillAndRetry (processStreamFrame codec callback fuel) w.
Proof.
  intros (Hs & Hi & _ & Hb & Hl & Hr & H0 & H1 & H2) Hno.
  unfold STREAM_BUFFER_SIZE in *.
  cbn [processStreamFrame]. rewrite Hs, Hi, Hb, Hr. cbn [negb orb].
  rewrite to_int_small by lia.
  unfold unread in Hno. rewrite Hb, Hr in Hno.
  destruct (Z.ltb_spec
              (MP3FindSyncWord codec (window buf rp (_bytesLeft (decoder w)))) 0);
    [reflexivity | lia].
Qed.

(** From a stream in progress whose unread window and remaining source
    hold no sync pattern, two nested calls are enough. *)
Lemma processStreamFrame_no_sync_ends
      (fuel : nat) (w : World D) (buf : list Z) (rp : Z) :
  streaming_at w buf rp ->
  no_sync codec (unread (decoder w) ++ pending (_streamFile (decoder w))) ->
  exists w',
    processStreamFrame codec callback (S (S fuel)) w = Ret false w'
    /\ trace w' = trace w
    /\ (File_available (_streamFile (decoder w))
        <= STREAM_BUFFER_SIZE - _bytesLeft (decoder w) ->
        source_consumed (_streamFile (decoder w'))).
Proof.
  intros Hat Hno.
  rewrite (processStreamFrame_no_sync _ w buf rp Hat).
  2:{ rewrite (unread_is_prefix w buf rp Hat). apply Hno. }
  unfold refillAndRetry.
  destruct (fillStreamBuffer_streaming w buf rp Hat)
    as (b & w1 & E1 & T1 & O1 & _ & Hfalse & Htrue).
  rewrite E1. cbn [bind].
  destruct b.
  - (* bytes were added: the second call *)
    destruct (Htrue eq_refl) as ((buf1 & Hat1) & Hstream & Hfull & Hgrow).
    rewrite (processStreamFrame_no_sync _ w1 buf1 0 Hat1).
    2:{ rewrite (unread_is_prefix w1 buf1 0 Hat1), Hstream. apply Hno. }
    unfold refillAndRetry.
    destruct (fillStreamBuffer_streaming w1 buf1 0 Hat1)
      as (b2 & w2 & E2 & T2 & O2 & _ & Hfalse2 & Htrue2).
    rewrite E2. cbn [bind].
    destruct b2.
    + (* a full window takes no more, a drained source gives no more *)
      exfalso.
      destruct (Htrue2 eq_refl) as ((buf2 & Hat2) & _ & _ & Hgrow2).
      destruct Hfull as [Hfull | Hfull].
      * destruct Hat2 as (_ & _ & _ & _ & _ & _ & ? & ? & ?). lia.
      * rewrite (fillStreamBuffer_drained w1 (or_intror Hfull)) in E2.
        discriminate E2.
    + exists w2. split; [reflexivity|]. split; [congruence|].
      intro Hfit. apply available_consumed; [exact O2|].
      destruct (Hfalse2 eq_refl) as (Hsame & _). rewrite Hsame.
      destruct Hfull as [Hfull | Hfull]; [|exact Hfull].
      (* the window became full: then the source fitted exactly *)
      assert (Hlen : length (unread (decoder w1)
                             ++ pending (_streamFile (decoder w1)))
                     = length (unread (decoder w)
                               ++ pending (_streamFile (decoder w))))
        by (rewrite Hstream; reflexivity).
      rewrite !length_app in Hlen.
      rewrite (unread_length w buf rp Hat),
              (unread_length w1 buf1 0 Hat1) in Hlen.
      pose proof (pending_length (_streamFile (decoder w))).
      pose proof (pending_length (_streamFile (decoder w1))).
      destruct Hat as (_ & _ & _ & _ & _ & _ & ? & ? & ?).
      lia.
  - exists w1. split; [reflexivity|]. split; [exact T1|].
    intro Hfit. apply available_consumed; [exact O1|].
    destruct (Hfalse eq_refl) as (Hsame & Hwhy). rewrite Hsame.
    destruct Hwhy as [Hwhy | Hwhy]; [exact Hwhy|].
    pose proof (pending_length (_streamFile (decoder w))). lia.
Qed.
End NoSync.

(** A refill into a full window changes nothing that the stream reads:
    the zero-byte read is answered with false. *)
Lemma fillStreamBuffer_full {D} (w : World D) (buf : list Z) (rp : Z) :
  streaming_at w buf rp ->
  _bytesLeft (decoder w) = STREAM_BUFFER_SIZE ->
  exists w', fillStreamBuffer w = Ret false w'
             /\ unread (decoder w') = unread (decoder w)
             /\ _streamFile (decoder w') = _streamFile (decoder w)
             /\ _bytesLeft (decoder w') = _bytesLeft (decoder w)
             /\ player w' = player w /\ trace w' = trace w
             /\ _readPtr (decoder w') = _readPtr (decoder w).
Proof.
  intros (Hs & Hi & Hopen & Hb & Hl & Hr & H0 & H1 & H2) Hfull.
  unfold STREAM_BUFFER_SIZE in *.
  assert (rp = 0) by lia. subst rp.
  destruct (Z.eqb_spec (File_available (_streamFile (decoder w))) 0) as [Ha | Ha].
  { exists w. rewrite (fillStreamBuffer_drained w (or_intror Ha)).
    repeat split; reflexivity. }
  unfold fillStreamBuffer. rewrite Hopen. cbn [negb orb].
  destruct (Z.eqb_spec (File_available (_streamFile (decoder w))) 0); [contradiction|].
  rewrite Hb, Hr, Hfull. cbn [Z.ltb Z.eqb negb andb].
  change (0 <? 8192) with true. change (0 =? 0) with true. cbn [negb andb].
  unfold STREAM_BUFFER_SIZE.
  change (size_wrap (8192 - 8192)) with 0.
  unfold File_read. rewrite Hopen. change (Z.to_nat 0) with 0%nat.
  cbn [firstn length]. change (Z.of_nat 0) with 0.
  change (8192 <? 8192 + 0) with false. change (0 =? 0) with true.
  cbv iota.
  eexists. split; [reflexivity|].
  cbn [decoder with_decoder player trace].
  split; [|split; [|split; [|split; [|split]]]];
    [| | | reflexivity | reflexivity |].
  - unfold unread.
    cbn [set_streamFile set_streamBuffer set_readPtr
         _streamBuffer _readPtr _bytesLeft].
    rewrite Hb, Hr, Hfull. f_equal.
    change (8192 + 0) with 8192. cbn [app].
    rewrite (skipn_all2 buf) by lia.
    rewrite app_nil_r. apply firstn_all2. lia.
  - cbn [set_streamFile _streamFile]. rewrite Nat.add_0_r.
    destruct (_streamFile (decoder w)) as [o c p]. cbn in Hopen |- *.
    rewrite Hopen. reflexivity.
  - cbn. exact Hfull.
  - reflexivity.
Qed.



(** The probe looks at no byte beyond the first 4096: two files of the
    same size that agree on their first 4096 bytes get the same answer. *)
Lemma getFileInfo_reads_4096 {D} (codec : Codec D) (env : Env)
      (fs fs' : SPIFFS) (filePath : String.string)
      (bytes bytes' : list Z) (w : World D) :
  fs filePath = Some bytes -> fs' filePath = Some bytes' ->
  length bytes' = length bytes ->
  firstn (Z.to_nat 4096) bytes' = firstn (Z.to_nat 4096) bytes ->
  getFileInfo codec env fs' filePath w = getFileInfo codec env fs filePath w.
Proof.
  intros Hfs Hfs' Hlen Hpre.
  unfold getFileInfo, File_open. rewrite Hfs, Hfs'.
  unfold File_size, File_read. cbn [isOpen contents position negb fst skipn].
  rewrite Hlen.
  set (n := Z.to_nat (Z.min (Z.of_nat (length bytes)) 4096)).
  assert (E : firstn n bytes' = firstn n bytes).
  { assert (Hn : (n <= Z.to_nat 4096)%nat) by (subst n; lia).
    rewrite <- (Nat.min_l n (Z.to_nat 4096) Hn), <- !firstn_firstn, Hpre.
    reflexivity. }
  rewrite E. reflexivity.
Qed.

Lemma startStreaming_no_sync {D} (codec : Codec D) (env : Env) (fs : SPIFFS)
      (filePath : String.string) (bytes : list Z) (w : World D) :
  fs filePath = Some bytes -> no_sync codec bytes ->
  _initialized (decoder w) = true -> _streaming (decoder w) = false ->
  exists w', startStreaming codec env fs filePath w = Ret false w'
             /\ trace w' = trace w
             /\ _streaming (decoder w') = false
             /\ _streamFile (decoder w') = mkFile false bytes 0.
Proof.
  intros Hfs Hno Hi Hs. unfold startStreaming.
  rewrite Hi, Hs. cbn [negb orb].
  assert (Ho : File_open fs filePath = mkFile true bytes 0)
    by (unfold File_open; rewrite Hfs; reflexivity).
  rewrite Ho. cbn [isOpen negb].
  destruct (negb (malloc_ok env _)).
  { eexists. split; [reflexivity|]. cbn. repeat split. exact Hs. }
  match goal with |- context [getFileInfo codec env fs filePath ?x] =>
    destruct (getFileInfo_no_sync codec env fs filePath bytes x Hfs Hno)
      as (w4 & -> & T4 & D4)
  end.
  cbn [bind]. eexists. split; [reflexivity|].
  cbn [trace decoder with_decoder]. rewrite D4.
  split; [exact T4|]. cbn. split; [exact Hs | reflexivity].
Qed.

(** C2 (amended).  A bitstream without any sync pattern is refused before
    the frame loop is entered.  The probe (getFileInfo) finds no frame in
    it and looks at no byte beyond the first 4096: two files of the same
    size that agree on their first 4096 bytes get the same answer.
    startStreaming on an initialised decoder returns false: nothing is
    added to the trace (no frame is emitted, no byte is skipped), the
    stream flag stays down, and the stream handle is closed at position 0,
    no byte having been read through it.  Every processStreamFrame call
    made afterwards returns false at once, whatever the budget. *)
Theorem C2_no_sync_stream_is_refused {D} (codec : Codec D)
        (callback : list Z -> Z -> MP3Info -> World D -> Res D bool)
        (env : Env) (fs : SPIFFS) (filePath : String.string)
        (bytes : list Z) (w : World D) :
  fs filePath = Some bytes -> no_sync codec bytes ->
  _initialized (decoder w) = true -> _streaming (decoder w) = false ->
  (exists w',
      startStreaming codec env fs filePath w = Ret false w'
      /\ trace w' = trace w
      /\ _streaming (decoder w') = false
      /\ _streamFile (decoder w') = mkFile false bytes 0
      /\ forall fuel,
          processStreamFrame codec callback (S fuel) w' = Ret false w')
  /\ (forall w0 : World D,
         exists w1, getFileInfo codec env fs filePath w0 = Ret None w1
                    /\ trace w1 = trace w0 /\ decoder w1 = decoder w0)
  /\ (forall (w0 : World D) (fs' : SPIFFS) (bytes' : list Z),
         fs' filePath = Some bytes' ->
         length bytes' = length bytes ->
         firstn (Z.to_nat 4096) bytes' = firstn (Z.to_nat 4096) bytes ->
         getFileInfo codec env fs' filePath w0
         = getFileInfo codec env fs filePath w0).
Proof.
  intros Hfs Hno Hi Hs. split; [|split].
  2:{ intro w0. apply (getFileInfo_no_sync codec env fs filePath bytes w0 Hfs Hno). }
  - destruct (startStreaming_no_sync codec env fs filePath bytes w Hfs Hno Hi Hs)
      as (w' & E & T & S' & F).
    exists w'. split; [exact E|]. split; [exact T|]. split; [exact S'|].
    split; [exact F|].
    intro fuel. cbn [processStreamFrame]. rewrite S'. reflexivity.
  - intros w0 fs' bytes' Hfs' Hlen Hpre.
    apply (getFileInfo_reads_4096 codec env fs fs' filePath bytes bytes');
      assumption.
Qed.

(** *** Concrete streams without a sync pattern *)

Lemma TestCodec_findSync_none (l : list Z) :
  forallb (fun a => negb (Z.land a 255 =? 255)) l = true ->
  forall i, TestCodec.findSync l i = -1.
Proof.
  induction l as [|a l IH]; intros H i; [reflexivity|].
  cbn [forallb] in H. apply andb_true_iff in H. destruct H as [Ha Hl].
  cbn [TestCodec.findSync].
  destruct l as [|b l']; [reflexivity|].
  apply negb_true_iff in Ha. rewrite Ha. cbn [andb].
  apply IH. exact Hl.
Qed.

Lemma TestCodec_no_sync (stream : list Z) :
  forallb (fun a => negb (Z.land a 255 =? 255)) stream = true ->
  no_sync TestCodec.codec stream.
Proof.
  intros H k. cbn [MP3FindSyncWord TestCodec.codec].
  rewrite TestCodec_findSync_none; [lia|].
  apply forallb_firstn. exact H.
Qed.

Lemma C2_no_sync_witness :
  (exists w',
      startStreaming TestCodec.codec calmEnv (oneFile longNoSyncFile) path
                     playingWorld = Ret false w'
      /\ trace w' = trace playingWorld
      /\ _streaming (decoder w') = false
      /\ _streamFile (decoder w') = mkFile false longNoSyncFile 0
      /\ forall fuel,
          processStreamFrame TestCodec.codec (streamingCallback calmEnv)
                             (S fuel) w' = Ret false w')
  /\ (forall w0 : World bool,
         exists w1,
           getFileInfo TestCodec.codec calmEnv (oneFile longNoSyncFile) path w0
           = Ret None w1
           /\ trace w1 = trace w0 /\ decoder w1 = decoder w0)
  /\ (forall (w0 : World bool) (fs' : SPIFFS) (bytes' : list Z),
         fs' path = Some bytes' ->
         length bytes' = length longNoSyncFile ->
         firstn (Z.to_nat 4096) bytes' = firstn (Z.to_nat 4096) longNoSyncFile ->
         getFileInfo TestCodec.codec calmEnv fs' path w0
         = getFileInfo TestCodec.codec calmEnv (oneFile longNoSyncFile) path w0).
Proof.
  apply (C2_no_sync_stream_is_refused
           TestCodec.codec (streamingCallback calmEnv) calmEnv
           (oneFile longNoSyncFile) path longNoSyncFile playingWorld).
  - reflexivity.
  - apply TestCodec_no_sync. vm_compute. reflexivity.
  - reflexivity.
  - reflexivity.
Defined.

(** The file of 5000 bytes without a sync pattern is refused; the probe
    has looked at its first 4096 bytes only (any other 904 bytes behind
    them give the same answer), and the stream handle is closed at
    position 0: the 904 bytes at the end are never read. *)
Lemma C2_counterexample :
  no_sync TestCodec.codec longNoSyncFile
  /\ Z.of_nat (length longNoSyncFile) = 5000
  /\ startStreaming TestCodec.codec calmEnv (oneFile longNoSyncFile) path
                    playingWorld = Ret false refusedWorld
  /\ _streamFile (decoder refusedWorld) = mkFile false longNoSyncFile 0
  /\ (forall (w0 : World bool) (tail : list Z),
         Z.of_nat (length tail) = 904 ->
         getFileInfo TestCodec.codec calmEnv
                     (oneFile (repeat 0 (Z.to_nat 4096) ++ tail)) path w0
         = getFileInfo TestCodec.codec calmEnv (oneFile longNoSyncFile) path w0)
  /\ ~ C2_spec_says TestCodec.codec (streamingCallback calmEnv) refusedWorld.
Proof.
  split; [apply TestCodec_no_sync; vm_compute; reflexivity|].
  split; [vm_compute; reflexivity|].
  split; [vm_compute; reflexivity|].
  split; [vm_compute; reflexivity|].
  split.
  - intros w0 tail Htail.
    apply (getFileInfo_reads_4096 TestCodec.codec calmEnv
             (oneFile longNoSyncFile) (oneFile (repeat 0 (Z.to_nat 4096) ++ tail))
             path longNoSyncFile (repeat 0 (Z.to_nat 4096) ++ tail));
      [reflexivity | reflexivity | |].
    + unfold longNoSyncFile. rewrite length_app, !repeat_length. lia.
    + rewrite firstn_app, repeat_length, Nat.sub_diag, firstn_O, app_nil_r.
      rewrite firstn_all2 by (rewrite repeat_length; lia).
      vm_compute. reflexivity.
  - assert (E : forall fuel,
               processStreamFrame TestCodec.codec (streamingCallback calmEnv)
                                  (S fuel) refusedWorld = Ret false refusedWorld)
      by (intro fuel; vm_compute; reflexivity).
    assert (P : position (_streamFile (decoder refusedWorld)) = 0%nat)
      by (vm_compute; reflexivity).
    assert (L : Z.of_nat (length (contents (_streamFile (decoder refusedWorld))))
                = 5000)
      by (vm_compute; reflexivity).
    intros (fuel & w' & H & _ & C).
    destruct fuel as [|fuel]; [discriminate H|].
    rewrite E in H. injection H as <-.
    unfold source_consumed in C. rewrite P in C. lia.
Qed.

(** ** Stream metadata *)

Section Metadata.
Context {D : Type} (codec : Codec D) (env : Env).

Lemma stopStreaming_meta (d : MP3Decoder.t D) :
  _streamInfo (stopStreaming d) = _streamInfo d
  /\ _firstFrame (stopStreaming d) = _firstFrame d.
Proof.
  unfold stopStreaming.
  destruct (_streaming d); cbn; [|split; reflexivity].
  destruct (isOpen (_streamFile d)); split; reflexivity.
Qed.

Lemma with_stopStreaming_meta (w : World D) :
  meta (with_decoder stopStreaming w) = meta w.
Proof.
  unfold meta. cbn. destruct (stopStreaming_meta (decoder w)) as [-> ->].
  reflexivity.
Qed.

Lemma fillStreamBuffer_meta (w : World D) :
  meta (world_of (fillStreamBuffer w)) = meta w.
Proof.
  unfold fillStreamBuffer.
  repeat match goal with
         | |- context [if ?c then _ else _] => destruct c
         | |- context [match ?o with Some _ => _ | None => _ end] => destruct o
         | |- context [let (_, _) := ?p in _] => destruct p
         end; reflexivity.
Qed.

Lemma stop_meta (w : World D) : meta (stop w) = meta w.
Proof.
  unfold stop.
  destruct (MP3Player._playing (player w)); [|reflexivity].
  cbn [decoder with_player].
  destruct (_streaming (decoder w)); [|reflexivity].
  rewrite with_stopStreaming_meta. reflexivity.
Qed.

Lemma yield_meta (w : World D) : meta (yield env w) = meta w.
Proof.
  unfold yield. destruct (stop_requested env (clock w)); [|reflexivity].
  rewrite stop_meta. reflexivity.
Qed.

Lemma streamingCallback_meta (data : list Z) (n : Z) (info : MP3Info) (w : World D) :
  meta (world_of (streamingCallback env data n info w)) = meta w.
Proof.
  unfold streamingCallback, writeSamples, writeAudioData.
  repeat match goal with
         | |- context [yield env ?x] =>
             let y := fresh "y" in
             let E := fresh "E" in
             pose proof (yield_meta x) as E; set (y := yield env x) in *;
             clearbody y
         | |- context [if ?c then _ else _] => destruct c
         end; cbn [world_of];
    repeat match goal with
           | E : meta _ = _ |- _ => unfold meta in E; cbn in E
           end;
    unfold meta; cbn; congruence.
Qed.

Lemma refillAndRetry_meta (retry : World D -> Res D bool) (w : World D) :
  _firstFrame (decoder w) = false ->
  (forall w1, _firstFrame (decoder w1) = false ->
              meta (world_of (retry w1)) = meta w1) ->
  meta (world_of (refillAndRetry retry w)) = meta w.
Proof.
  intros Hf IH. unfold refillAndRetry.
  pose proof (fillStreamBuffer_meta w) as E.
  destruct (fillStreamBuffer w) as [b w1 | w1 | w1]; cbn [bind world_of] in *;
    try exact E.
  destruct b; cbn [world_of]; [|exact E].
  rewrite IH; [exact E|].
  unfold meta in E. congruence.
Qed.

Lemma skipByte_meta (w : World D) : meta (skipByte w) = meta w.
Proof. reflexivity. Qed.

Lemma resync_meta (retry : World D -> Res D bool) (w : World D) :
  _firstFrame (decoder w) = false ->
  (forall w1, _firstFrame (decoder w1) = false ->
              meta (world_of (retry w1)) = meta w1) ->
  meta (world_of (resync retry w)) = meta w.
Proof.
  intros Hf IH. unfold resync.
  destruct (_bytesLeft (decoder (skipByte w)) =? 0).
  - rewrite refillAndRetry_meta; [apply skipByte_meta | exact Hf | exact IH].
  - rewrite IH; [apply skipByte_meta | exact Hf].
Qed.

Lemma topUp_meta (w : World D) : meta (world_of (topUp w)) = meta w.
Proof.
  unfold topUp.
  destruct ((_bytesLeft (decoder w) <? INPUT_BUFFER_SIZE)
            && negb (File_available (_streamFile (decoder w)) =? 0));
    [|reflexivity].
  pose proof (fillStreamBuffer_meta w) as E.
  destruct (fillStreamBuffer w); exact E.
Qed.

(** Once the flag is down, no call changes the metadata or raises the
    flag again, however the call ends. *)
Lemma processStreamFrame_meta (fuel : nat) :
  forall w : World D,
    _firstFrame (decoder w) = false ->
    meta (world_of (processStreamFrame codec (streamingCallback env) fuel w)) = meta w.
Proof.
  induction fuel as [|fuel IH]; intros w Hf; [reflexivity|].
  cbn [processStreamFrame].
  destruct (negb (_streaming (decoder w)) || negb (_initialized (decoder w)));
    [reflexivity|].
  destruct (_streamBuffer (decoder w)) as [buf|]; [|reflexivity].
  destruct (_readPtr (decoder w)) as [rp|]; [|reflexivity].
  match goal with |- context [MP3FindSyncWord codec ?x] =>
    set (offset := MP3FindSyncWord codec x) end.
  destruct (offset <? 0).
  { apply refillAndRetry_meta; [exact Hf | exact IH]. }
  destruct (MP3GetNextFrameInfo codec (_decoder (decoder w))
              (skipn (Z.to_nat (rp + offset)) buf)) as [[dec1 result] fi].
  match goal with |- context [resync _ ?x] => set (w1 := x) end.
  assert (M1 : meta w1 = meta w) by reflexivity.
  assert (F1 : _firstFrame (decoder w1) = false) by exact Hf.
  destruct (negb (result =? 0)).
  { rewrite resync_meta; [exact M1 | exact F1 | exact IH]. }
  rewrite F1.
  match goal with |- context [MP3Decode codec dec1 ?x] =>
    destruct (MP3Decode codec dec1 x) as [[[dec2 result2] consumed] pcm] end.
  match goal with |- context [resync _ ?x] => set (w3 := x) end.
  assert (M3 : meta w3 = meta w) by reflexivity.
  assert (F3 : _firstFrame (decoder w3) = false) by exact Hf.
  destruct (negb (result2 =? 0)).
  { destruct (result2 =? ERR_MP3_INDATA_UNDERFLOW codec).
    - rewrite refillAndRetry_meta; [exact M3 | exact F3 | exact IH].
    - rewrite resync_meta; [exact M3 | exact F3 | exact IH]. }
  destruct (_callback (decoder w3)).
  2:{ rewrite topUp_meta. exact M3. }
  match goal with |- context [(streamingCallback env) ?a ?b ?c ?x] =>
    pose proof (streamingCallback_meta a b c x) as E;
    destruct ((streamingCallback env) a b c x) as [continue w4 | w4 | w4]
  end; cbn [bind world_of] in *; try (rewrite E; exact M3).
  destruct continue.
  - rewrite topUp_meta, E. exact M3.
  - cbn [world_of]. rewrite with_stopStreaming_meta, E. exact M3.
Qed.

(** A refill before the retry leaves the metadata and the flag alone,
    whether the call then ends or goes on with the retry. *)
Lemma refillAndRetry_keeps_meta (retry : World D -> Res D bool) (w : World D) :
  exists w2,
    meta w2 = meta w
    /\ (refillAndRetry retry w = retry w2
        \/ world_of (refillAndRetry retry w) = w2).
Proof.
  unfold refillAndRetry.
  pose proof (fillStreamBuffer_meta w) as E.
  destruct (fillStreamBuffer w) as [b w1 | w1 | w1]; cbn [bind world_of] in *;
    exists w1; (split; [exact E|]).
  - destruct b; [left | right]; reflexivity.
  - right. reflexivity.
  - right. reflexivity.
Qed.

Lemma resync_keeps_meta (retry : World D -> Res D bool) (w : World D) :
  exists w2,
    meta w2 = meta w
    /\ (resync retry w = retry w2 \/ world_of (resync retry w) = w2).
Proof.
  unfold resync.
  destruct (_bytesLeft (decoder (skipByte w)) =? 0).
  - destruct (refillAndRetry_keeps_meta retry (skipByte w)) as (w2 & M & H).
    exists w2. split; [rewrite M; apply skipByte_meta | exact H].
  - exists (skipByte w). split; [apply skipByte_meta | left; reflexivity].
Qed.

(** C7 (amended).  While the first-frame flag is up, a call of
    processStreamFrame on a stream in progress looks at the first sync
    position of the unread window.  If the header there parses
    (MP3GetNextFrameInfo returns 0) the call latches: it stores that
    header's sample rate, channel count and bit rate, keeps the duration,
    sets the validity flag and lowers the first-frame flag, before the
    frame is decoded and whatever the decode then returns.  If the search
    finds nothing or the header does not parse, nothing is latched: the
    call ends, or goes on with the next search, with the metadata and the
    flag as they were.  Once the flag is down no call changes the metadata
    or raises the flag again, whatever happens to later frames. *)
Theorem C7_metadata_latched_at_first_parsed_header
        (fuel : nat) (w : World D) (buf : list Z) (rp : Z) :
  let d := decoder w in
  let offset := MP3FindSyncWord codec (window buf rp (to_int (_bytesLeft d))) in
  let header := MP3GetNextFrameInfo codec (_decoder d)
                                    (skipn (Z.to_nat (rp + offset)) buf) in
  let result := snd (fst header) in
  let fi := snd header in
  let call := processStreamFrame codec (streamingCallback env) in
  _streaming d = true -> _initialized d = true ->
  _streamBuffer d = Some buf -> _readPtr d = Some rp ->
  _firstFrame d = true ->
  (0 <= offset -> result = 0 ->
   meta (world_of (call (S fuel) w))
   = (mkInfo (samprate fi) (nChans fi) (bitrate fi) (duration (_streamInfo d))
             true,
      false))
  /\ (offset < 0 \/ result <> 0 ->
      exists w2,
        meta w2 = meta w
        /\ (call (S fuel) w = call fuel w2
            \/ world_of (call (S fuel) w) = w2))
  /\ forall (fuel' : nat) (w' : World D),
      _firstFrame (decoder w') = false ->
      meta (world_of (call fuel' w')) = meta w'.
Proof.
  intros d offset header result fi call Hs Hi Hb Hr Hf.
  split; [|split; [|intros fuel' w'; apply processStreamFrame_meta]].
  - (* the header parses *)
    intros Hoff Hres. subst call.
    cbn [processStreamFrame]. fold d. rewrite Hs, Hi, Hb, Hr. cbn [negb orb].
    fold offset.
    destruct (Z.ltb_spec offset 0); [lia|].
    fold header. subst result fi.
    destruct header as [[dec1 result] fi]. cbn [fst snd] in *. subst result.
    cbn [Z.eqb negb].
    match goal with |- context [_firstFrame (decoder ?x)] => set (w1 := x) end.
    assert (F1 : _firstFrame (decoder w1) = true) by exact Hf.
    rewrite F1.
    match goal with |- context [MP3Decode codec dec1 ?x] =>
      destruct (MP3Decode codec dec1 x) as [[[dec2 result2] consumed] pcm] end.
    match goal with |- context [resync _ ?x] => set (w3 := x) end.
    match goal with |- _ = ?m => assert (M3 : meta w3 = m) by reflexivity end.
    assert (F3 : _firstFrame (decoder w3) = false) by reflexivity.
    destruct (negb (result2 =? 0)).
    { destruct (result2 =? ERR_MP3_INDATA_UNDERFLOW codec).
      - rewrite refillAndRetry_meta;
          [exact M3 | exact F3 | apply processStreamFrame_meta].
      - rewrite resync_meta;
          [exact M3 | exact F3 | apply processStreamFrame_meta]. }
    destruct (_callback (decoder w3)).
    2:{ rewrite topUp_meta. exact M3. }
    match goal with |- context [(streamingCallback env) ?a ?b ?c ?x] =>
      pose proof (streamingCallback_meta a b c x) as E;
      destruct ((streamingCallback env) a b c x) as [continue w4 | w4 | w4]
    end; cbn [bind world_of] in *; try (rewrite E; exact M3).
    destruct continue.
    + rewrite topUp_meta, E. exact M3.
    + cbn [world_of]. rewrite with_stopStreaming_meta, E. exact M3.
  - (* no sync pattern, or a header that does not parse *)
    intros Hnone. subst call.
    cbn [processStreamFrame]. fold d. rewrite Hs, Hi, Hb, Hr. cbn [negb orb].
    fold offset.
    destruct (Z.ltb_spec offset 0) as [Hneg | Hpos].
    { apply refillAndRetry_keeps_meta. }
    destruct Hnone as [Hneg | Hres]; [lia|].
    fold header. subst result fi.
    destruct header as [[dec1 result] fi]. cbn [fst snd] in *.
    destruct (Z.eqb_spec result 0) as [? | _]; [contradiction|].
    cbn [negb].
    match goal with |- context [resync _ ?x] =>
      destruct (resync_keeps_meta
                  (processStreamFrame codec (streamingCallback env) fuel) x)
        as (w2 & M & H)
    end.
    exists w2. split; [exact M | exact H].
Qed.
End Metadata.

Lemma C7_metadata_witness :
  meta (world_of (processStreamFrame TestCodec.codec (streamingCallback calmEnv) 3
                                     resyncPlayingWorld))
  = (mkInfo 11025 1 128000 0 true, false)
  /\ exists w2,
      meta w2 = meta badHeaderWorld
      /\ processStreamFrame TestCodec.codec (streamingCallback calmEnv) 3
                            badHeaderWorld
         = processStreamFrame TestCodec.codec (streamingCallback calmEnv) 2 w2
      /\ meta (world_of (processStreamFrame TestCodec.codec
                                            (streamingCallback calmEnv) 2 w2))
         = (mkInfo 22050 1 128000 0 true, false).
Proof.
  split.
  - refine (proj1 (C7_metadata_latched_at_first_parsed_header
                     TestCodec.codec calmEnv 2 resyncPlayingWorld resyncBuffer 0
                     _ _ _ _ _) _ _);
      try (vm_compute; reflexivity).
    vm_compute. discriminate.
  - destruct (proj1 (proj2 (C7_metadata_latched_at_first_parsed_header
                              TestCodec.codec calmEnv 2 badHeaderWorld
                              badHeaderBuffer 0
                              eq_refl eq_refl eq_refl eq_refl eq_refl)))
      as (w2 & M & [H | H]).
    + right. vm_compute. discriminate.
    + exists w2. split; [exact M|]. split; [exact H|].
      rewrite <- H. vm_compute. reflexivity.
    + exfalso.
      assert (F0 : _firstFrame (decoder badHeaderWorld) = true)
        by (vm_compute; reflexivity).
      assert (F3 : _firstFrame
                     (decoder
                        (world_of
                           (processStreamFrame TestCodec.codec
                                               (streamingCallback calmEnv) 3
                                               badHeaderWorld))) = false)
        by (vm_compute; reflexivity).
      unfold meta in M. injection M as _ M2.
      rewrite H in F3. congruence.
Defined.

Lemma C7_counterexample :
  let r := processStreamFrame TestCodec.codec (streamingCallback calmEnv) 3
                              resyncPlayingWorld in
  let latched := mkInfo 11025 1 128000 0 true in
  (exists w', r = Ret true w')
  /\ trace (world_of r)
     = [EvWriteSamples [1792; -1792] ESP_OK; EvFrame 2 latched; EvSkip 6]
  /\ MP3GetNextFrameInfo TestCodec.codec true goodFrame2
     = (true, 0, TestCodec.frameInfo 226 2)
  /\ samprate (TestCodec.frameInfo 226 2) = 22050
  /\ ~ C7_spec_says (TestCodec.frameInfo 226 2) (world_of r).
Proof.
  intros r latched.
  assert (E : _streamInfo (decoder (world_of r)) = latched)
    by (vm_compute; reflexivity).
  split; [eexists; vm_compute; reflexivity|].
  split; [vm_compute; reflexivity|].
  split; [reflexivity|]. split; [reflexivity|].
  unfold C7_spec_says. cbv zeta. rewrite E. intros (H & _).
  discriminate H.
Qed.

(** ** Properties of a whole session *)

Section Session.
Context {D : Type} (codec : Codec D) (env : Env) (fs : SPIFFS).

Lemma fillStreamBuffer_blind (I : World D -> Prop) (w : World D) :
  decoder_blind I -> I w -> I (world_of (fillStreamBuffer w)).
Proof.
  intros HI Hw. unfold fillStreamBuffer.
  repeat match goal with
         | |- context [if ?c then _ else _] => destruct c
         | |- context [match ?o with Some _ => _ | None => _ end] => destruct o
         | |- context [let (_, _) := ?p in _] => destruct p
         end; cbn [world_of]; try exact Hw; apply HI; exact Hw.
Qed.

Section Frames.
Variable callback : list Z -> Z -> MP3Info -> World D -> Res D bool.
Variable I : World D -> Prop.
Hypothesis I_blind : decoder_blind I.
Hypothesis I_skip : forall n w, I w -> I (log (EvSkip n) w).
Hypothesis I_frame : forall n i w, I w -> I (log (EvFrame n i) w).
Hypothesis I_callback :
  forall data n info w, I w -> I (world_of (callback data n info w)).

Lemma refillAndRetry_inv (retry : World D -> Res D bool) (w : World D) :
  (forall w1, I w1 -> I (world_of (retry w1))) ->
  I w -> I (world_of (refillAndRetry retry w)).
Proof.
  intros IH Hw. unfold refillAndRetry.
  pose proof (fillStreamBuffer_blind I w I_blind Hw) as H1.
  destruct (fillStreamBuffer w) as [b w1 | w1 | w1]; cbn [bind world_of] in *;
    try exact H1.
  destruct b; [apply IH|]; exact H1.
Qed.

Lemma resync_inv (retry : World D -> Res D bool) (w : World D) :
  (forall w1, I w1 -> I (world_of (retry w1))) ->
  I w -> I (world_of (resync retry w)).
Proof.
  intros IH Hw. unfold resync.
  assert (H1 : I (skipByte w)) by (unfold skipByte; apply I_skip, I_blind, Hw).
  destruct (_bytesLeft (decoder (skipByte w)) =? 0).
  - apply refillAndRetry_inv; assumption.
  - apply IH. exact H1.
Qed.

Lemma topUp_inv (w : World D) : I w -> I (world_of (topUp w)).
Proof.
  intro Hw. unfold topUp.
  destruct ((_bytesLeft (decoder w) <? INPUT_BUFFER_SIZE)
            && negb (File_available (_streamFile (decoder w)) =? 0));
    [|exact Hw].
  pose proof (fillStreamBuffer_blind I w I_blind Hw) as H1.
  destruct (fillStreamBuffer w); exact H1.
Qed.

(** Such a predicate, kept by the callback and by the two events of the
    frame loop, is kept by processStreamFrame however the call ends. *)
Lemma processStreamFrame_inv (fuel : nat) :
  forall w, I w -> I (world_of (processStreamFrame codec callback fuel w)).
Proof.
  induction fuel as [|fuel IH]; intros w Hw; [exact Hw|].
  cbn [processStreamFrame].
  destruct (negb (_streaming (decoder w)) || negb (_initialized (decoder w)));
    [exact Hw|].
  destruct (_streamBuffer (decoder w)) as [buf|]; [|exact Hw].
  destruct (_readPtr (decoder w)) as [rp|]; [|exact Hw].
  match goal with |- context [MP3FindSyncWord codec ?x] =>
    set (offset := MP3FindSyncWord codec x) end.
  destruct (offset <? 0).
  { apply refillAndRetry_inv; assumption. }
  destruct (MP3GetNextFrameInfo codec (_decoder (decoder w))
              (skipn (Z.to_nat (rp + offset)) buf)) as [[dec1 result] fi].
  match goal with |- context [resync _ ?x] => set (w1 := x) end.
  assert (H1 : I w1) by (apply I_blind; exact Hw).
  destruct (negb (result =? 0)).
  { apply resync_inv; assumption. }
  match goal with |- context [MP3Decode codec dec1 ?x] =>
    destruct (MP3Decode codec dec1 x) as [[[dec2 result2] consumed] pcm] end.
  match goal with |- context [resync _ ?x] => set (w3 := x) end.
  assert (H3 : I w3).
  { subst w3. apply I_blind. destruct (_firstFrame (decoder w1)).
    - apply I_blind. exact H1.
    - exact H1. }
  destruct (negb (result2 =? 0)).
  { destruct (result2 =? ERR_MP3_INDATA_UNDERFLOW codec).
    - apply refillAndRetry_inv; assumption.
    - apply resync_inv; assumption. }
  destruct (_callback (decoder w3)).
  2:{ apply topUp_inv. exact H3. }
  match goal with |- context [callback ?a ?b ?c ?x] =>
    pose proof (I_callback a b c x (I_frame _ _ _ H3)) as E;
    destruct (callback a b c x) as [continue w4 | w4 | w4]
  end; cbn [bind world_of] in *; try exact E.
  destruct continue.
  - apply topUp_inv. exact E.
  - cbn [world_of]. apply I_blind. exact E.
Qed.
End Frames.

Lemma session_blind_decoder (I : World D -> Prop) :
  session_blind I -> decoder_blind I.
Proof. intros H f w. apply H; reflexivity. Qed.

Lemma writeSamples_same (n : Z) (w : World D) :
  let w' := snd (writeSamples env n w) in
  trace w' = trace w /\ player w' = player w /\ decoder w' = decoder w.
Proof.
  unfold writeSamples, writeAudioData.
  repeat match goal with
         | |- context [if ?c then _ else _] => destruct c
         end; repeat split.
Qed.

Section Loop.
Variable I : World D -> Prop.
Hypothesis I_blind : session_blind I.
Hypothesis I_skip : forall n w, I w -> I (log (EvSkip n) w).
Hypothesis I_frame : forall n i w, I w -> I (log (EvFrame n i) w).
Hypothesis I_seen :
  forall w, MP3Player._playing (player w) = false -> I w -> I (log EvStopSeen w).
Hypothesis I_stop :
  forall w, I w -> I (with_player (set_playing false) (log EvStop w)).
Hypothesis I_write :
  forall s st w, I w -> I (log (EvWriteSamples s st) w).
Hypothesis I_progress :
  forall x w, 0 < MP3Player._totalFrames (player w) -> I w ->
              I (log (EvProgress x) w).

Lemma stop_inv (w : World D) : I w -> I (stop (log EvStop w)).
Proof.
  intro Hw. unfold stop.
  destruct (MP3Player._playing (player (log EvStop w))) eqn:Hp.
  - destruct (_streaming (decoder (with_player (set_playing false) (log EvStop w)))).
    + apply (session_blind_decoder I I_blind). apply I_stop. exact Hw.
    + apply I_stop. exact Hw.
  - apply (I_blind (with_player (set_playing false) (log EvStop w)));
      try reflexivity.
    + cbn. cbn in Hp. exact Hp.
    + apply I_stop. exact Hw.
Qed.

Lemma yield_inv (w : World D) : I w -> I (yield env w).
Proof.
  intro Hw. unfold yield.
  assert (Ht : I (tick w)) by (apply (I_blind w); [reflexivity..|exact Hw]).
  destruct (stop_requested env (clock w)); [|exact Ht].
  apply (stop_inv (tick w)). exact Ht.
Qed.

Lemma streamingCallback_inv (data : list Z) (n : Z) (info : MP3Info) (w : World D) :
  I w -> I (world_of ((streamingCallback env) data n info w)).
Proof.
  intro Hw. unfold streamingCallback.
  destruct (negb (MP3Player._speaker (player w))); [exact Hw|].
  destruct (MP3Player._playing (player w)) eqn:Hp; cbn [negb].
  2:{ apply I_seen; assumption. }
  destruct (n =? 0); [exact Hw|].
  pose proof (yield_inv w Hw) as Hy.
  set (w0 := yield env w) in *.
  assert (Ht : I (tick w0)) by (apply (I_blind w0); [reflexivity..|exact Hy]).
  destruct (negb (malloc_ok env (clock w0))); [exact Ht|].
  destruct (writeSamples_same n (tick w0)) as (T2 & P2 & _).
  destruct (writeSamples env n (tick w0)) as [result w2]. cbn [snd] in *.
  assert (H2 : I w2).
  { apply (I_blind (tick w0)); try assumption; rewrite P2; reflexivity. }
  match goal with |- context [yield env (log ?e ?x)] =>
    assert (H3 : I (yield env (log e x)))
  end.
  { apply yield_inv. apply I_write. exact H2. }
  match goal with |- context [yield env (log ?e ?x)] =>
    set (w3 := yield env (log e x)) in *
  end.
  destruct (negb (result =? ESP_OK)); [exact H3|].
  match goal with |- context [with_player ?f w3] => set (w4 := with_player f w3) end.
  assert (H4 : I w4) by (apply (I_blind w3); [reflexivity..|exact H3]).
  match goal with
  | |- context [if ?c then yield env ?x else w4] =>
      assert (H5 : I (if c then yield env x else w4))
  end.
  { destruct (MP3Player._progressCallback (player w4)); cbn [andb]; [|exact H4].
    destruct (Z.ltb_spec 0 (MP3Player._totalFrames (player w4))); [|exact H4].
    apply yield_inv. apply I_progress; assumption. }
  match goal with
  | |- context [if ?c then yield env ?x else w4] =>
      set (w5 := if c then yield env x else w4) in *
  end.
  destruct (MP3Player._playing (player w5)) eqn:Hp5; [exact H5|].
  apply I_seen; assumption.
Qed.

(** The frame loop keeps such a predicate, however it ends. *)
Lemma playLoop_inv (fuel : nat) :
  forall w, I w -> I (world_of (playLoop codec env fuel w)).
Proof.
  induction fuel as [|fuel IH]; intros w Hw; [exact Hw|].
  cbn [playLoop].
  destruct (negb (_streaming (decoder w))); [exact Hw|].
  destruct (MP3Player._playing (player w)) eqn:Hp; cbn [negb].
  2:{ apply I_seen; assumption. }
  pose proof (processStreamFrame_inv (streamingCallback env) I
                (session_blind_decoder I I_blind) I_skip I_frame
                streamingCallback_inv fuel w Hw) as H1.
  destruct (processStreamFrame codec (streamingCallback env) fuel w) as [ok w1 | w1 | w1];
    cbn [bind world_of] in *; try exact H1.
  destruct ok; [|exact H1].
  apply IH. apply yield_inv. exact H1.
Qed.
End Loop.
End Session.

Section Playback.
Context {D : Type} (codec : Codec D) (env : Env) (fs : SPIFFS).

Lemma getFileInfo_same (filePath : String.string) (w : World D) :
  let w' := world_of (getFileInfo codec env fs filePath w) in
  trace w' = trace w /\ player w' = player w.
Proof.
  unfold getFileInfo.
  repeat match goal with
         | |- context [if ?c then _ else _] => destruct c
         | |- context [match ?p with (_, _) => _ end] => destruct p
         end; split; reflexivity.
Qed.

Lemma fillStreamBuffer_same (w : World D) :
  let w' := world_of (fillStreamBuffer w) in
  trace w' = trace w /\ player w' = player w.
Proof.
  apply (fillStreamBuffer_blind
           (fun w' => trace w' = trace w /\ player w' = player w)).
  - intros f w0 H. exact H.
  - split; reflexivity.
Qed.

Lemma startStreaming_same (filePath : String.string) (w : World D) :
  let w' := world_of (startStreaming codec env fs filePath w) in
  trace w' = trace w /\ player w' = player w.
Proof.
  unfold startStreaming.
  destruct (negb (_initialized (decoder w)) || _streaming (decoder w));
    [split; reflexivity|].
  destruct (negb (isOpen (File_open fs filePath))); [split; reflexivity|].
  destruct (negb (malloc_ok env _)); [split; reflexivity|].
  match goal with |- context [getFileInfo codec env fs filePath ?x] =>
    pose proof (getFileInfo_same filePath x) as G;
    destruct (getFileInfo codec env fs filePath x) as [info w4 | w4 | w4]
  end; cbn [bind world_of] in *; try exact G.
  destruct info as [i|]; [|exact G].
  match goal with |- context [fillStreamBuffer ?x] =>
    pose proof (fillStreamBuffer_same x) as F;
    destruct (fillStreamBuffer x) as [ok w6 | w6 | w6]
  end; cbn [bind world_of] in *;
    cbn [trace player with_decoder tick] in F, G; destruct F as [F1 F2], G as [G1 G2];
    try (split; congruence).
  destruct ok; cbn [world_of]; split; cbn [trace player with_decoder]; congruence.
Qed.

Lemma I2SSpeaker_start_same (w : World D) :
  let w' := snd (I2SSpeaker_start env w) in
  trace w' = trace w /\ player w' = player w.
Proof.
  unfold I2SSpeaker_start.
  repeat match goal with
         | |- context [if ?c then _ else _] => destruct c
         end; split; reflexivity.
Qed.

Lemma clear_trace (w : World D) :
  exists status, trace (clear env w) = EvClear status :: trace w.
Proof.
  unfold clear.
  destruct (negb (I2SSpeaker._initialized (speaker w))
            || negb (I2SSpeaker._active (speaker w))); [eexists; reflexivity|].
  destruct (negb (malloc_ok env (clock w))); [eexists; reflexivity|].
  unfold writeAudioData.
  repeat match goal with
         | |- context [if ?c then _ else _] => destruct c
         end; eexists; reflexivity.
Qed.

(** What playFileWithProgress does around the frame loop leaves alone any
    property of the trace that the flush of the speaker does not touch,
    provided the loop keeps it for a session that starts playing. *)
Lemma playFileWithProgress_trace
      (P : list Event -> Prop)
      (filePath : String.string) (volume : float) (progressCallback : bool)
      (fuel : nat) (w : World D) :
  (forall status tr, P tr -> P (EvClear status :: tr)) ->
  (forall w4 : World D,
      trace w4 = trace w ->
      MP3Player._playing (player w4) = true ->
      MP3Player._totalFrames (player w4) = 0 ->
      P (trace (world_of (playLoop codec env fuel w4)))) ->
  P (trace w) ->
  P (trace (world_of (playFileWithProgress codec env fs filePath volume
                                           progressCallback fuel w))).
Proof.
  intros Pclear Ploop Pw. unfold playFileWithProgress.
  destruct (negb (MP3Player._initialized (player w))
            || negb (MP3Player._speaker (player w))
            || MP3Player._playing (player w)); [exact Pw|].
  match goal with |- context [with_player ?f w] => set (w1 := with_player f w) end.
  assert (Hstart : let w2 := snd (if negb (I2SSpeaker._active (speaker w1))
                                  then I2SSpeaker_start env w1 else (ESP_OK, w1)) in
                   trace w2 = trace w
                   /\ MP3Player._totalFrames (player w2) = 0).
  { destruct (negb (I2SSpeaker._active (speaker w1))); cbn [snd].
    - destruct (I2SSpeaker_start_same w1) as [T Pl]. cbv zeta in T, Pl.
      rewrite T, Pl. split; reflexivity.
    - split; reflexivity. }
  destruct (if negb (I2SSpeaker._active (speaker w1))
            then I2SSpeaker_start env w1 else (ESP_OK, w1)) as [err w2].
  cbn [snd] in Hstart. destruct Hstart as [T2 Tot2].
  destruct (negb (err =? ESP_OK)); [cbn [world_of]; rewrite T2; exact Pw|].
  match goal with |- context [startStreaming codec env fs filePath ?x] =>
    pose proof (startStreaming_same filePath x) as S;
    destruct (startStreaming codec env fs filePath x) as [success w4 | w4 | w4]
  end; cbn [bind world_of] in *; destruct S as [T4 P4];
    try (rewrite T4; cbn; rewrite T2; exact Pw).
  destruct success; cbn [negb].
  2:{ cbn [world_of]. cbn. rewrite T4. cbn. rewrite T2. exact Pw. }
  assert (L : P (trace (world_of (playLoop codec env fuel w4)))).
  { apply Ploop.
    - rewrite T4. cbn. exact T2.
    - rewrite P4. reflexivity.
    - rewrite P4. cbn. exact Tot2. }
  destruct (playLoop codec env fuel w4) as [u w5 | w5 | w5];
    cbn [bind world_of] in *; try exact L.
  match goal with |- context [clear env ?x] =>
    destruct (clear_trace x) as [status ->];
    assert (T7 : trace x = trace w5)
      by (destruct (_streaming (decoder w5)); reflexivity)
  end.
  rewrite T7. apply Pclear. exact L.
Qed.
End Playback.

(** ** Stopping *)

Section Stopping.
Context {D : Type} (codec : Codec D) (env : Env) (fs : SPIFFS).
Variable tr0 : list Event.

Lemma no_seen_writes_before_seen (evs : list Event) :
  no_seen evs = true -> writes_before_seen evs = true.
Proof.
  induction evs as [|e evs IH]; intro H; [reflexivity|].
  cbn [no_seen forallb] in H. apply andb_prop in H. destruct H as [_ H].
  cbn [writes_before_seen]. fold (no_seen evs) in H.
  rewrite H, (IH H). destruct (is_write e); reflexivity.
Qed.

Lemma added_weaken (w : World D) :
  added tr0 no_seen w -> added tr0 writes_before_seen w.
Proof.
  intros (evs & T & H). exists evs. split; [exact T|].
  apply no_seen_writes_before_seen. exact H.
Qed.

Lemma added_same (P : list Event -> bool) (w w' : World D) :
  trace w' = trace w -> added tr0 P w -> added tr0 P w'.
Proof. intros T (evs & E & H). exists evs. rewrite T. split; assumption. Qed.

Lemma added_quiet (e : Event) (w : World D) :
  is_seen e = false -> added tr0 no_seen w -> added tr0 no_seen (log e w).
Proof.
  intros He (evs & T & H). exists (e :: evs). cbn [trace log]. rewrite T.
  split; [reflexivity|]. cbn [no_seen forallb]. rewrite He. exact H.
Qed.

(** A check that finds the flag down comes after every write so far. *)
Lemma added_seen (w : World D) :
  added tr0 no_seen w -> added tr0 writes_before_seen (log EvStopSeen w).
Proof.
  intros (evs & T & H). exists (EvStopSeen :: evs). cbn [trace log]. rewrite T.
  split; [reflexivity|]. cbn [writes_before_seen is_write andb].
  apply no_seen_writes_before_seen. exact H.
Qed.

Lemma stop_trace (w : World D) : trace (stop w) = trace w.
Proof.
  unfold stop. destruct (MP3Player._playing (player w)); [|reflexivity].
  destruct (_streaming (decoder (with_player (set_playing false) w)));
    reflexivity.
Qed.

(** Whenever [stop()] runs, no check has found the flag down if none had
    before. *)
Lemma added_yield (w : World D) :
  added tr0 no_seen w -> added tr0 no_seen (yield env w).
Proof.
  intro H. unfold yield.
  destruct (stop_requested env (clock w)).
  - apply (added_same no_seen (log EvStop (tick w))); [apply stop_trace|].
    apply added_quiet; [reflexivity|].
    apply (added_same no_seen w); [reflexivity | exact H].
  - apply (added_same no_seen w); [reflexivity | exact H].
Qed.

(** The stream callback writes a block only while no check has found the
    flag down, and returns [true] only if its last check did not. *)
Lemma streamingCallback_stop_order
      (data : list Z) (n : Z) (info : MP3Info) (w : World D) :
  added tr0 no_seen w -> stop_order tr0 (streamingCallback env data n info w).
Proof.
  intro Hw. unfold streamingCallback.
  destruct (negb (MP3Player._speaker (player w)));
    [apply added_weaken; exact Hw|].
  destruct (negb (MP3Player._playing (player w)));
    [apply added_seen; exact Hw|].
  destruct (n =? 0); [apply added_weaken; exact Hw|].
  pose proof (added_yield w Hw) as Hy.
  set (w0 := yield env w) in *.
  assert (Ht : added tr0 no_seen (tick w0))
    by (apply (added_same no_seen w0); [reflexivity | exact Hy]).
  destruct (negb (malloc_ok env (clock w0)));
    [apply added_weaken; exact Ht|].
  destruct (writeSamples_same env n (tick w0)) as (T2 & _ & _).
  destruct (writeSamples env n (tick w0)) as [result w2]. cbn [snd] in *.
  assert (H2 : added tr0 no_seen w2)
    by (apply (added_same no_seen (tick w0)); assumption).
  match goal with |- context [yield env (log ?e ?x)] =>
    assert (H3 : added tr0 no_seen (yield env (log e x)))
      by (apply added_yield, added_quiet; [reflexivity | exact H2]);
    set (w3 := yield env (log e x)) in *
  end.
  destruct (negb (result =? ESP_OK)); [apply added_weaken; exact H3|].
  match goal with |- context [with_player ?f w3] => set (w4 := with_player f w3) end.
  assert (H4 : added tr0 no_seen w4)
    by (apply (added_same no_seen w3); [reflexivity | exact H3]).
  match goal with
  | |- context [if ?c then yield env ?x else w4] =>
      assert (H5 : added tr0 no_seen (if c then yield env x else w4))
        by (destruct c; [|exact H4];
            apply added_yield, added_quiet; [reflexivity | exact H4]);
      set (w5 := if c then yield env x else w4) in *
  end.
  destruct (MP3Player._playing (player w5)).
  - exact H5.
  - apply added_seen. exact H5.
Qed.

Section StopFrames.
Variable callback : list Z -> Z -> MP3Info -> World D -> Res D bool.
Hypothesis callback_stop_order :
  forall data n info w,
    added tr0 no_seen w -> stop_order tr0 (callback data n info w).

Lemma stop_order_weaken (r : Res D bool) :
  added tr0 no_seen (world_of r) -> stop_order tr0 r.
Proof.
  intro H. destruct r as [[|] w | w | w]; cbn [stop_order world_of] in *;
    try exact H; apply added_weaken; exact H.
Qed.

Lemma fillStreamBuffer_unseen (w : World D) :
  added tr0 no_seen w -> added tr0 no_seen (world_of (fillStreamBuffer w)).
Proof.
  apply (fillStreamBuffer_blind (added tr0 no_seen)).
  intros f w0. apply added_same. reflexivity.
Qed.

Lemma refillAndRetry_stop_order (retry : World D -> Res D bool) (w : World D) :
  (forall w1, added tr0 no_seen w1 -> stop_order tr0 (retry w1)) ->
  added tr0 no_seen w -> stop_order tr0 (refillAndRetry retry w).
Proof.
  intros IH Hw. unfold refillAndRetry.
  pose proof (fillStreamBuffer_unseen w Hw) as H1.
  destruct (fillStreamBuffer w) as [b w1 | w1 | w1]; cbn [bind world_of] in *;
    try (apply added_weaken; exact H1).
  destruct b; [apply IH; exact H1|]. apply added_weaken. exact H1.
Qed.

Lemma resync_stop_order (retry : World D -> Res D bool) (w : World D) :
  (forall w1, added tr0 no_seen w1 -> stop_order tr0 (retry w1)) ->
  added tr0 no_seen w -> stop_order tr0 (resync retry w).
Proof.
  intros IH Hw. unfold resync.
  assert (H1 : added tr0 no_seen (skipByte w)).
  { unfold skipByte. apply added_quiet; [reflexivity|].
    apply (added_same no_seen w); [reflexivity | exact Hw]. }
  destruct (_bytesLeft (decoder (skipByte w)) =? 0).
  - apply refillAndRetry_stop_order; assumption.
  - apply IH. exact H1.
Qed.

Lemma topUp_stop_order (w : World D) :
  added tr0 no_seen w -> stop_order tr0 (topUp w).
Proof.
  intro Hw. unfold topUp.
  destruct ((_bytesLeft (decoder w) <? INPUT_BUFFER_SIZE)
            && negb (File_available (_streamFile (decoder w)) =? 0));
    [|exact Hw].
  pose proof (fillStreamBuffer_unseen w Hw) as H1.
  destruct (fillStreamBuffer w); cbn [bind world_of stop_order] in *;
    try exact H1; apply added_weaken; exact H1.
Qed.

(** processStreamFrame adds no check of its own: what holds of the
    callback holds of the call. *)
Lemma processStreamFrame_stop_order (fuel : nat) :
  forall w, added tr0 no_seen w ->
            stop_order tr0 (processStreamFrame codec callback fuel w).
Proof.
  induction fuel as [|fuel IH]; intros w Hw;
    [apply added_weaken; exact Hw|].
  cbn [processStreamFrame].
  destruct (negb (_streaming (decoder w)) || negb (_initialized (decoder w)));
    [apply added_weaken; exact Hw|].
  destruct (_streamBuffer (decoder w)) as [buf|];
    [|apply added_weaken; exact Hw].
  destruct (_readPtr (decoder w)) as [rp|];
    [|apply added_weaken; exact Hw].
  match goal with |- context [MP3FindSyncWord codec ?x] =>
    set (offset := MP3FindSyncWord codec x) end.
  destruct (offset <? 0).
  { apply refillAndRetry_stop_order; assumption. }
  destruct (MP3GetNextFrameInfo codec (_decoder (decoder w))
              (skipn (Z.to_nat (rp + offset)) buf)) as [[dec1 result] fi].
  match goal with |- context [resync _ ?x] => set (w1 := x) end.
  assert (H1 : added tr0 no_seen w1)
    by (apply (added_same no_seen w); [reflexivity | exact Hw]).
  destruct (negb (result =? 0)).
  { apply resync_stop_order; assumption. }
  match goal with |- context [MP3Decode codec dec1 ?x] =>
    destruct (MP3Decode codec dec1 x) as [[[dec2 result2] consumed] pcm] end.
  match goal with |- context [resync _ ?x] => set (w3 := x) end.
  assert (H3 : added tr0 no_seen w3).
  { apply (added_same no_seen w1); [|exact H1].
    subst w3. destruct (_firstFrame (decoder w1)); reflexivity. }
  destruct (negb (result2 =? 0)).
  { destruct (result2 =? ERR_MP3_INDATA_UNDERFLOW codec).
    - apply refillAndRetry_stop_order; assumption.
    - apply resync_stop_order; assumption. }
  destruct (_callback (decoder w3)).
  2:{ apply topUp_stop_order. exact H3. }
  match goal with |- context [callback ?a ?b ?c (log ?e w3)] =>
    pose proof (callback_stop_order a b c (log e w3)
                  (added_quiet e w3 eq_refl H3)) as E;
    destruct (callback a b c (log e w3)) as [continue w4 | w4 | w4]
  end; cbn [bind world_of stop_order] in *; try exact E.
  destruct continue.
  - apply topUp_stop_order. exact E.
  - cbn [stop_order world_of].
    apply (added_same writes_before_seen w4); [reflexivity | exact E].
Qed.
End StopFrames.

(** The frame loop: a check that finds the flag down ends it. *)
Lemma playLoop_stop_order (fuel : nat) :
  forall w, added tr0 no_seen w ->
            added tr0 writes_before_seen (world_of (playLoop codec env fuel w)).
Proof.
  induction fuel as [|fuel IH]; intros w Hw;
    [apply added_weaken; exact Hw|].
  cbn [playLoop].
  destruct (negb (_streaming (decoder w))); [apply added_weaken; exact Hw|].
  destruct (negb (MP3Player._playing (player w)));
    [apply added_seen; exact Hw|].
  pose proof (processStreamFrame_stop_order
                (streamingCallback env) streamingCallback_stop_order
                fuel w Hw) as H1.
  destruct (processStreamFrame codec (streamingCallback env) fuel w)
    as [ok w1 | w1 | w1]; cbn [bind world_of stop_order] in *; try exact H1.
  destruct ok; [|exact H1].
  apply IH. apply added_yield. exact H1.
Qed.
End Stopping.

Section StopClaim.
Context {D : Type} (codec : Codec D) (env : Env) (fs : SPIFFS).

(** C9 (amended).  [stop()] does more than set a flag: when a session is
    playing it lowers [_playing] and, if the decoder is streaming, stops
    the stream at once, closing the source, releasing the block and
    clearing the callback.  The ordering of the claim holds: among the
    events that a call of playFileWithProgress adds to the trace, every
    speaker write comes before the first check that finds the flag down,
    so no block goes to the speaker once the flag has been observed.
    This holds for every environment, whenever [stop()] runs: between the
    entry test of the stream callback and the speaker write, during the
    write, in the progress observer, or between two frames. *)
Theorem C9_writes_precede_observed_stop
        (filePath : String.string) (volume : float) (progressCallback : bool)
        (fuel : nat) (w : World D) :
  (exists evs,
      trace (world_of (playFileWithProgress codec env fs filePath volume
                                            progressCallback fuel w))
      = evs ++ trace w
      /\ writes_before_seen evs = true)
  /\ forall w1 : World D,
      MP3Player._playing (player w1) = true ->
      _streaming (decoder w1) = true ->
      MP3Player._playing (player (stop w1)) = false
      /\ decoder (stop w1) = stopStreaming (decoder w1)
      /\ _streaming (decoder (stop w1)) = false
      /\ _streamBuffer (decoder (stop w1)) = None
      /\ _callback (decoder (stop w1)) = false
      /\ isOpen (_streamFile (decoder (stop w1))) = false.
Proof.
  split.
  - apply (playFileWithProgress_trace
             codec env fs
             (fun tr => exists evs, tr = evs ++ trace w
                                    /\ writes_before_seen evs = true)).
    + intros status tr (evs & T & H). exists (EvClear status :: evs).
      rewrite T. split; [reflexivity | exact H].
    + intros w4 T _ _.
      apply (playLoop_stop_order codec env (trace w) fuel w4).
      exists []. split; [exact T | reflexivity].
    + exists []. split; reflexivity.
  - intros w1 Hp Hs. unfold stop. rewrite Hp.
    cbn [decoder with_player]. rewrite Hs.
    cbn [decoder player with_decoder with_player set_playing MP3Player._playing].
    unfold stopStreaming. rewrite Hs. cbn [negb].
    repeat split; cbn;
      destruct (isOpen (_streamFile (decoder w1))) eqn:Ho; cbn;
      try rewrite Ho; reflexivity.
Qed.
End StopClaim.

Lemma C9_stop_witness :
  let r := playFileWithProgress TestCodec.codec stopBeforeWriteEnv
                                (oneFile twoFrames) path f32_half false 10
                                readyWorld in
  trace (world_of r)
  = [EvClear ESP_OK; EvStopSeen; EvWriteSamples [0; 128; 256] ESP_OK; EvStop;
     EvFrame 3 (mkInfo 11025 1 128000 0 true)]
  /\ exists evs, trace (world_of r) = evs ++ trace readyWorld
                 /\ writes_before_seen evs = true.
Proof.
  split.
  - vm_compute. reflexivity.
  - exact (proj1 (C9_writes_precede_observed_stop
                    TestCodec.codec stopBeforeWriteEnv (oneFile twoFrames)
                    path f32_half false 10 readyWorld)).
Defined.

Lemma C9_counterexample :
  MP3Player._playing (player resyncPlayingWorld) = true
  /\ _streaming (decoder resyncPlayingWorld) = true
  /\ _streaming (decoder (stop resyncPlayingWorld)) = false
  /\ _streamBuffer (decoder (stop resyncPlayingWorld)) = None
  /\ isOpen (_streamFile (decoder (stop resyncPlayingWorld))) = false
  /\ ~ C9_spec_says resyncPlayingWorld.
Proof.
  assert (E1 : _streaming (decoder (stop resyncPlayingWorld)) = false)
    by (vm_compute; reflexivity).
  assert (E2 : _streaming (decoder (with_player (set_playing false)
                                                resyncPlayingWorld)) = true)
    by (vm_compute; reflexivity).
  repeat split; try (vm_compute; reflexivity).
  unfold C9_spec_says. intro H. rewrite H in E1. rewrite E1 in E2.
  discriminate E2.
Qed.

(** ** Progress *)

Section Progress.
Context {D : Type} (codec : Codec D) (env : Env) (fs : SPIFFS).

Lemma no_total_quiet (e : Event) (w : World D) :
  is_progress e = false -> no_total w -> no_total (log e w).
Proof.
  intros He [H1 H2]. unfold no_total. cbn [trace log player].
  change (no_progress (e :: trace w))
    with (negb (is_progress e) && no_progress (trace w)).
  rewrite He. split; assumption.
Qed.

Lemma no_total_loop (fuel : nat) (w : World D) :
  no_total w -> no_total (world_of (playLoop codec env fuel w)).
Proof.
  apply (playLoop_inv codec env no_total).
  - intros w1 w2 T _ Tot [H1 H2]. unfold no_total. rewrite T, Tot.
    split; assumption.
  - intros n w1. apply no_total_quiet. reflexivity.
  - intros n i w1. apply no_total_quiet. reflexivity.
  - intros w1 _. apply no_total_quiet. reflexivity.
  - intros w1 [H1 H2]. split; assumption.
  - intros s st w1. apply no_total_quiet. reflexivity.
  - intros x w1 Hpos [H1 _]. rewrite H1 in Hpos. lia.
Qed.

(** C8 (code defect).  playFileWithProgress sets [_totalFrames] to zero
    and nothing ever gives it another value, so the test
    [_progressCallback && _totalFrames > 0] never passes: in no session,
    with or without an observer, is the progress observer invoked. *)
Theorem C8_progress_observer_never_invoked
        (filePath : String.string) (volume : float) (progressCallback : bool)
        (fuel : nat) (w : World D) :
  no_progress (trace w) = true ->
  no_progress
    (trace (world_of (playFileWithProgress codec env fs filePath volume
                                           progressCallback fuel w))) = true.
Proof.
  intro Hw.
  apply (playFileWithProgress_trace
           codec env fs (fun tr => no_progress tr = true)).
  - intros status tr H. exact H.
  - intros w4 T _ Tot.
    apply (no_total_loop fuel w4). split; [exact Tot|].
    rewrite T. exact Hw.
  - exact Hw.
Qed.
End Progress.

Lemma C8_progress_witness :
  let r := playFileWithProgress TestCodec.codec calmEnv (oneFile twoFrames) path
                                f32_half true 10 readyWorld in
  (exists w', r = Ret true w')
  /\ trace (world_of r)
     = [EvClear ESP_OK;
        EvWriteSamples [1280; -1280] ESP_OK;
        EvFrame 2 (mkInfo 11025 1 128000 0 true);
        EvWriteSamples [0; 128; 256] ESP_OK;
        EvFrame 3 (mkInfo 11025 1 128000 0 true)]
  /\ MP3Player._processedFrames (player (world_of r)) = 2
  /\ no_progress (trace (world_of r)) = true.
Proof.
  split; [eexists; vm_compute; reflexivity|].
  split; [vm_compute; reflexivity|].
  split; [vm_compute; reflexivity|].
  - apply (C8_progress_observer_never_invoked
             TestCodec.codec calmEnv (oneFile twoFrames) path f32_half true 10
             readyWorld).
    reflexivity.
Defined.

(** ** A failing speaker *)

Section SinkFailure.
Context {D : Type} (codec : Codec D) (env : Env) (fs : SPIFFS).

(** C1 (code defect).  playFileWithProgress returns the result of
    startStreaming, which is settled before the first frame: a session in
    which a speaker write failed never returns false. *)
Theorem C1_failed_write_is_not_reported
        (filePath : String.string) (volume : float) (progressCallback : bool)
        (fuel : nat) (w : World D) :
  let r := playFileWithProgress codec env fs filePath volume progressCallback
                                fuel w in
  no_failed_write (trace w) = true ->
  no_failed_write (trace (world_of r)) = false ->
  returned r <> Some false.
Proof.
  intros r Hw Hr. subst r. revert Hr. unfold playFileWithProgress.
  destruct (negb (MP3Player._initialized (player w))
            || negb (MP3Player._speaker (player w))
            || MP3Player._playing (player w)); [cbn; congruence|].
  match goal with |- context [with_player ?f w] => set (w1 := with_player f w) end.
  assert (Hstart : trace (snd (if negb (I2SSpeaker._active (speaker w1))
                               then I2SSpeaker_start env w1 else (ESP_OK, w1)))
                   = trace w).
  { destruct (negb (I2SSpeaker._active (speaker w1))); cbn [snd].
    - destruct (I2SSpeaker_start_same env w1) as [T _]. exact T.
    - reflexivity. }
  destruct (if negb (I2SSpeaker._active (speaker w1))
            then I2SSpeaker_start env w1 else (ESP_OK, w1)) as [err w2].
  cbn [snd] in Hstart.
  destruct (negb (err =? ESP_OK)); [cbn [world_of]; rewrite Hstart; congruence|].
  match goal with |- context [startStreaming codec env fs filePath ?x] =>
    destruct (startStreaming_same codec env fs filePath x) as [T4 _];
    destruct (startStreaming codec env fs filePath x) as [success w4 | w4 | w4]
  end; cbn [bind world_of returned] in *; try discriminate.
  destruct success; cbn [negb].
  - destruct (playLoop codec env fuel w4); cbn [bind returned]; discriminate.
  - cbn [world_of]. cbn [trace with_player]. rewrite T4. cbn [trace with_player].
    rewrite Hstart. congruence.
Qed.
End SinkFailure.

Lemma C1_failed_write_witness :
  let r := playFileWithProgress TestCodec.codec brokenSinkEnv (oneFile twoFrames)
                                path f32_half false 10 readyWorld in
  trace (world_of r)
  = [EvClear ESP_ERR_INVALID_STATE;
     EvWriteSamples [0; 128; 256] ESP_ERR_INVALID_STATE;
     EvFrame 3 (mkInfo 11025 1 128000 0 true)]
  /\ returned r = Some true
  /\ returned r <> Some false.
Proof.
  split; [vm_compute; reflexivity|].
  split; [vm_compute; reflexivity|].
  apply (C1_failed_write_is_not_reported
           TestCodec.codec brokenSinkEnv (oneFile twoFrames) path f32_half false 10
           readyWorld).
  - reflexivity.
  - vm_compute. reflexivity.
Defined.

(** ** The window under a codec that never errs on an emptied window *)

Lemma streaming_at_inv {D} (w : World D) (buf : list Z) (rp : Z) :
  streaming_at w buf rp -> stream_inv w.
Proof.
  intros (Hs & Hi & Ho & Hb & Hl & Hr & H0 & H1 & H2).
  split.
  - unfold window_invariant. rewrite Hr. repeat split; assumption.
  - intros _. split; [exact Hi|]. exists buf, rp. repeat split; assumption.
Qed.

Lemma stopStreaming_inv {D} (w : World D) :
  stream_inv w -> stream_inv (with_decoder stopStreaming w).
Proof.
  intros [Hw Hb]. unfold stream_inv, stopStreaming.
  cbn [decoder with_decoder].
  destruct (_streaming (decoder w)) eqn:Hs; cbn [negb].
  - split.
    + unfold window_invariant. cbn. reflexivity.
    + cbn. destruct (isOpen (_streamFile (decoder w))); cbn; discriminate.
  - split; [exact Hw|]. rewrite Hs. discriminate.
Qed.

Lemma fillStreamBuffer_keeps_flags {D} (w : World D) :
  let w' := world_of (fillStreamBuffer w) in
  _streaming (decoder w') = _streaming (decoder w) /\ trace w' = trace w.
Proof.
  unfold fillStreamBuffer.
  repeat match goal with
         | |- context [if ?c then _ else _] => destruct c
         | |- context [match ?o with Some _ => _ | None => _ end] => destruct o
         | |- context [let (_, _) := ?p in _] => destruct p
         end; split; reflexivity.
Qed.

Lemma fillStreamBuffer_stream_inv {D} (w : World D) :
  stream_inv w ->
  let w' := world_of (fillStreamBuffer w) in
  stream_inv w' /\ _streaming (decoder w') = _streaming (decoder w)
  /\ trace w' = trace w.
Proof.
  intros H. cbv zeta.
  destruct (fillStreamBuffer_keeps_flags w) as [S' T']. cbv zeta in S', T'.
  split; [|split; assumption].
  destruct (_streaming (decoder w)) eqn:Hs.
  - destruct (isOpen (_streamFile (decoder w))) eqn:Ho.
    + destruct H as [Hw Hb].
      destruct (Hb Hs) as (Hi & buf & rp & B & L & R).
      assert (Hat : streaming_at w buf rp).
      { unfold window_invariant in Hw. rewrite R in Hw.
        unfold streaming_at. repeat split; try assumption; apply Hw. }
      destruct (fillStreamBuffer_streaming w buf rp Hat)
        as (b & w' & E & T & _ & (buf' & rp' & Hat') & _).
      rewrite E. cbn [world_of].
      apply (streaming_at_inv w' buf' rp' Hat').
    + rewrite (fillStreamBuffer_drained w (or_introl Ho)). exact H.
  - split.
    + apply fillStreamBuffer_invariant. apply H.
    + rewrite S'. discriminate.
Qed.

Section Window.
Context {D : Type} (codec : Codec D) (env : Env).

Lemma stop_stream_inv (w : World D) : stream_inv w -> stream_inv (stop w).
Proof.
  intro H. unfold stop.
  destruct (MP3Player._playing (player w)); [|exact H].
  cbn [decoder with_player].
  destruct (_streaming (decoder w)); [|exact H].
  apply (stopStreaming_inv (with_player (set_playing false) w)). exact H.
Qed.

Lemma yield_stream_inv (w : World D) : stream_inv w -> stream_inv (yield env w).
Proof.
  intro H. unfold yield.
  destruct (stop_requested env (clock w)); [|exact H].
  apply stop_stream_inv. exact H.
Qed.

Lemma streamingCallback_stream_inv
      (data : list Z) (n : Z) (info : MP3Info) (w : World D) :
  stream_inv w -> stream_inv (world_of (streamingCallback env data n info w)).
Proof.
  intro H. unfold streamingCallback.
  destruct (negb (MP3Player._speaker (player w))); [exact H|].
  destruct (negb (MP3Player._playing (player w))); [exact H|].
  destruct (n =? 0); [exact H|].
  pose proof (yield_stream_inv w H) as Hy.
  set (w0 := yield env w) in *.
  destruct (negb (malloc_ok env (clock w0))); [exact Hy|].
  destruct (writeSamples_same env n (tick w0)) as (_ & _ & D2).
  destruct (writeSamples env n (tick w0)) as [result w2]. cbn [snd] in D2.
  match goal with |- context [yield env (log ?e ?x)] =>
    assert (H3 : stream_inv (yield env (log e x)))
      by (apply yield_stream_inv; unfold stream_inv; cbn [decoder log];
          rewrite D2; exact Hy);
    set (w3 := yield env (log e x)) in *
  end.
  destruct (negb (result =? ESP_OK)); [exact H3|].
  match goal with |- context [with_player ?f w3] => set (w4 := with_player f w3) end.
  assert (H4 : stream_inv w4) by exact H3.
  match goal with
  | |- context [if ?c then yield env ?x else w4] =>
      assert (H5 : stream_inv (if c then yield env x else w4))
        by (destruct c; [apply yield_stream_inv|]; exact H4);
      set (w5 := if c then yield env x else w4) in *
  end.
  destruct (MP3Player._playing (player w5)); exact H5.
Qed.

Lemma window_safe_callback
      (data : list Z) (n : Z) (info : MP3Info) (w : World D) :
  window_safe w -> window_safe (world_of (streamingCallback env data n info w)).
Proof.
  intros [H1 H2]. split.
  - apply streamingCallback_stream_inv. exact H1.
  - apply (streamingCallback_inv env (fun w => skips_positive (trace w) = true));
      try (intros; assumption).
    intros w1 w2 T _ _ Hw. rewrite T. exact Hw.
Qed.

Lemma window_safe_fill (w : World D) :
  window_safe w -> window_safe (world_of (fillStreamBuffer w)).
Proof.
  intros [H1 H2].
  destruct (fillStreamBuffer_stream_inv w H1) as (A & _ & T). cbv zeta in A, T.
  split; [exact A | rewrite T; exact H2].
Qed.

Lemma window_safe_refill (retry : World D -> Res D bool) (w : World D) :
  (forall w1, window_safe w1 -> window_safe (world_of (retry w1))) ->
  window_safe w -> window_safe (world_of (refillAndRetry retry w)).
Proof.
  intros IH H. unfold refillAndRetry.
  pose proof (window_safe_fill w H) as A.
  destruct (fillStreamBuffer w) as [b w1 | w1 | w1]; cbn [bind world_of] in *;
    try exact A.
  destruct b; cbn [world_of]; [apply IH|]; exact A.
Qed.

Lemma window_safe_topUp (w : World D) :
  window_safe w -> window_safe (world_of (topUp w)).
Proof.
  intro H. unfold topUp.
  destruct ((_bytesLeft (decoder w) <? INPUT_BUFFER_SIZE)
            && negb (File_available (_streamFile (decoder w)) =? 0));
    [|exact H].
  pose proof (window_safe_fill w H) as A.
  destruct (fillStreamBuffer w); exact A.
Qed.

(** A skip with an unread byte to skip keeps the window. *)
Lemma window_safe_resync (retry : World D -> Res D bool) (w : World D) (rp : Z) :
  (forall w1, window_safe w1 -> window_safe (world_of (retry w1))) ->
  _readPtr (decoder w) = Some rp ->
  0 < _bytesLeft (decoder w) ->
  window_safe w -> window_safe (world_of (resync retry w)).
Proof.
  intros IH Hr Hpos [[Hw Hb] H2].
  assert (Hbound : 0 <= rp /\ rp + _bytesLeft (decoder w) <= 8192).
  { unfold window_invariant, STREAM_BUFFER_SIZE in Hw. rewrite Hr in Hw. lia. }
  destruct (skipByte_exact w rp Hr) as (R1 & B1 & U1 & F1 & T1); [lia|].
  assert (S1 : window_safe (skipByte w)).
  { split; [split|].
    - unfold window_invariant, STREAM_BUFFER_SIZE. rewrite R1, B1. lia.
    - intros Hs. destruct (Hb Hs) as (Hi & buf & rp0 & B & L & R).
      split; [exact Hi|].
      exists buf, (rp + 1). rewrite U1. repeat split; assumption.
    - rewrite T1. cbn [skips_positive forallb].
      destruct (Z.ltb_spec 0 (_bytesLeft (decoder w))); [|lia].
      exact H2. }
  unfold resync.
  destruct (_bytesLeft (decoder (skipByte w)) =? 0).
  - apply window_safe_refill; assumption.
  - apply IH. exact S1.
Qed.

Lemma window_length (buf : list Z) (rp n : Z) :
  0 <= rp -> 0 <= n -> rp + n <= Z.of_nat (length buf) ->
  Z.of_nat (length (window buf rp n)) = n.
Proof.
  intros H0 H1 H2. unfold window. rewrite length_firstn, length_skipn. lia.
Qed.

Hypothesis codec_ok : codec_within_window codec.
Hypothesis errors_ok : error_leaves_byte codec.

(** With a codec that stays inside its window and never reports an error
    on a window it has emptied, the window invariant holds after every call
    of the frame loop, and every one-byte skip had a byte to skip. *)
Lemma processStreamFrame_window_safe (fuel : nat) :
  forall w : World D,
    window_safe w ->
    window_safe (world_of (processStreamFrame codec (streamingCallback env) fuel w)).
Proof.
  induction fuel as [|fuel IH]; intros w Hw; [exact Hw|].
  cbn [processStreamFrame].
  destruct (_streaming (decoder w)) eqn:Hs; cbn [negb orb]; [|exact Hw].
  destruct (_initialized (decoder w)) eqn:Hi; cbn [negb]; [|exact Hw].
  pose proof Hw as [[Hinv Hb] Hsk].
  destruct (Hb Hs) as (_ & buf & rp & B & L & R).
  rewrite B, R.
  unfold window_invariant in Hinv. rewrite R in Hinv.
  unfold STREAM_BUFFER_SIZE in *.
  set (bl := _bytesLeft (decoder w)) in *.
  rewrite to_int_small by lia.
  destruct codec_ok as [Hsync Hdec].
  pose proof (Hsync (window buf rp bl)) as Hoff.
  rewrite window_length in Hoff by lia.
  set (offset := MP3FindSyncWord codec (window buf rp bl)) in *.
  destruct (Z.ltb_spec offset 0) as [_ | Hge].
  { apply window_safe_refill; assumption. }
  rewrite (size_wrap_small (bl - offset)) by lia.
  destruct (MP3GetNextFrameInfo codec (_decoder (decoder w))
              (skipn (Z.to_nat (rp + offset)) buf)) as [[dec1 result] fi].
  match goal with |- context [resync _ ?x] => set (w1 := x) end.
  assert (S1 : window_safe w1).
  { split; [split|].
    - unfold window_invariant, STREAM_BUFFER_SIZE. cbn. lia.
    - intros _. split; [exact Hi|]. exists buf, (rp + offset).
      repeat split; assumption.
    - exact Hsk. }
  destruct (negb (result =? 0)).
  { apply (window_safe_resync
             (processStreamFrame codec (streamingCallback env) fuel)
             w1 (rp + offset)); try assumption; try reflexivity.
    cbn. lia. }
  rewrite (to_int_small (bl - offset)) by lia.
  pose proof (Hdec dec1 (window buf (rp + offset) (bl - offset))) as Hc.
  pose proof (errors_ok dec1 (window buf (rp + offset) (bl - offset))) as He.
  rewrite window_length in Hc, He by lia.
  unfold decode_consumed, decode_status in Hc, He.
  destruct (MP3Decode codec dec1 (window buf (rp + offset) (bl - offset)))
    as [[[dec2 result2] consumed] pcm].
  cbn [fst snd] in Hc, He.
  match goal with |- context [resync _ ?x] => set (w3 := x) end.
  assert (R3 : _readPtr (decoder w3) = Some (rp + offset + consumed))
    by (subst w3; cbn; destruct (_firstFrame (decoder w)); reflexivity).
  assert (B3 : _bytesLeft (decoder w3) = bl - offset - consumed).
  { subst w3. cbn. destruct (_firstFrame (decoder w)); cbn;
      apply size_wrap_small; lia. }
  assert (U3 : _streamBuffer (decoder w3) = Some buf)
    by (subst w3; cbn; destruct (_firstFrame (decoder w)); cbn; exact B).
  assert (I3 : _initialized (decoder w3) = true)
    by (subst w3; cbn; destruct (_firstFrame (decoder w)); cbn; exact Hi).
  assert (T3 : trace w3 = trace w)
    by (subst w3; cbn; destruct (_firstFrame (decoder w)); reflexivity).
  assert (S3 : window_safe w3).
  { split; [split|].
    - unfold window_invariant, STREAM_BUFFER_SIZE. rewrite R3, B3. lia.
    - intros _. split; [exact I3|]. exists buf, (rp + offset + consumed).
      repeat split; assumption.
    - rewrite T3. exact Hsk. }
  destruct (Z.eqb_spec result2 0) as [Hr0 | Hr0]; cbn [negb].
  - destruct (_callback (decoder w3)).
    2:{ apply window_safe_topUp. exact S3. }
    match goal with |- context [streamingCallback env ?a ?b ?c ?x] =>
      assert (E : window_safe (world_of (streamingCallback env a b c x)))
        by (apply window_safe_callback; destruct S3 as [S3a S3b];
            split; [exact S3a | exact S3b]);
      destruct (streamingCallback env a b c x) as [continue w4 | w4 | w4]
    end; cbn [bind world_of] in *; try exact E.
    destruct continue.
    + apply window_safe_topUp. exact E.
    + cbn [world_of]. destruct E as [E1 E2].
      split; [apply stopStreaming_inv; exact E1 | exact E2].
  - destruct (Z.eqb_spec result2 (ERR_MP3_INDATA_UNDERFLOW codec)) as [Hu | Hu].
    + apply window_safe_refill; assumption.
    + apply (window_safe_resync
               (processStreamFrame codec (streamingCallback env) fuel)
               w3 (rp + offset + consumed)); try assumption.
      rewrite B3. specialize (He Hr0 Hu). lia.
Qed.
End Window.

Lemma TestCodec_findSync_bound (w : list Z) :
  forall i, 0 <= i -> TestCodec.findSync w i < i + Z.of_nat (length w).
Proof.
  induction w as [|a rest IH]; intros i Hi; [cbn [TestCodec.findSync]; lia|].
  cbn [TestCodec.findSync]. destruct rest as [|b rest']; [lia|].
  destruct ((Z.land a 255 =? 255) && (Z.land b 224 =? 224)).
  - cbn [length]. lia.
  - specialize (IH (i + 1)). cbn [length] in *. lia.
Qed.

Lemma strictCodec_within_window : codec_within_window TestCodec.strictCodec.
Proof.
  split.
  - intros w. cbn. pose proof (TestCodec_findSync_bound w 0). lia.
  - intros d w. unfold decode_consumed. cbn [MP3Decode TestCodec.strictCodec].
    unfold TestCodec.strictDecode.
    destruct (TestCodec.decode d w) as [[[d' r] c] pcm].
    destruct (negb (r =? 0)); cbn [fst snd]; [lia|].
    destruct ((0 <=? c) && (c <=? Z.of_nat (length w))) eqn:E; cbn [fst snd]; [|lia].
    apply andb_true_iff in E. destruct E as [E1 E2].
    apply Z.leb_le in E1, E2. lia.
Qed.

Lemma strictCodec_error_leaves_byte : error_leaves_byte TestCodec.strictCodec.
Proof.
  intros d w. unfold decode_status, decode_consumed.
  cbn [MP3Decode ERR_MP3_INDATA_UNDERFLOW TestCodec.strictCodec].
  unfold TestCodec.strictDecode.
  destruct w as [|a rest].
  - cbn. intros _ H. exfalso. apply H. reflexivity.
  - cbn [length].
    destruct (TestCodec.decode d (a :: rest)) as [[[d' r] c] pcm].
    destruct (Z.eqb_spec r 0) as [E|E]; cbn [negb fst snd]; [|lia].
    destruct ((0 <=? c) && (c <=? Z.of_nat (S (length rest))));
      cbn [fst snd]; [|lia].
    intros H. exfalso. apply H. exact E.
Qed.

(** The frame loop keeps the window invariant with the strict decoder,
    whatever the file and the environment. *)
Lemma strictCodec_window_safe (env : Env) (fuel : nat) (w : World bool) :
  window_safe w ->
  window_safe (world_of (processStreamFrame TestCodec.strictCodec
                           (streamingCallback env) fuel w)).
Proof.
  apply processStreamFrame_window_safe.
  - exact strictCodec_within_window.
  - exact strictCodec_error_leaves_byte.
Qed.

(** * Further properties of the code *)

(** ** Refill and stream start *)

(** X1.  A refill of a stream in progress never loses, repeats or reorders
    a byte: the unread window followed by what the source still holds is
    the same byte sequence before and after.  The call returns, and it
    returns true exactly when the window has grown. *)
Theorem fillStreamBuffer_keeps_stream {D} (w : World D) (buf : list Z) (rp : Z) :
  streaming_at w buf rp ->
  exists b w',
    fillStreamBuffer w = Ret b w'
    /\ unread (decoder w') ++ pending (_streamFile (decoder w'))
       = unread (decoder w) ++ pending (_streamFile (decoder w))
    /\ (if b then _bytesLeft (decoder w) < _bytesLeft (decoder w')
        else _bytesLeft (decoder w') = _bytesLeft (decoder w))
    /\ player w' = player w /\ trace w' = trace w.
Proof.
  intros Hat.
  destruct (fillStreamBuffer_streaming w buf rp Hat)
    as (b & w' & E & T & _ & _ & Hfalse & Htrue).
  pose proof (fillStreamBuffer_same w) as [_ P]. cbv zeta in P.
  rewrite E in P. cbn [world_of] in P.
  destruct b.
  - destruct (Htrue eq_refl) as (_ & U & _ & G).
    exists true, w'. repeat split; assumption.
  - destruct (Hfalse eq_refl) as (_ & [Ha | Hfull]).
    + exists false, w.
      split; [apply fillStreamBuffer_drained; right; exact Ha|].
      repeat split; reflexivity.
    + destruct (fillStreamBuffer_full w buf rp Hat Hfull)
        as (w2 & E2 & U2 & F2 & B2 & P2 & T2 & _).
      exists false, w2. rewrite U2, F2.
      repeat split; assumption.
Qed.

Lemma fillStreamBuffer_keeps_stream_witness :
  exists b w',
    fillStreamBuffer longTailWorld = Ret b w'
    /\ unread (decoder w') ++ pending (_streamFile (decoder w'))
       = unread (decoder longTailWorld)
         ++ pending (_streamFile (decoder longTailWorld))
    /\ (if b then _bytesLeft (decoder longTailWorld) < _bytesLeft (decoder w')
        else _bytesLeft (decoder w') = _bytesLeft (decoder longTailWorld))
    /\ player w' = player longTailWorld /\ trace w' = trace longTailWorld.
Proof.
  apply (fillStreamBuffer_keeps_stream
           longTailWorld (goodFrame1 ++ repeat 0 (Z.to_nat 8186)) 6).
  vm_compute. repeat split; discriminate.
Defined.

Lemma fillStreamBuffer_callback {D} (w : World D) :
  _callback (decoder (world_of (fillStreamBuffer w))) = _callback (decoder w).
Proof.
  unfold fillStreamBuffer.
  repeat match goal with
         | |- context [if ?c then _ else _] => destruct c
         | |- context [match ?o with Some _ => _ | None => _ end] => destruct o
         | |- context [let (_, _) := ?p in _] => destruct p
         end; reflexivity.
Qed.

(** The probe gives no record. *)
Ltac refused Same :=
  eexists None, _; split; [reflexivity|];
  split; [first [exact Same | eexists; reflexivity]|];
  split; [reflexivity|]; split; [reflexivity|]; split; [reflexivity|];
  split; [intros ? [=] | intros; reflexivity].

Section Start.
Context {D : Type} (codec : Codec D) (env : Env) (fs : SPIFFS).

(** The probe returns, touches nothing but the codec state and the clock,
    and gives a record only for a file that exists and is not empty. *)
Lemma getFileInfo_effect (filePath : String.string) (w : World D) :
  exists o w',
    getFileInfo codec env fs filePath w = Ret o w'
    /\ (exists x, decoder w' = set_decoder x (decoder w))
    /\ trace w' = trace w /\ player w' = player w /\ speaker w' = speaker w
    /\ (forall i, o = Some i ->
                  valid i = true
                  /\ exists bytes fi,
                      fs filePath = Some bytes /\ bytes <> []
                      /\ probe codec (_decoder (decoder w)) bytes = Some fi
                      /\ sampleRate i = samprate fi
                      /\ channels i = nChans fi
                      /\ bitRate i = bitrate fi)
    /\ (forall bytes, fs filePath = Some bytes ->
                      probe codec (_decoder (decoder w)) bytes = None ->
                      o = None).
Proof.
  assert (Same : exists x, decoder w = set_decoder x (decoder w)).
  { exists (_decoder (decoder w)). destruct (decoder w). reflexivity. }
  assert (Tick : exists x, decoder (tick w) = set_decoder x (decoder w))
    by exact Same.
  unfold getFileInfo.
  destruct (negb (_initialized (decoder w))); [refused Same|].
  unfold File_open.
  destruct (fs filePath) as [bytes|] eqn:Hfs; cbn [isOpen negb];
    [|refused Same].
  destruct (Z.eqb_spec (File_size (mkFile true bytes 0)) 0) as [Hz | Hz];
    [refused Same|].
  assert (Hne : bytes <> []).
  { intros ->. apply Hz. reflexivity. }
  destruct (negb (malloc_ok env (clock w))); [refused Tick|].
  assert (Hread : fst (File_read (mkFile true bytes 0)
                                 (Z.min (File_size (mkFile true bytes 0)) 4096))
                  = firstn (Z.to_nat 4096) bytes).
  { unfold File_read, File_size. cbn [isOpen contents position skipn fst].
    destruct (Z.le_gt_cases (Z.of_nat (length bytes)) 4096).
    - rewrite Z.min_l by lia. rewrite !firstn_all2 by lia. reflexivity.
    - rewrite Z.min_r by lia. reflexivity. }
  rewrite Hread.
  set (buffer := firstn (Z.to_nat 4096) bytes).
  destruct (_ =? 0); [refused Tick|].
  assert (Hprobe : probe codec (_decoder (decoder w)) bytes
                   = if MP3FindSyncWord codec buffer <? 0 then None
                     else let '(_, result, frameInfo) :=
                            MP3GetNextFrameInfo codec (_decoder (decoder w))
                              (skipn (Z.to_nat (MP3FindSyncWord codec buffer)) buffer) in
                          if result =? 0 then Some frameInfo else None)
    by reflexivity.
  destruct (MP3FindSyncWord codec buffer <? 0); [refused Tick|].
  destruct (MP3GetNextFrameInfo codec _ _) as [[dec1 result] fi].
  destruct (result =? 0); cbn [negb]; [|refused Tick].
  eexists (Some _), _. split; [reflexivity|].
  split; [exists dec1; reflexivity|].
  split; [reflexivity|]. split; [reflexivity|]. split; [reflexivity|].
  split.
  - intros i [= <-]. split; [reflexivity|].
    exists bytes, fi. repeat split; assumption.
  - intros bytes' [= <-] Hnone. rewrite Hnone in Hprobe. discriminate Hprobe.
Qed.

Lemma startStreaming_cases (filePath : String.string) (w : World D) :
  _initialized (decoder w) = true ->
  _streaming (decoder w) = false ->
  exists b w',
    startStreaming codec env fs filePath w = Ret b w'
    /\ trace w' = trace w /\ player w' = player w
    /\ (b = false ->
        _streaming (decoder w') = false
        /\ isOpen (_streamFile (decoder w')) = false)
    /\ (b = true ->
        exists bytes buf,
          fs filePath = Some bytes
          /\ streaming_at w' buf 0
          /\ unread (decoder w') ++ pending (_streamFile (decoder w')) = bytes
          /\ (_bytesLeft (decoder w') = STREAM_BUFFER_SIZE
              \/ File_available (_streamFile (decoder w')) = 0)
          /\ _firstFrame (decoder w') = true
          /\ _callback (decoder w') = true
          /\ valid (_streamInfo (decoder w')) = true)
    /\ (forall bytes, fs filePath = Some bytes ->
                      probe codec (_decoder (decoder w)) bytes = None ->
                      b = false).
Proof.
  intros Hi Hs. unfold startStreaming. rewrite Hi, Hs. cbn [negb orb].
  unfold File_open.
  destruct (fs filePath) as [bytes|] eqn:Hfs; cbn [isOpen negb].
  2:{ eexists false, _. split; [reflexivity|].
      split; [reflexivity|]. split; [reflexivity|].
      split; [intros _; split; [exact Hs | reflexivity]|].
      split; [discriminate | reflexivity]. }
  destruct (negb (malloc_ok env _)).
  { eexists false, _. split; [reflexivity|].
    split; [reflexivity|]. split; [reflexivity|].
    split; [intros _; split; [exact Hs | reflexivity]|].
    split; [discriminate | reflexivity]. }
  match goal with |- context [getFileInfo codec env fs filePath ?x] =>
    set (w3 := x);
    destruct (getFileInfo_effect filePath w3)
      as (o & w4 & E & (x0 & Hd) & T4 & P4 & _ & Hv & Hn)
  end.
  rewrite E. cbn [bind].
  destruct o as [i|].
  2:{ eexists false, _. split; [reflexivity|].
      cbn [trace player with_decoder decoder]. rewrite T4, P4, Hd.
      split; [reflexivity|]. split; [reflexivity|].
      split; [intros _; split; [exact Hs | reflexivity]|].
      split; [discriminate | reflexivity]. }
  destruct (Hv i eq_refl) as (Hvalid & _).
  assert (Hprobed : forall bytes0, Some bytes = Some bytes0 ->
                      probe codec (_decoder (decoder w)) bytes0 = None -> False).
  { intros bytes0 Hb0 Hnone.
    specialize (Hn bytes0 (eq_trans Hfs Hb0) Hnone). discriminate Hn. }
  match goal with |- context [fillStreamBuffer ?x] => set (w5 := x) end.
  set (buf0 := repeat 0 (Z.to_nat STREAM_BUFFER_SIZE)).
  assert (Hat : streaming_at w5 buf0 0).
  { unfold streaming_at. subst w5. cbn [decoder with_decoder]. rewrite Hd.
    subst w3. cbn. rewrite Hi.
    split; [reflexivity|]. split; [reflexivity|]. split; [reflexivity|].
    split; [reflexivity|].
    split; [subst buf0; rewrite repeat_length; unfold STREAM_BUFFER_SIZE; lia|].
    split; [reflexivity|]. unfold STREAM_BUFFER_SIZE. lia. }
  assert (U5 : unread (decoder w5) = []).
  { unfold unread. subst w5. cbn [decoder with_decoder]. rewrite Hd. reflexivity. }
  assert (F5 : pending (_streamFile (decoder w5)) = bytes).
  { subst w5. cbn [decoder with_decoder]. rewrite Hd. reflexivity. }
  assert (M5 : meta w5 = (i, true)
               /\ _callback (decoder w5) = true
               /\ trace w5 = trace w /\ player w5 = player w).
  { subst w5. unfold meta. cbn [decoder with_decoder trace player].
    rewrite Hd, T4, P4. repeat split. }
  destruct M5 as (M5 & C5 & T5 & P5).
  destruct (fillStreamBuffer_streaming w5 buf0 0 Hat)
    as (b & w6 & E6 & T6 & O6 & _ & _ & Htrue).
  pose proof (fillStreamBuffer_same w5) as [_ P6]. cbv zeta in P6.
  pose proof (fillStreamBuffer_meta w5) as M6.
  pose proof (fillStreamBuffer_callback w5) as C6.
  rewrite E6 in P6, M6, C6 |- *. cbn [world_of bind] in *.
  destruct b.
  - exists true, w6. split; [reflexivity|].
    split; [congruence|]. split; [congruence|].
    split; [discriminate|].
    split; [|intros bytes0 Hb0 Hnone; destruct (Hprobed bytes0 Hb0 Hnone)].
    intros _.
    destruct (Htrue eq_refl) as ((buf' & Hat') & U & Hfill & _).
    exists bytes, buf'. split; [reflexivity|]. split; [exact Hat'|].
    split; [rewrite U, U5, F5; reflexivity|].
    split; [exact Hfill|].
    unfold meta in M6, M5. rewrite M5 in M6.
    injection M6 as Mi Mf.
    repeat split; try congruence.
  - eexists false, _. split; [reflexivity|].
    cbn [trace player with_decoder decoder].
    split; [congruence|]. split; [congruence|].
    split; [|split; [discriminate | reflexivity]]. intros _.
    destruct Hat as (S5 & _).
    pose proof (fillStreamBuffer_keeps_flags w5) as [S6 _]. cbv zeta in S6.
    rewrite E6 in S6. cbn [world_of] in S6.
    unfold stopStreaming. rewrite S6, S5. cbn [negb].
    cbn [set_streaming _streamFile]. rewrite O6. split; reflexivity.
Qed.

(** X2.  A successful startStreaming leaves a stream in progress whose
    window starts at the block and holds the first bytes of the file, as
    many as the file has or the block takes; window and source together
    are the whole file, no metadata is latched yet, the callback is
    installed and the probed record is valid. *)
Theorem startStreaming_opens_window
        (filePath : String.string) (w w' : World D) :
  startStreaming codec env fs filePath w = Ret true w' ->
  exists bytes buf,
    fs filePath = Some bytes
    /\ streaming_at w' buf 0
    /\ unread (decoder w') ++ pending (_streamFile (decoder w')) = bytes
    /\ _bytesLeft (decoder w')
       = Z.min (Z.of_nat (length bytes)) STREAM_BUFFER_SIZE
    /\ _firstFrame (decoder w') = true
    /\ _callback (decoder w') = true
    /\ valid (_streamInfo (decoder w')) = true.
Proof.
  intro H.
  destruct (_initialized (decoder w)) eqn:Hi.
  2:{ unfold startStreaming in H. rewrite Hi in H. discriminate H. }
  destruct (_streaming (decoder w)) eqn:Hs.
  { unfold startStreaming in H. rewrite Hi, Hs in H. discriminate H. }
  destruct (startStreaming_cases filePath w Hi Hs)
    as (b & w1 & E & _ & _ & _ & Htrue & _).
  rewrite E in H. injection H as -> ->.
  destruct (Htrue eq_refl) as (bytes & buf & Hfs & Hat & U & Hfill & F & C & V).
  exists bytes, buf.
  split; [exact Hfs|]. split; [exact Hat|]. split; [exact U|].
  split; [|split; [exact F|split; [exact C|exact V]]].
  pose proof (unread_length w' buf 0 Hat) as Lu.
  pose proof (pending_length (_streamFile (decoder w'))) as Lp.
  assert (Lb : Z.of_nat (length bytes)
               = Z.of_nat (length (unread (decoder w')))
                 + Z.of_nat (length (pending (_streamFile (decoder w')))))
    by (rewrite <- U, length_app; lia).
  destruct Hat as (_ & _ & _ & _ & _ & _ & _ & H1 & H2).
  unfold STREAM_BUFFER_SIZE in *. lia.
Qed.

(** X3.  startStreaming on an initialised decoder that is not streaming
    returns, and it is all or nothing: it returns true with the stream in
    progress and the file open, or false with no stream and the file handle
    closed.  Either way the player is not touched. *)
Theorem startStreaming_all_or_nothing (filePath : String.string) (w : World D) :
  _initialized (decoder w) = true ->
  _streaming (decoder w) = false ->
  exists b w',
    startStreaming codec env fs filePath w = Ret b w'
    /\ _streaming (decoder w') = b
    /\ isOpen (_streamFile (decoder w')) = b
    /\ player w' = player w.
Proof.
  intros Hi Hs.
  destruct (startStreaming_cases filePath w Hi Hs)
    as (b & w' & E & _ & P & Hfalse & Htrue & _).
  exists b, w'. split; [exact E|].
  destruct b.
  - destruct (Htrue eq_refl) as (bytes & buf & _ & Hat & _).
    destruct Hat as (S' & _ & O' & _). repeat split; assumption.
  - destruct (Hfalse eq_refl) as [S' O']. repeat split; assumption.
Qed.
End Start.

Lemma startStreaming_opens_window_witness :
  exists bytes buf,
    oneFile twoFrames path = Some bytes
    /\ streaming_at (streamOver twoFrames readyWorld) buf 0
    /\ unread (decoder (streamOver twoFrames readyWorld))
       ++ pending (_streamFile (decoder (streamOver twoFrames readyWorld)))
       = bytes
    /\ _bytesLeft (decoder (streamOver twoFrames readyWorld))
       = Z.min (Z.of_nat (length bytes)) STREAM_BUFFER_SIZE
    /\ _firstFrame (decoder (streamOver twoFrames readyWorld)) = true
    /\ _callback (decoder (streamOver twoFrames readyWorld)) = true
    /\ valid (_streamInfo (decoder (streamOver twoFrames readyWorld))) = true.
Proof.
  apply (startStreaming_opens_window
           TestCodec.codec calmEnv (oneFile twoFrames) path readyWorld).
  vm_compute. reflexivity.
Defined.

Lemma startStreaming_all_or_nothing_witness :
  exists b w',
    startStreaming TestCodec.codec calmEnv (oneFile noSyncFile) path playingWorld
    = Ret b w'
    /\ _streaming (decoder w') = b
    /\ isOpen (_streamFile (decoder w')) = b
    /\ player w' = player playingWorld.
Proof.
  apply (startStreaming_all_or_nothing
           TestCodec.codec calmEnv (oneFile noSyncFile) path playingWorld);
    reflexivity.
Defined.

(** ** The frame loop returns *)

Lemma stopStreaming_idempotent {D} (d : MP3Decoder.t D) :
  stopStreaming (stopStreaming d) = stopStreaming d.
Proof.
  unfold stopStreaming.
  destruct (_streaming d) eqn:Hs; cbn [negb].
  - destruct (isOpen (_streamFile (set_streaming false d))); reflexivity.
  - rewrite Hs. reflexivity.
Qed.

Lemma File_available_nonneg (f : File) : 0 <= File_available f.
Proof. unfold File_available. destruct (isOpen f); lia. Qed.

Lemma stopStreaming_fields {D} (d : MP3Decoder.t D) :
  _streaming d = true ->
  _streaming (stopStreaming d) = false
  /\ _bytesLeft (stopStreaming d) = 0
  /\ _readPtr (stopStreaming d) = None
  /\ _streamBuffer (stopStreaming d) = None
  /\ _callback (stopStreaming d) = false
  /\ isOpen (_streamFile (stopStreaming d)) = false.
Proof.
  intro Hs. unfold stopStreaming. rewrite Hs. cbn [negb].
  cbn [set_streaming _streamFile].
  destruct (isOpen (_streamFile d)) eqn:Ho; repeat split; exact Ho.
Qed.

Lemma stopStreaming_left {D} (w : World D) :
  stream_inv w ->
  stream_left (with_decoder stopStreaming w) <= stream_left w.
Proof.
  intros [Hw _]. unfold stream_left. cbn [decoder with_decoder].
  destruct (_streaming (decoder w)) eqn:Hs.
  - destruct (stopStreaming_fields (decoder w) Hs) as (_ & -> & _ & _ & _ & Ho).
    unfold File_available at 1. rewrite Ho.
    assert (0 <= _bytesLeft (decoder w)).
    { unfold window_invariant in Hw. destruct (_readPtr (decoder w)); lia. }
    pose proof (File_available_nonneg (_streamFile (decoder w))).
    lia.
  - unfold stopStreaming. rewrite Hs. cbn [negb]. lia.
Qed.

Section Returns.
Context {D : Type} (codec : Codec D) (env : Env).

Lemma stop_decoder (w : World D) :
  decoder (stop w) = decoder w \/ decoder (stop w) = stopStreaming (decoder w).
Proof.
  unfold stop. destruct (MP3Player._playing (player w)); [|left; reflexivity].
  cbn [decoder with_player].
  destruct (_streaming (decoder w)); [right|left]; reflexivity.
Qed.

Lemma yield_decoder (w : World D) :
  decoder (yield env w) = decoder w
  \/ decoder (yield env w) = stopStreaming (decoder w).
Proof.
  unfold yield. destruct (stop_requested env (clock w)); [|left; reflexivity].
  apply (stop_decoder (log EvStop (tick w))).
Qed.

Lemma stopped_or_same_trans (w w1 w2 : World D) :
  decoder w1 = decoder w \/ decoder w1 = stopStreaming (decoder w) ->
  decoder w2 = decoder w1 \/ decoder w2 = stopStreaming (decoder w1) ->
  decoder w2 = decoder w \/ decoder w2 = stopStreaming (decoder w).
Proof.
  intros [A | A] [B | B]; rewrite B, A;
    [left | right | right | right]; try reflexivity.
  apply stopStreaming_idempotent.
Qed.

(** The stream callback returns, and all it can do to the decoder is to
    stop the stream. *)
Lemma streamingCallback_returns
      (data : list Z) (n : Z) (info : MP3Info) (w : World D) :
  exists b w',
    streamingCallback env data n info w = Ret b w'
    /\ (decoder w' = decoder w \/ decoder w' = stopStreaming (decoder w)).
Proof.
  unfold streamingCallback.
  destruct (negb (MP3Player._speaker (player w)));
    [eexists _, _; split; [reflexivity | left; reflexivity]|].
  destruct (negb (MP3Player._playing (player w)));
    [eexists _, _; split; [reflexivity | left; reflexivity]|].
  destruct (n =? 0);
    [eexists _, _; split; [reflexivity | left; reflexivity]|].
  pose proof (yield_decoder w) as H0.
  set (w0 := yield env w) in *.
  destruct (negb (malloc_ok env (clock w0)));
    [eexists _, _; split; [reflexivity | exact H0]|].
  destruct (writeSamples_same env n (tick w0)) as (_ & _ & D2).
  destruct (writeSamples env n (tick w0)) as [result w2]. cbn [snd] in D2.
  match goal with |- context [yield env (log ?e ?x)] =>
    pose proof (yield_decoder (log e x)) as H3;
    set (w3 := yield env (log e x)) in *
  end.
  cbn [decoder log] in H3. rewrite D2 in H3. cbn [decoder tick] in H3.
  apply (stopped_or_same_trans w w0 w3 H0) in H3.
  destruct (negb (result =? ESP_OK));
    [eexists _, _; split; [reflexivity | exact H3]|].
  match goal with |- context [with_player ?f w3] => set (w4 := with_player f w3) end.
  match goal with
  | |- context [if ?c then yield env ?x else w4] =>
      assert (H5 : decoder (if c then yield env x else w4) = decoder w
                   \/ decoder (if c then yield env x else w4)
                      = stopStreaming (decoder w));
      [|set (w5 := if c then yield env x else w4) in *]
  end.
  { destruct (_ && _); [|exact H3].
    match goal with |- context [yield env ?x] =>
      apply (stopped_or_same_trans w w3 (yield env x) H3);
      exact (yield_decoder x)
    end. }
  destruct (MP3Player._playing (player w5));
    eexists _, _; (split; [reflexivity | exact H5]).
Qed.

Lemma stream_left_nonneg (w : World D) : stream_inv w -> 0 <= stream_left w.
Proof.
  intros [Hw _]. unfold stream_left.
  assert (0 <= _bytesLeft (decoder w)).
  { unfold window_invariant in Hw. destruct (_readPtr (decoder w)); lia. }
  pose proof (File_available_nonneg (_streamFile (decoder w))).
  lia.
Qed.

(** A refill of a stream in progress returns; it keeps the window and the
    length of the stream, and when it returns true the budget is lower. *)
Lemma fillStreamBuffer_returns (w : World D) :
  stream_inv w -> _streaming (decoder w) = true ->
  exists b w1,
    fillStreamBuffer w = Ret b w1
    /\ stream_inv w1 /\ _streaming (decoder w1) = true
    /\ stream_left w1 = stream_left w
    /\ frame_budget w1 <= frame_budget w
    /\ (b = true -> frame_budget w1 < frame_budget w).
Proof.
  intros H Hs.
  destruct (isOpen (_streamFile (decoder w))) eqn:Ho.
  2:{ exists false, w. split; [apply fillStreamBuffer_drained; left; exact Ho|].
      split; [exact H|]. split; [exact Hs|]. split; [reflexivity|].
      split; [lia | discriminate]. }
  pose proof H as [Hw Hb].
  destruct (Hb Hs) as (Hi & buf & rp & B & L & R).
  assert (Hat : streaming_at w buf rp).
  { unfold window_invariant in Hw. rewrite R in Hw.
    unfold streaming_at. repeat split; try assumption; apply Hw. }
  destruct (fillStreamBuffer_streaming w buf rp Hat)
    as (b & w1 & E & _ & _ & (buf1 & rp1 & Hat1) & Hfalse & Htrue).
  exists b, w1. split; [exact E|].
  split; [apply (streaming_at_inv w1 buf1 rp1 Hat1)|].
  split; [apply Hat1|].
  unfold stream_left, frame_budget.
  destruct b.
  - destruct (Htrue eq_refl) as (_ & U & _ & G).
    pose proof (unread_length w buf rp Hat) as Lu.
    pose proof (unread_length w1 buf1 rp1 Hat1) as Lu1.
    pose proof (pending_length (_streamFile (decoder w))) as Lp.
    pose proof (pending_length (_streamFile (decoder w1))) as Lp1.
    apply (f_equal (@length Z)) in U. rewrite !length_app in U.
    destruct Hat as (_ & _ & _ & _ & _ & _ & _ & A1 & _).
    destruct Hat1 as (_ & _ & _ & _ & _ & _ & _ & A2 & _).
    split; [lia|]. split; [lia|]. intros _. lia.
  - destruct (Hfalse eq_refl) as (Av & [Ha | Hfull]).
    + rewrite (fillStreamBuffer_drained w (or_intror Ha)) in E.
      injection E as <-. split; [lia|]. split; [lia | discriminate].
    + destruct (fillStreamBuffer_full w buf rp Hat Hfull)
        as (w2 & E2 & _ & F2 & B2 & _).
      rewrite E2 in E. injection E as <-. rewrite F2, B2.
      split; [lia|]. split; [lia | discriminate].
Qed.

Lemma stream_inv_decoder (w w' : World D) :
  decoder w' = decoder w -> stream_inv w -> stream_inv w'.
Proof. unfold stream_inv. intros ->. exact (fun H => H). Qed.

Lemma stream_left_decoder (w w' : World D) :
  decoder w' = decoder w -> stream_left w' = stream_left w.
Proof. unfold stream_left. intros ->. reflexivity. Qed.

Lemma returns_shorter_from (r : Res D bool) (w1 w : World D) :
  stream_left w1 <= stream_left w ->
  returns_shorter codec r w1 -> returns_shorter codec r w.
Proof.
  intros Hle (b & w' & E & I' & L' & A').
  exists b, w'. split; [exact E|]. split; [exact I'|]. split; [lia|].
  intros Hb Ha. specialize (A' Hb Ha). lia.
Qed.

(** The end of a successful call returns true and keeps the stream. *)
Lemma topUp_returns (w : World D) :
  stream_inv w ->
  _streaming (decoder w) = true
  \/ File_available (_streamFile (decoder w)) = 0 ->
  exists w', topUp w = Ret true w'
             /\ stream_inv w' /\ stream_left w' = stream_left w.
Proof.
  intros H Hor. unfold topUp.
  destruct (_bytesLeft (decoder w) <? INPUT_BUFFER_SIZE); cbn [andb];
    [|exists w; split; [reflexivity | split; [exact H | reflexivity]]].
  destruct (Z.eqb_spec (File_available (_streamFile (decoder w))) 0) as [Ha | Ha];
    cbn [negb]; [exists w; split; [reflexivity | split; [exact H | reflexivity]]|].
  destruct Hor as [Hs | Hz]; [|contradiction].
  destruct (fillStreamBuffer_returns w H Hs) as (b & w1 & E & I1 & _ & L1 & _).
  rewrite E. cbn [bind]. exists w1.
  split; [reflexivity | split; [exact I1 | exact L1]].
Qed.

Section Steps.
Variable retry : World D -> Res D bool.
Variable n : Z.
Hypothesis retry_returns :
  forall w1, stream_inv w1 -> frame_budget w1 < n ->
             returns_shorter codec (retry w1) w1.

Lemma refillAndRetry_returns (w : World D) :
  stream_inv w -> _streaming (decoder w) = true -> frame_budget w <= n ->
  returns_shorter codec (refillAndRetry retry w) w.
Proof.
  intros H Hs Hn.
  destruct (fillStreamBuffer_returns w H Hs)
    as (b & w1 & E & I1 & S1 & L1 & F1 & Ft).
  unfold refillAndRetry. rewrite E. cbn [bind].
  destruct b.
  - apply (returns_shorter_from _ w1); [lia|].
    apply retry_returns; [exact I1|]. specialize (Ft eq_refl). lia.
  - exists false, w1. split; [reflexivity|]. split; [exact I1|].
    split; [lia | discriminate].
Qed.

Lemma resync_returns (w : World D) (rp : Z) :
  stream_inv w -> _streaming (decoder w) = true ->
  _readPtr (decoder w) = Some rp ->
  0 < _bytesLeft (decoder w) ->
  frame_budget w <= n ->
  returns_shorter codec (resync retry w) w.
Proof.
  intros [Hw Hb] Hs Hr Hpos Hn.
  assert (Hbound : 0 <= rp /\ rp + _bytesLeft (decoder w) <= 8192).
  { unfold window_invariant, STREAM_BUFFER_SIZE in Hw. rewrite Hr in Hw. lia. }
  destruct (skipByte_exact w rp Hr) as (R1 & B1 & U1 & F1 & T1); [lia|].
  assert (S1 : _streaming (decoder (skipByte w)) = true) by exact Hs.
  assert (I1 : stream_inv (skipByte w)).
  { split.
    - unfold window_invariant, STREAM_BUFFER_SIZE. rewrite R1, B1. lia.
    - intros _. destruct (Hb Hs) as (Hi & buf & rp0 & B & L & R).
      split; [exact Hi|].
      exists buf, (rp + 1). rewrite U1. repeat split; assumption. }
  assert (L1 : stream_left (skipByte w) = stream_left w - 1)
    by (unfold stream_left; rewrite B1, F1; lia).
  assert (G1 : frame_budget (skipByte w) = frame_budget w - 1)
    by (unfold frame_budget; rewrite B1, F1; lia).
  apply (returns_shorter_from _ (skipByte w)); [lia|].
  unfold resync.
  destruct (_bytesLeft (decoder (skipByte w)) =? 0).
  - apply refillAndRetry_returns; [assumption | assumption | lia].
  - apply retry_returns; [assumption | lia].
Qed.
End Steps.

Hypothesis codec_ok : codec_within_window codec.
Hypothesis errors_ok : error_leaves_byte codec.

(** One call of processStreamFrame with a budget above [frame_budget]:
    it returns, the window is kept, and a frame that was decoded has made
    the stream shorter. *)
Lemma processStreamFrame_returns_shorter (fuel : nat) :
  forall w : World D,
    stream_inv w -> frame_budget w < Z.of_nat fuel ->
    returns_shorter codec
      (processStreamFrame codec (streamingCallback env) fuel w) w.
Proof.
  induction fuel as [|fuel IH]; intros w Hw Hfuel.
  { pose proof (stream_left_nonneg w Hw) as H0.
    pose proof (File_available_nonneg (_streamFile (decoder w))).
    unfold stream_left, frame_budget in *. lia. }
  cbn [processStreamFrame].
  destruct (_streaming (decoder w)) eqn:Hs; cbn [negb orb].
  2:{ exists false, w. split; [reflexivity|]. split; [exact Hw|].
      split; [lia | discriminate]. }
  destruct (_initialized (decoder w)) eqn:Hi; cbn [negb].
  2:{ exists false, w. split; [reflexivity|]. split; [exact Hw|].
      split; [lia | discriminate]. }
  pose proof Hw as [Hinv Hb].
  destruct (Hb Hs) as (_ & buf & rp & B & L & R).
  rewrite B, R.
  unfold window_invariant in Hinv. rewrite R in Hinv.
  unfold STREAM_BUFFER_SIZE in *.
  assert (Hretry : forall w1, stream_inv w1 -> frame_budget w1 < Z.of_nat fuel ->
                     returns_shorter codec
                       (processStreamFrame codec (streamingCallback env) fuel w1) w1)
    by exact IH.
  assert (Hn : frame_budget w <= Z.of_nat fuel) by lia.
  assert (Gw : frame_budget w
               = _bytesLeft (decoder w)
                 + 2 * File_available (_streamFile (decoder w))) by reflexivity.
  assert (Lw : stream_left w
               = _bytesLeft (decoder w)
                 + File_available (_streamFile (decoder w))) by reflexivity.
  set (bl := _bytesLeft (decoder w)) in *.
  rewrite to_int_small by lia.
  destruct codec_ok as [Hsync Hdec].
  pose proof (Hsync (window buf rp bl)) as Hoff.
  rewrite window_length in Hoff by lia.
  set (offset := MP3FindSyncWord codec (window buf rp bl)) in *.
  destruct (Z.ltb_spec offset 0) as [_ | Hge].
  { apply (refillAndRetry_returns _ (Z.of_nat fuel)); assumption. }
  rewrite (size_wrap_small (bl - offset)) by lia.
  destruct (MP3GetNextFrameInfo codec (_decoder (decoder w))
              (skipn (Z.to_nat (rp + offset)) buf)) as [[dec1 result] fi].
  match goal with |- context [resync _ ?x] => set (w1 := x) end.
  assert (S1 : stream_inv w1).
  { split.
    - unfold window_invariant, STREAM_BUFFER_SIZE. cbn. lia.
    - intros _. split; [exact Hi|]. exists buf, (rp + offset).
      repeat split; assumption. }
  assert (L1 : stream_left w1 = stream_left w - offset)
    by (rewrite Lw; unfold stream_left; subst w1; cbn; lia).
  assert (G1 : frame_budget w1 = frame_budget w - offset)
    by (rewrite Gw; unfold frame_budget; subst w1; cbn; lia).
  destruct (negb (result =? 0)).
  { apply (returns_shorter_from _ w1); [lia|].
    apply (resync_returns _ (Z.of_nat fuel) Hretry w1 (rp + offset));
      try assumption; try reflexivity.
    - cbn. lia.
    - lia. }
  rewrite (to_int_small (bl - offset)) by lia.
  pose proof (Hdec dec1 (window buf (rp + offset) (bl - offset))) as Hc.
  pose proof (errors_ok dec1 (window buf (rp + offset) (bl - offset))) as He.
  assert (Hadv : decode_advances codec ->
                 decode_status codec dec1
                   (window buf (rp + offset) (bl - offset)) = 0 ->
                 1 <= decode_consumed codec dec1
                        (window buf (rp + offset) (bl - offset)))
    by (intros Ha; apply Ha).
  rewrite window_length in Hc, He by lia.
  unfold decode_consumed, decode_status in Hc, He, Hadv.
  destruct (MP3Decode codec dec1 (window buf (rp + offset) (bl - offset)))
    as [[[dec2 result2] consumed] pcm].
  cbn [fst snd] in Hc, He, Hadv.
  match goal with |- context [resync _ ?x] => set (w3 := x) end.
  assert (R3 : _readPtr (decoder w3) = Some (rp + offset + consumed))
    by (subst w3; cbn; destruct (_firstFrame (decoder w)); reflexivity).
  assert (B3 : _bytesLeft (decoder w3) = bl - offset - consumed).
  { subst w3. cbn. destruct (_firstFrame (decoder w)); cbn;
      apply size_wrap_small; lia. }
  assert (U3 : _streamBuffer (decoder w3) = Some buf)
    by (subst w3; cbn; destruct (_firstFrame (decoder w)); cbn; exact B).
  assert (I3 : _initialized (decoder w3) = true)
    by (subst w3; cbn; destruct (_firstFrame (decoder w)); cbn; exact Hi).
  assert (Z3 : _streaming (decoder w3) = true)
    by (subst w3; cbn; destruct (_firstFrame (decoder w)); cbn; exact Hs).
  assert (F3 : _streamFile (decoder w3) = _streamFile (decoder w))
    by (subst w3; cbn; destruct (_firstFrame (decoder w)); reflexivity).
  assert (S3 : stream_inv w3).
  { split.
    - unfold window_invariant, STREAM_BUFFER_SIZE. rewrite R3, B3. lia.
    - intros _. split; [exact I3|]. exists buf, (rp + offset + consumed).
      repeat split; assumption. }
  assert (L3 : stream_left w3 = stream_left w - offset - consumed)
    by (rewrite Lw; unfold stream_left; rewrite B3, F3; lia).
  assert (G3 : frame_budget w3 = frame_budget w - offset - consumed)
    by (rewrite Gw; unfold frame_budget; rewrite B3, F3; lia).
  destruct (Z.eqb_spec result2 0) as [Hr0 | Hr0]; cbn [negb].
  - (* a frame was decoded *)
    assert (Hend : forall w4,
               stream_inv w4 ->
               stream_left w4 <= stream_left w3 ->
               _streaming (decoder w4) = true
               \/ File_available (_streamFile (decoder w4)) = 0 ->
               returns_shorter codec (topUp w4) w).
    { intros w4 I4 L4 Hor.
      destruct (topUp_returns w4 I4 Hor) as (w' & E & I' & L').
      exists true, w'. split; [exact E|]. split; [exact I'|]. split; [lia|].
      intros _ Ha. specialize (Hadv Ha Hr0). lia. }
    destruct (_callback (decoder w3)).
    2:{ apply Hend; [exact S3 | lia | left; exact Z3]. }
    match goal with |- context [streamingCallback env ?a ?b ?c ?x] =>
      destruct (streamingCallback_returns a b c x) as (continue & w4 & E & Hd)
    end.
    rewrite E. cbn [bind]. cbn [decoder log] in Hd.
    assert (I4 : stream_inv w4).
    { destruct Hd as [Hd | Hd].
      - apply (stream_inv_decoder w3); assumption.
      - apply (stream_inv_decoder (with_decoder stopStreaming w3));
          [exact Hd | apply stopStreaming_inv; exact S3]. }
    assert (L4 : stream_left w4 <= stream_left w3).
    { destruct Hd as [Hd | Hd].
      - rewrite (stream_left_decoder w3 w4 Hd). lia.
      - rewrite (stream_left_decoder (with_decoder stopStreaming w3) w4 Hd).
        apply stopStreaming_left. exact S3. }
    destruct continue.
    + apply Hend; [exact I4 | exact L4|].
      destruct Hd as [Hd | Hd]; rewrite Hd.
      * left. exact Z3.
      * right. destruct (stopStreaming_fields (decoder w3) Z3)
          as (_ & _ & _ & _ & _ & Ho).
        unfold File_available. rewrite Ho. reflexivity.
    + exists false, (with_decoder stopStreaming w4).
      split; [reflexivity|].
      split; [apply stopStreaming_inv; exact I4|].
      split; [|discriminate].
      pose proof (stopStreaming_left w4 I4). lia.
  - apply (returns_shorter_from _ w3); [lia|].
    destruct (Z.eqb_spec result2 (ERR_MP3_INDATA_UNDERFLOW codec)) as [Hu | Hu].
    + apply (refillAndRetry_returns _ (Z.of_nat fuel)); try assumption. lia.
    + apply (resync_returns _ (Z.of_nat fuel) Hretry w3 (rp + offset + consumed));
        try assumption.
      * rewrite B3. specialize (He Hr0 Hu). lia.
      * lia.
Qed.

Lemma yield_left (w : World D) :
  stream_inv w -> stream_left (yield env w) <= stream_left w.
Proof.
  intro H. destruct (yield_decoder w) as [Hd | Hd].
  - rewrite (stream_left_decoder w _ Hd). lia.
  - rewrite (stream_left_decoder (with_decoder stopStreaming w) _ Hd).
    apply stopStreaming_left. exact H.
Qed.

Hypothesis advances : decode_advances codec.

(** The frame loop returns once its budget exceeds twice the length of
    what is left of the stream. *)
Lemma playLoop_returns (fuel : nat) :
  forall w : World D,
    stream_inv w -> 2 * stream_left w + 1 < Z.of_nat fuel ->
    exists w', playLoop codec env fuel w = Ret tt w' /\ stream_inv w'.
Proof.
  induction fuel as [|fuel IH]; intros w Hw Hfuel.
  { pose proof (stream_left_nonneg w Hw). lia. }
  cbn [playLoop].
  destruct (negb (_streaming (decoder w)));
    [exists w; split; [reflexivity | exact Hw]|].
  destruct (negb (MP3Player._playing (player w)));
    [eexists; split; [reflexivity | exact Hw]|].
  assert (Hb : frame_budget w < Z.of_nat fuel).
  { pose proof (File_available_nonneg (_streamFile (decoder w))).
    destruct Hw as [Hw _]. unfold window_invariant in Hw.
    unfold frame_budget, stream_left in *.
    destruct (_readPtr (decoder w)); lia. }
  destruct (processStreamFrame_returns_shorter fuel w Hw Hb)
    as (ok & w1 & E & I1 & L1 & A1).
  rewrite E. cbn [bind].
  destruct ok; [|exists w1; split; [reflexivity | exact I1]].
  specialize (A1 eq_refl advances).
  apply IH.
  - apply yield_stream_inv. exact I1.
  - pose proof (yield_left w1 I1). lia.
Qed.
End Returns.

(** X4.  With a codec that keeps to its window and leaves a byte when it
    reports an error other than underflow, one call of processStreamFrame
    on a valid window ends: its nested calls never use up a budget above
    the unread bytes plus twice what the source still holds.  When the
    call returns, the window invariant holds and the stream (the unread
    bytes and what the source still holds) has not grown.  How far the
    codec reads through the pointer it is given is not followed. *)
Theorem processStreamFrame_ends_within_budget {D} (codec : Codec D) (env : Env)
        (fuel : nat) (w : World D) :
  codec_within_window codec -> error_leaves_byte codec ->
  stream_inv w ->
  frame_budget w < Z.of_nat fuel ->
  let r := processStreamFrame codec (streamingCallback env) fuel w in
  ends r
  /\ forall b w', r = Ret b w' ->
                  stream_inv w' /\ stream_left w' <= stream_left w.
Proof.
  intros Hc He Hw Hf r. subst r.
  destruct (processStreamFrame_returns_shorter codec env Hc He fuel w Hw Hf)
    as (b & w' & E & I' & L' & _).
  rewrite E. split; [exact I|].
  intros b0 w0 E0. injection E0 as <- <-. split; [exact I' | exact L'].
Qed.

(** ** The playback session as a whole *)

Section Sessions.
Context {D : Type} (codec : Codec D) (env : Env) (fs : SPIFFS).

Lemma I2SSpeaker_start_decoder (w : World D) :
  decoder (snd (I2SSpeaker_start env w)) = decoder w.
Proof.
  unfold I2SSpeaker_start.
  repeat match goal with
         | |- context [if ?c then _ else _] => destruct c
         end; reflexivity.
Qed.

Lemma startStreaming_refused (filePath : String.string) (w : World D) :
  _initialized (decoder w) = false \/ _streaming (decoder w) = true ->
  startStreaming codec env fs filePath w = Ret false w.
Proof.
  intros [H | H]; unfold startStreaming; rewrite H; cbn [negb orb];
    [|rewrite orb_true_r]; reflexivity.
Qed.

(** The steps of playFileWithProgress before the frame loop: the value it
    returns without entering the loop is false, with the trace and the
    decoder's stream flag as they were and the playing flag down; or the
    loop is entered on a fresh stream over the whole file. *)
Lemma playFileWithProgress_start
      (filePath : String.string) (volume : float) (progressCallback : bool)
      (fuel : nat) (w : World D) :
  (exists w',
      playFileWithProgress codec env fs filePath volume progressCallback fuel w
      = Ret false w'
      /\ trace w' = trace w
      /\ (MP3Player._playing (player w) = false ->
          MP3Player._playing (player w') = false)
      /\ (_streaming (decoder w) = false -> _streaming (decoder w') = false))
  \/ (exists w4 bytes buf,
         playFileWithProgress codec env fs filePath volume progressCallback fuel w
         = (do (_u, w5) <- playLoop codec env fuel w4;
            Ret true
                (clear env
                   (with_player
                      (fun p => set_progressCallback false (set_playing false p))
                      (if _streaming (decoder w5)
                       then with_decoder stopStreaming w5 else w5))))
         /\ fs filePath = Some bytes
         /\ probe codec (_decoder (decoder w)) bytes <> None
         /\ streaming_at w4 buf 0
         /\ unread (decoder w4) ++ pending (_streamFile (decoder w4)) = bytes
         /\ trace w4 = trace w
         /\ MP3Player._playing (player w4) = true
         /\ MP3Player._totalFrames (player w4) = 0
         /\ MP3Player._processedFrames (player w4) = 0
         /\ MP3Player._progressCallback (player w4) = progressCallback).
Proof.
  unfold playFileWithProgress.
  destruct (negb (MP3Player._initialized (player w))
            || negb (MP3Player._speaker (player w))
            || MP3Player._playing (player w)).
  { left. exists w. repeat split; auto. }
  match goal with |- context [with_player ?f w] => set (w1 := with_player f w) end.
  assert (Hstart : let w2 := snd (if negb (I2SSpeaker._active (speaker w1))
                                  then I2SSpeaker_start env w1 else (ESP_OK, w1)) in
                   trace w2 = trace w /\ player w2 = player w1
                   /\ decoder w2 = decoder w).
  { destruct (negb (I2SSpeaker._active (speaker w1))); cbn [snd].
    - destruct (I2SSpeaker_start_same env w1) as [T Pl]. cbv zeta in T, Pl.
      rewrite T, Pl, I2SSpeaker_start_decoder. repeat split.
    - repeat split. }
  destruct (if negb (I2SSpeaker._active (speaker w1))
            then I2SSpeaker_start env w1 else (ESP_OK, w1)) as [err w2].
  cbn [snd] in Hstart. destruct Hstart as (T2 & P2 & D2).
  destruct (negb (err =? ESP_OK)).
  { left. exists w2. split; [reflexivity|]. split; [exact T2|].
    rewrite P2, D2. split; auto. }
  set (w3 := with_player (set_playing true) w2).
  assert (D3 : decoder w3 = decoder w) by exact D2.
  assert (T3 : trace w3 = trace w) by exact T2.
  destruct (_initialized (decoder w3)) eqn:Hi.
  2:{ rewrite (startStreaming_refused filePath w3 (or_introl Hi)). cbn [bind negb].
      left. eexists. split; [reflexivity|]. split; [exact T3|].
      split; [reflexivity|]. intro H. cbn [decoder with_player]. rewrite D3. exact H. }
  destruct (_streaming (decoder w3)) eqn:Hs.
  { rewrite (startStreaming_refused filePath w3 (or_intror Hs)). cbn [bind negb].
    left. eexists. split; [reflexivity|]. split; [exact T3|].
    split; [reflexivity|]. intro H. cbn [decoder with_player]. rewrite D3. exact H. }
  destruct (startStreaming_cases codec env fs filePath w3 Hi Hs)
    as (b & w4 & E & T4 & P4 & Hfalse & Htrue & Hprobe).
  rewrite E. cbn [bind].
  destruct b; cbn [negb].
  - right. destruct (Htrue eq_refl) as (bytes & buf & Hfs & Hat & U & _).
    exists w4, bytes, buf. split; [reflexivity|].
    split; [exact Hfs|].
    split; [intro Hnone; specialize (Hprobe bytes Hfs); rewrite D3 in Hprobe;
            discriminate (Hprobe Hnone)|].
    split; [exact Hat|]. split; [exact U|].
    split; [congruence|]. rewrite P4. subst w3. cbn [player with_player].
    rewrite P2. repeat split.
  - left. eexists. split; [reflexivity|].
    cbn [trace with_player player decoder].
    split; [congruence|]. split; [reflexivity|].
    intros _. apply Hfalse. reflexivity.
Qed.

(** X6.  Whenever playFileWithProgress returns false, nothing has reached
    the speaker: no frame was handed to the callback, no block was written
    and the speaker was not flushed. *)
Theorem playFileWithProgress_false_is_silent
        (filePath : String.string) (volume : float) (progressCallback : bool)
        (fuel : nat) (w w' : World D) :
  playFileWithProgress codec env fs filePath volume progressCallback fuel w
  = Ret false w' ->
  trace w' = trace w.
Proof.
  intro H.
  destruct (playFileWithProgress_start filePath volume progressCallback fuel w)
    as [(w1 & E & T & _) | (w4 & bytes & buf & E & _)];
    rewrite E in H.
  - injection H as <-. exact T.
  - destruct (playLoop codec env fuel w4); discriminate H.
Qed.

(** X7.  A session leaves the player idle: if the player was not playing
    and the decoder not streaming when playFileWithProgress was called,
    then whatever it returns, the playing flag is down and the decoder is
    not streaming afterwards. *)
Theorem playFileWithProgress_leaves_idle
        (filePath : String.string) (volume : float) (progressCallback : bool)
        (fuel : nat) (w w' : World D) (b : bool) :
  playFileWithProgress codec env fs filePath volume progressCallback fuel w
  = Ret b w' ->
  MP3Player._playing (player w) = false ->
  _streaming (decoder w) = false ->
  MP3Player._playing (player w') = false
  /\ _streaming (decoder w') = false.
Proof.
  intros H Hp Hs.
  destruct (playFileWithProgress_start filePath volume progressCallback fuel w)
    as [(w1 & E & _ & P1 & S1) | (w4 & bytes & buf & E & _)];
    rewrite E in H.
  - injection H as <- <-. split; auto.
  - destruct (playLoop codec env fuel w4) as [u w5 | w5 | w5];
      cbn [bind] in H; try discriminate H.
    injection H as <- <-.
    match goal with |- context [clear env ?x] =>
      assert (Hc : player (clear env x) = player x
                   /\ decoder (clear env x) = decoder x)
    end.
    { unfold clear, writeAudioData.
      repeat match goal with
             | |- context [if ?c then _ else _] => destruct c
             end; split; reflexivity. }
    destruct Hc as [-> ->]. cbn [player with_player decoder].
    split; [reflexivity|].
    destruct (_streaming (decoder w5)) eqn:S5; [|exact S5].
    apply (stopStreaming_fields (decoder w5) S5).
Qed.

(** X8.  The probe decides: when the first 4096 bytes of the file hold no
    sync pattern, or the header at the first pattern found there does not
    parse, playFileWithProgress returns false and nothing reaches the
    speaker, whatever the rest of the file holds.  The probe does not
    search on after a header that fails. *)
Theorem playFileWithProgress_refuses_unprobed
        (filePath : String.string) (volume : float) (progressCallback : bool)
        (fuel : nat) (w : World D) (bytes : list Z) :
  fs filePath = Some bytes ->
  probe codec (_decoder (decoder w)) bytes = None ->
  exists w',
    playFileWithProgress codec env fs filePath volume progressCallback fuel w
    = Ret false w'
    /\ trace w' = trace w.
Proof.
  intros Hfs Hnone.
  destruct (playFileWithProgress_start filePath volume progressCallback fuel w)
    as [(w1 & E & T & _) | (w4 & bytes' & buf & E & Hfs' & Hp & _)].
  - exists w1. split; assumption.
  - rewrite Hfs in Hfs'. injection Hfs' as <-. contradiction.
Qed.

(** X5.  With a codec that keeps to its window, leaves a byte when it
    reports an error other than underflow and consumes at least one byte
    when it decodes a frame, playFileWithProgress ends for every file and
    every environment: the frame loop cannot run forever, and a budget
    above twice the file length is never used up.  [stop()] runs at the
    points that [yield] marks; how far the codec reads through the pointer
    it is given is not followed. *)
Theorem playFileWithProgress_ends_within_budget
        (filePath : String.string) (volume : float) (progressCallback : bool)
        (fuel : nat) (w : World D) :
  codec_within_window codec -> error_leaves_byte codec ->
  decode_advances codec ->
  (forall bytes, fs filePath = Some bytes ->
                 2 * Z.of_nat (length bytes) + 1 < Z.of_nat fuel) ->
  ends (playFileWithProgress codec env fs filePath volume progressCallback
                             fuel w).
Proof.
  intros Hc He Ha Hfuel.
  destruct (playFileWithProgress_start filePath volume progressCallback fuel w)
    as [(w1 & E & _) | (w4 & bytes & buf & E & Hfs & _ & Hat & U & _)];
    rewrite E.
  - exact I.
  - assert (L4 : stream_left w4 = Z.of_nat (length bytes)).
    { pose proof (unread_length w4 buf 0 Hat) as Lu.
      pose proof (pending_length (_streamFile (decoder w4))) as Lp.
      rewrite <- U, length_app. unfold stream_left.
      destruct Hat as (_ & _ & _ & _ & _ & _ & _ & H1 & _). lia. }
    destruct (playLoop_returns codec env Hc He Ha fuel w4
                (streaming_at_inv w4 buf 0 Hat)) as (w5 & E5 & _).
    { rewrite L4. apply Hfuel. exact Hfs. }
    rewrite E5. cbn [bind]. exact I.
Qed.
End Sessions.

(** The synthetic decoder made to advance has the three properties asked
    of a codec above. *)
Lemma steadyCodec_within_window : codec_within_window steadyCodec.
Proof.
  split.
  - intros w. cbn. pose proof (TestCodec_findSync_bound w 0). lia.
  - intros d w. unfold decode_consumed. cbn [MP3Decode steadyCodec].
    unfold steadyDecode.
    destruct (TestCodec.decode d w) as [[[d' r] c] pcm].
    destruct (negb (r =? 0)); cbn [fst snd]; [lia|].
    destruct ((1 <=? c) && (c <=? Z.of_nat (length w))) eqn:E; cbn [fst snd]; [|lia].
    apply andb_true_iff in E. destruct E as [E1 E2].
    apply Z.leb_le in E1, E2. lia.
Qed.

Lemma steadyCodec_error_leaves_byte : error_leaves_byte steadyCodec.
Proof.
  intros d w. unfold decode_status, decode_consumed.
  cbn [MP3Decode ERR_MP3_INDATA_UNDERFLOW steadyCodec].
  unfold steadyDecode.
  destruct w as [|a rest].
  - cbn. intros _ H. exfalso. apply H. reflexivity.
  - cbn [length].
    destruct (TestCodec.decode d (a :: rest)) as [[[d' r] c] pcm].
    destruct (Z.eqb_spec r 0) as [E|E]; cbn [negb fst snd]; [|lia].
    destruct ((1 <=? c) && (c <=? Z.of_nat (S (length rest))));
      cbn [fst snd]; [|lia].
    intros H. exfalso. apply H. exact E.
Qed.

Lemma steadyCodec_advances : decode_advances steadyCodec.
Proof.
  intros d w. unfold decode_status, decode_consumed.
  cbn [MP3Decode steadyCodec]. unfold steadyDecode.
  destruct (TestCodec.decode d w) as [[[d' r] c] pcm].
  destruct (Z.eqb_spec r 0) as [E|E]; cbn [negb fst snd]; [|contradiction].
  destruct ((1 <=? c) && (c <=? Z.of_nat (length w))) eqn:B; cbn [fst snd].
  - intros _. apply andb_true_iff in B. destruct B as [B1 _].
    apply Z.leb_le in B1. exact B1.
  - discriminate.
Qed.

Lemma processStreamFrame_ends_within_budget_witness :
  let w := world_of (startStreaming steadyCodec calmEnv (oneFile twoFrames) path
                                    playingWorld) in
  let r := processStreamFrame steadyCodec (streamingCallback calmEnv) 12 w in
  ends r
  /\ forall b w', r = Ret b w' ->
                  stream_inv w' /\ stream_left w' <= stream_left w.
Proof.
  apply (processStreamFrame_ends_within_budget steadyCodec calmEnv 12).
  - exact steadyCodec_within_window.
  - exact steadyCodec_error_leaves_byte.
  - apply (streaming_at_inv _ (twoFrames ++ repeat 0 (Z.to_nat 8181)) 0).
    vm_compute. repeat split; discriminate.
  - vm_compute. reflexivity.
Defined.

Lemma playFileWithProgress_ends_within_budget_witness :
  ends (playFileWithProgress steadyCodec calmEnv (oneFile twoFrames) path
                             f32_half true 24 readyWorld).
Proof.
  apply playFileWithProgress_ends_within_budget.
  - exact steadyCodec_within_window.
  - exact steadyCodec_error_leaves_byte.
  - exact steadyCodec_advances.
  - intros bytes [= <-]. vm_compute. reflexivity.
Defined.

Lemma playFileWithProgress_false_is_silent_witness :
  trace (world_of (playFileWithProgress TestCodec.codec calmEnv
                     (oneFile noSyncFile) path f32_half false 5 readyWorld))
  = trace readyWorld.
Proof.
  apply (playFileWithProgress_false_is_silent
           TestCodec.codec calmEnv (oneFile noSyncFile) path f32_half false 5).
  vm_compute. reflexivity.
Defined.

Lemma playFileWithProgress_leaves_idle_witness :
  let w' := world_of (playFileWithProgress TestCodec.codec calmEnv
                        (oneFile twoFrames) path f32_half false 5 readyWorld) in
  MP3Player._playing (player w') = false /\ _streaming (decoder w') = false.
Proof.
  apply (playFileWithProgress_leaves_idle
           TestCodec.codec calmEnv (oneFile twoFrames) path f32_half false 5
           readyWorld _ true); vm_compute; reflexivity.
Defined.

Lemma playFileWithProgress_refuses_unprobed_witness :
  exists w',
    playFileWithProgress TestCodec.codec calmEnv
      (oneFile (repeat 0 (Z.to_nat 4096) ++ twoFrames)) path f32_half false 5
      readyWorld
    = Ret false w'
    /\ trace w' = trace readyWorld.
Proof.
  apply (playFileWithProgress_refuses_unprobed
           TestCodec.codec calmEnv
           (oneFile (repeat 0 (Z.to_nat 4096) ++ twoFrames)) path f32_half false 5
           readyWorld (repeat 0 (Z.to_nat 4096) ++ twoFrames)).
  - reflexivity.
  - vm_compute. reflexivity.
Defined.

(** ** One call, one frame *)

Section OneFrame.
Context {D : Type} (codec : Codec D) (env : Env).

Lemma one_frame_from (r : Res D bool) (w1 w : World D) :
  frames (trace w1) = frames (trace w) ->
  _callback (decoder w1) = _callback (decoder w) ->
  one_frame r w1 -> one_frame r w.
Proof.
  intros T C [A B]. split.
  - rewrite <- T. exact A.
  - rewrite <- T, <- C. exact B.
Qed.

Lemma one_frame_quiet (b : bool) (w1 w : World D) :
  frames (trace w1) = frames (trace w) ->
  (b = true -> _callback (decoder w) = false) ->
  one_frame (Ret b w1) w.
Proof.
  intros T Hb. split.
  - cbn [world_of]. rewrite T. apply Nat.le_succ_diag_r.
  - intros C w' [= -> _]. rewrite (Hb eq_refl) in C. discriminate C.
Qed.

Lemma streamingCallback_frames
      (data : list Z) (n : Z) (info : MP3Info) (w : World D) :
  frames (trace (world_of (streamingCallback env data n info w)))
  = frames (trace w).
Proof.
  apply (streamingCallback_inv env
           (fun x : World D => frames (trace x) = frames (trace w)));
    try reflexivity; try (intros; assumption).
  intros w1 w2 T _ _ H. rewrite T. exact H.
Qed.

Lemma topUp_trace (w : World D) : trace (world_of (topUp w)) = trace w.
Proof.
  unfold topUp. destruct (_ && _); [|reflexivity].
  pose proof (fillStreamBuffer_keeps_flags w) as [_ T]. cbv zeta in T.
  destruct (fillStreamBuffer w); exact T.
Qed.

Section Steps.
Variable retry : World D -> Res D bool.
Hypothesis retry_one : forall w1, one_frame (retry w1) w1.

Lemma refillAndRetry_one_frame (w : World D) :
  one_frame (refillAndRetry retry w) w.
Proof.
  unfold refillAndRetry.
  pose proof (fillStreamBuffer_keeps_flags w) as [_ T]. cbv zeta in T.
  pose proof (fillStreamBuffer_callback w) as C.
  destruct (fillStreamBuffer w) as [b w1 | w1 | w1]; cbn [bind world_of] in *.
  - destruct b.
    + apply (one_frame_from _ w1); [rewrite T; reflexivity | exact C|].
      apply retry_one.
    + apply one_frame_quiet; [rewrite T; reflexivity | discriminate].
  - split; [cbn [world_of]; rewrite T; apply Nat.le_succ_diag_r|].
    intros _ w' [=].
  - split; [cbn [world_of]; rewrite T; apply Nat.le_succ_diag_r|].
    intros _ w' [=].
Qed.

Lemma resync_one_frame (w : World D) : one_frame (resync retry w) w.
Proof.
  unfold resync.
  apply (one_frame_from _ (skipByte w)); [reflexivity | reflexivity|].
  destruct (_ =? 0); [apply refillAndRetry_one_frame | apply retry_one].
Qed.
End Steps.

Lemma processStreamFrame_one_frame (fuel : nat) :
  forall w : World D,
    one_frame (processStreamFrame codec (streamingCallback env) fuel w) w.
Proof.
  induction fuel as [|fuel IH]; intros w.
  { split; [apply Nat.le_succ_diag_r | intros _ w' [=]]. }
  cbn [processStreamFrame].
  destruct (negb (_streaming (decoder w)) || negb (_initialized (decoder w))).
  { split; [apply Nat.le_succ_diag_r | intros _ w' [=]]. }
  destruct (_streamBuffer (decoder w)) as [buf|];
    [|split; [apply Nat.le_succ_diag_r | intros _ w' [=]]].
  destruct (_readPtr (decoder w)) as [rp|];
    [|split; [apply Nat.le_succ_diag_r | intros _ w' [=]]].
  destruct (_ <? 0); [apply refillAndRetry_one_frame; exact IH|].
  destruct (MP3GetNextFrameInfo codec _ _) as [[dec1 result] fi].
  match goal with |- context [resync _ ?x] => set (w1 := x) end.
  destruct (negb (result =? 0)).
  { apply (one_frame_from _ w1); [reflexivity | reflexivity|].
    apply resync_one_frame. exact IH. }
  destruct (MP3Decode codec dec1 _) as [[[dec2 result2] consumed] pcm].
  match goal with |- context [resync _ ?x] => set (w3 := x) end.
  assert (T3 : trace w3 = trace w)
    by (subst w3 w1; cbn; destruct (_firstFrame (decoder w)); reflexivity).
  assert (C3 : _callback (decoder w3) = _callback (decoder w))
    by (subst w3 w1; cbn; destruct (_firstFrame (decoder w)); reflexivity).
  destruct (negb (result2 =? 0)).
  { apply (one_frame_from _ w3); [rewrite T3; reflexivity | exact C3|].
    destruct (_ =? _);
      [apply refillAndRetry_one_frame | apply resync_one_frame]; exact IH. }
  destruct (_callback (decoder w3)) eqn:Cb.
  2:{ pose proof (topUp_trace w3) as T. split.
      - rewrite T, T3. apply Nat.le_succ_diag_r.
      - intro C. rewrite C in C3. discriminate C3. }
  match goal with |- context [streamingCallback env ?a ?b ?c ?x] =>
    pose proof (streamingCallback_frames a b c x) as F4;
    destruct (streamingCallback env a b c x) as [continue w4 | w4 | w4]
  end; cbn [bind world_of trace log frames filter is_frame length] in *;
    fold (frames (trace w3)) in F4; rewrite T3 in F4.
  - destruct continue.
    + pose proof (topUp_trace w4) as T. split.
      * rewrite T, F4. apply Nat.le_refl.
      * intros _ w' E. rewrite E in T. cbn [world_of] in T.
        rewrite T. exact F4.
    + split; [cbn [world_of trace with_decoder]; rewrite F4; apply Nat.le_refl|].
      intros _ w' [=].
  - split; [cbn [world_of]; rewrite F4; apply Nat.le_refl | intros _ w' [=]].
  - split; [cbn [world_of]; rewrite F4; apply Nat.le_refl | intros _ w' [=]].
Qed.
End OneFrame.

(** X9.  One call of processStreamFrame hands at most one frame to the
    callback; when a callback is installed and the call returns true it
    has handed over exactly one. *)
Theorem processStreamFrame_emits_one_frame {D} (codec : Codec D) (env : Env)
        (fuel : nat) (w w' : World D) (b : bool) :
  processStreamFrame codec (streamingCallback env) fuel w = Ret b w' ->
  (frames (trace w') <= S (frames (trace w)))%nat
  /\ (b = true -> _callback (decoder w) = true ->
      frames (trace w') = S (frames (trace w))).
Proof.
  intro E. destruct (processStreamFrame_one_frame codec env fuel w) as [A B].
  rewrite E in A, B. cbn [world_of] in A. split; [exact A|].
  intros -> C. apply (B C). reflexivity.
Qed.

Lemma processStreamFrame_emits_one_frame_witness :
  let w' := world_of (processStreamFrame TestCodec.codec (streamingCallback calmEnv)
                                         3 resyncPlayingWorld) in
  (frames (trace w') <= S (frames (trace resyncPlayingWorld)))%nat
  /\ (true = true -> _callback (decoder resyncPlayingWorld) = true ->
      frames (trace w') = S (frames (trace resyncPlayingWorld))).
Proof.
  apply (processStreamFrame_emits_one_frame
           TestCodec.codec calmEnv 3 resyncPlayingWorld _ true).
  vm_compute. reflexivity.
Defined.

(** ** The frame counter *)

Section Counter.
Context {D : Type} (codec : Codec D) (env : Env) (fs : SPIFFS).
Variable base : nat.

Lemma good_writes_cons (e : Event) (tr : list Event) :
  good_writes (e :: tr)
  = if is_good_write e then S (good_writes tr) else good_writes tr.
Proof. unfold good_writes. cbn [filter]. destruct (is_good_write e); reflexivity. Qed.

Lemma counter_agrees_same (w w' : World D) :
  MP3Player._processedFrames (player w') = MP3Player._processedFrames (player w) ->
  good_writes (trace w') = good_writes (trace w) ->
  counter_agrees base w -> counter_agrees base w'.
Proof. unfold counter_agrees. intros -> ->. exact (fun H => H). Qed.

Lemma stop_counter (w : World D) :
  MP3Player._processedFrames (player (stop w))
  = MP3Player._processedFrames (player w)
  /\ trace (stop w) = trace w.
Proof.
  unfold stop. destruct (MP3Player._playing (player w)); [|split; reflexivity].
  cbn [decoder with_player].
  destruct (_streaming (decoder w)); split; reflexivity.
Qed.

Lemma yield_counter (w : World D) :
  MP3Player._processedFrames (player (yield env w))
  = MP3Player._processedFrames (player w)
  /\ good_writes (trace (yield env w)) = good_writes (trace w).
Proof.
  unfold yield. destruct (stop_requested env (clock w)); [|split; reflexivity].
  destruct (stop_counter (log EvStop (tick w))) as [-> ->]. split; reflexivity.
Qed.

(** The callback counts a block exactly when the speaker accepted it. *)
Lemma streamingCallback_counter
      (data : list Z) (n : Z) (info : MP3Info) (w : World D) :
  counter_agrees base w ->
  counter_agrees base (world_of (streamingCallback env data n info w)).
Proof.
  intro H. unfold streamingCallback.
  destruct (negb (MP3Player._speaker (player w))); [exact H|].
  destruct (negb (MP3Player._playing (player w))); [exact H|].
  destruct (n =? 0); [exact H|].
  destruct (yield_counter w) as [P0 G0].
  set (w0 := yield env w) in *.
  assert (H0 : counter_agrees base w0)
    by (apply (counter_agrees_same w); assumption).
  destruct (negb (malloc_ok env (clock w0))); [exact H0|].
  destruct (writeSamples_same env n (tick w0)) as (T2 & P2 & _).
  destruct (writeSamples env n (tick w0)) as [result w2]. cbn [snd] in T2, P2.
  match goal with |- context [yield env (log ?e ?x)] =>
    destruct (yield_counter (log e x)) as [P3 G3];
    set (w3 := yield env (log e x)) in *
  end.
  cbn [player log trace] in P3, G3. rewrite P2 in P3. rewrite T2 in G3.
  cbn [player tick trace] in P3, G3.
  rewrite good_writes_cons in G3. cbn [is_good_write] in G3.
  destruct (Z.eqb_spec result ESP_OK) as [Hok | Hbad]; cbn [negb].
  2:{ cbn [world_of]. apply (counter_agrees_same w0); assumption. }
  match goal with |- context [with_player ?f w3] => set (w4 := with_player f w3) end.
  assert (H4 : counter_agrees base w4).
  { unfold counter_agrees in *. subst w4. cbn [player with_player trace].
    cbn [set_processedFrames MP3Player._processedFrames].
    rewrite P3, G3, H0. unfold size_wrap.
    rewrite Z.add_mod_idemp_l by lia. f_equal. lia. }
  match goal with
  | |- context [if ?c then yield env ?x else w4] =>
      assert (H5 : counter_agrees base (if c then yield env x else w4));
      [|set (w5 := if c then yield env x else w4) in *]
  end.
  { destruct (_ && _); [|exact H4].
    match goal with |- context [yield env ?x] =>
      destruct (yield_counter x) as [P5 G5]
    end.
    apply (counter_agrees_same w4); assumption. }
  destruct (MP3Player._playing (player w5)); exact H5.
Qed.

Lemma playLoop_counter (fuel : nat) :
  forall w : World D,
    counter_agrees base w ->
    counter_agrees base (world_of (playLoop codec env fuel w)).
Proof.
  induction fuel as [|fuel IH]; intros w H; [exact H|].
  cbn [playLoop].
  destruct (negb (_streaming (decoder w))); [exact H|].
  destruct (negb (MP3Player._playing (player w))); [exact H|].
  pose proof (processStreamFrame_inv codec (streamingCallback env)
                (counter_agrees base)
                (fun f w0 H0 => H0) (fun n w0 H0 => H0) (fun n i w0 H0 => H0)
                streamingCallback_counter fuel w H) as H1.
  destruct (processStreamFrame codec (streamingCallback env) fuel w)
    as [ok w1 | w1 | w1]; cbn [bind world_of] in *; try exact H1.
  destruct ok; [|exact H1].
  apply IH. destruct (yield_counter w1) as [P G].
  apply (counter_agrees_same w1); assumption.
Qed.

End Counter.

(** X10.  When a session has played (playFileWithProgress returns true),
    the frame counter of the player holds the number of blocks the speaker
    accepted in that session, modulo 2^32: a block whose write failed is
    not counted, and nothing else is. *)
Theorem playFileWithProgress_counts_accepted_blocks
        {D} (codec : Codec D) (env : Env) (fs : SPIFFS)
        (filePath : String.string) (volume : float) (progressCallback : bool)
        (fuel : nat) (w w' : World D) :
  playFileWithProgress codec env fs filePath volume progressCallback fuel w
  = Ret true w' ->
  MP3Player._processedFrames (player w')
  = size_wrap (Z.of_nat (good_writes (trace w'))
               - Z.of_nat (good_writes (trace w))).
Proof.
  intros H. set (base := good_writes (trace w)).
  destruct (playFileWithProgress_start codec env fs filePath volume
                                       progressCallback fuel w)
    as [(w1 & E & _) | (w4 & bytes & buf & E & _ & _ & _ & _ & T4 & _ & _ & P4 & _)];
    rewrite E in H; [discriminate H|].
  assert (H4 : counter_agrees base w4).
  { unfold counter_agrees. rewrite P4, T4. subst base.
    rewrite Z.sub_diag. reflexivity. }
  pose proof (playLoop_counter codec env base fuel w4 H4) as H5.
  destruct (playLoop codec env fuel w4) as [u w5 | w5 | w5];
    cbn [bind world_of] in *; try discriminate H.
  injection H as <-.
  match goal with |- context [clear env ?x] =>
    assert (Hc : player (clear env x) = player x
                 /\ good_writes (trace (clear env x)) = good_writes (trace x))
  end.
  { unfold clear, writeAudioData.
    repeat match goal with
           | |- context [if ?c then _ else _] => destruct c
           end; split; reflexivity. }
  destruct Hc as [-> ->]. cbn [player with_player trace].
  cbn [set_progressCallback set_playing MP3Player._processedFrames].
  assert (T6 : trace (if _streaming (decoder w5)
                      then with_decoder stopStreaming w5 else w5) = trace w5)
    by (destruct (_streaming (decoder w5)); reflexivity).
  assert (P6 : player (if _streaming (decoder w5)
                       then with_decoder stopStreaming w5 else w5) = player w5)
    by (destruct (_streaming (decoder w5)); reflexivity).
  rewrite T6, P6. exact H5.
Qed.


Lemma playFileWithProgress_counts_accepted_blocks_witness :
  let w' := world_of (playFileWithProgress TestCodec.codec calmEnv
                        (oneFile twoFrames) path f32_half false 5 readyWorld) in
  MP3Player._processedFrames (player w')
  = size_wrap (Z.of_nat (good_writes (trace w'))
               - Z.of_nat (good_writes (trace readyWorld))).
Proof.
  apply (playFileWithProgress_counts_accepted_blocks
           TestCodec.codec calmEnv (oneFile twoFrames) path f32_half false 5
           readyWorld).
  vm_compute. reflexivity.
Defined.

(** ** The volume *)

Ltac clamped :=
  repeat split; intros;
  try reflexivity; try discriminate; try contradiction.

Lemma f32_one_value : f32_one = S754_finite false 8388608 (-23).
Proof. reflexivity. Qed.

(** What the clamp between 0 and 1 gives: a value in that range, and the
    argument itself when it already lies there; a NaN passes through. *)
Lemma constrain_unit_range (v : float) :
  let x := constrain v f32_zero f32_one in
  (v <> S754_nan ->
   f32_leb f32_zero x = true /\ f32_leb x f32_one = true)
  /\ (f32_leb f32_zero v = true -> f32_leb v f32_one = true -> x = v)
  /\ (v = S754_nan -> x = S754_nan).
Proof.
  cbv zeta. unfold constrain, f32_ltb, f32_leb, SFltb, SFleb.
  rewrite f32_one_value. unfold f32_zero.
  destruct v as [s | s | | s m e]; cbn [SFcompare].
  - clamped.
  - destruct s; clamped.
  - clamped.
  - destruct s; cbn [SFcompare]; [clamped|].
    assert (A : Pos.compare_cont Eq 8388608 m
                = CompOpp (Pos.compare_cont Eq m 8388608))
      by (rewrite Pos.compare_cont_antisym; reflexivity).
    rewrite (Z.compare_antisym e (-23)), A.
    destruct (e ?= -23) eqn:Ce; cbn [CompOpp].
    + destruct (Pos.compare_cont Eq m 8388608) eqn:Cm;
        cbn [CompOpp SFcompare]; try rewrite Ce; try rewrite Cm.
      * clamped.
      * clamped.
      * change (-23 ?= -23) with Eq. cbv iota.
        change (Pos.compare_cont Eq 8388608 8388608) with Eq. clamped.
    + cbn [SFcompare]. rewrite Ce. clamped.
    + cbn [SFcompare]. change (-23 ?= -23) with Eq. cbv iota.
      change (Pos.compare_cont Eq 8388608 8388608) with Eq. clamped.
Qed.

(** Out of the range the clamp gives the bound that was passed: 0.0
    below 0.0, and 1.0 above 1.0. *)
Lemma constrain_unit_bounds (v : float) :
  let x := constrain v f32_zero f32_one in
  (f32_ltb v f32_zero = true -> x = f32_zero)
  /\ (f32_ltb f32_one v = true -> x = f32_one).
Proof.
  cbv zeta. unfold constrain. split.
  - intros ->. reflexivity.
  - intro H.
    assert (N : f32_ltb v f32_zero = false).
    { rewrite f32_one_value in H. unfold f32_ltb, SFltb, f32_zero in *.
      destruct v as [s | s | | s m e]; cbn [SFcompare] in *;
        try reflexivity; destruct s; try reflexivity; discriminate H. }
    rewrite N, H. reflexivity.
Qed.

(** X11.  setVolume clamps to the range from 0.0 to 1.0: it stores the
    argument itself when it lies in that range, 0.0 when the argument is
    below 0.0 and 1.0 when it is above 1.0, so that the stored volume lies
    in the range for every argument that is a number.  A NaN is stored as
    it is. *)
Theorem setVolume_clamps {D} (v : float) (w : World D) :
  let x := getVolume (setVolume v w) in
  (v <> S754_nan ->
   f32_leb f32_zero x = true /\ f32_leb x f32_one = true)
  /\ (f32_leb f32_zero v = true -> f32_leb v f32_one = true -> x = v)
  /\ (f32_ltb v f32_zero = true -> x = f32_zero)
  /\ (f32_ltb f32_one v = true -> x = f32_one)
  /\ (v = S754_nan -> x = S754_nan).
Proof.
  cbv zeta. unfold getVolume, setVolume. cbn [player with_player].
  cbn [set_volume MP3Player._volume].
  destruct (constrain_unit_range v) as (A & B & C).
  destruct (constrain_unit_bounds v) as (L & H).
  cbv zeta in A, B, C, L, H.
  split; [exact A|]. split; [exact B|]. split; [exact L|].
  split; [exact H | exact C].
Qed.

(** ** The DTMF table *)

(** X12.  getDTMFFrequencies follows the keypad: it accepts exactly the
    sixteen keys, gives the tone of the key's row as the low frequency and
    the tone of its column as the high one, and the tone pair determines
    the key (no two keys share a pair).  Anything else, lower-case letters
    included, is refused. *)
Theorem getDTMFFrequencies_is_the_keypad (digit : Ascii.ascii) :
  match AudioSamples.getDTMFFrequencies digit with
  | Some (low, high) =>
      AudioSamples.keyOfTones low high = Some digit
      /\ In low AudioSamples.rowTones /\ In high AudioSamples.columnTones
  | None => ~ In digit (concat AudioSamples.keypad)
  end.
Proof.
  destruct digit as [[] [] [] [] [] [] [] []];
    cbv - [In Z.eqb];
    try (split; [reflexivity | split; cbn; tauto]);
    cbn; intuition discriminate.
Qed.

(** ** The speaker *)

Section Speaker.
Context {D : Type} (env : Env).

(** X13.  I2SSpeaker::start is idempotent: when it returns ESP_OK the
    channel is active and a second start returns ESP_OK without asking the
    driver again; when it returns an error the speaker is as it was.  It
    never touches the decoder, the player or the trace. *)
Theorem I2SSpeaker_start_once (w : World D) :
  let r := fst (I2SSpeaker_start env w) in
  let w1 := snd (I2SSpeaker_start env w) in
  (r = ESP_OK ->
   I2SSpeaker._active (speaker w1) = true
   /\ I2SSpeaker_start env w1 = (ESP_OK, w1))
  /\ (r <> ESP_OK -> speaker w1 = speaker w)
  /\ decoder w1 = decoder w /\ player w1 = player w /\ trace w1 = trace w.
Proof.
  cbv zeta. unfold I2SSpeaker_start.
  destruct (I2SSpeaker._initialized (speaker w)) eqn:Hi; cbn [negb fst snd].
  2:{ split; [discriminate|]. repeat split. }
  destruct (I2SSpeaker._active (speaker w)) eqn:Ha; cbn [fst snd].
  { split; [|repeat split].
    intros _. split; [exact Ha|]. rewrite Hi, Ha. reflexivity. }
  destruct (Z.eqb_spec (i2s_channel_enable env (clock w)) ESP_OK) as [Hok | Hbad];
    cbn [negb fst snd].
  - split; [|split; [intro H; contradiction H; reflexivity | repeat split]].
    intros _. cbn [speaker with_speaker tick I2SSpeaker.set_active
                   I2SSpeaker._active I2SSpeaker._initialized].
    rewrite Hi. split; reflexivity.
  - split; [intro H; contradiction | repeat split].
Qed.

(** X14.  writeSamples reaches the I2S driver exactly when the speaker is
    initialised and active and the byte count, twice the sample count in
    32-bit arithmetic, is not zero.  Otherwise it changes nothing and
    reports ESP_ERR_INVALID_ARG for a zero count (also for the count 2^31,
    whose byte count wraps to zero) and ESP_ERR_INVALID_STATE for a speaker
    that is not running. *)
Theorem writeSamples_reaches_driver (sampleCount : Z) (w : World D) :
  let r := fst (writeSamples env sampleCount w) in
  let w' := snd (writeSamples env sampleCount w) in
  if I2SSpeaker._initialized (speaker w) && I2SSpeaker._active (speaker w)
     && negb (size_wrap (sampleCount * 2) =? 0) && negb (sampleCount =? 0)
  then r = i2s_channel_write env (clock w) /\ w' = tick w
  else w' = w
       /\ r = (if (sampleCount =? 0) then ESP_ERR_INVALID_ARG
               else if I2SSpeaker._initialized (speaker w)
                       && I2SSpeaker._active (speaker w)
                    then ESP_ERR_INVALID_ARG
                    else ESP_ERR_INVALID_STATE).
Proof.
  cbv zeta. unfold writeSamples, writeAudioData.
  destruct (sampleCount =? 0); cbn [negb fst snd].
  { rewrite andb_false_r. split; reflexivity. }
  rewrite andb_true_r.
  destruct (I2SSpeaker._initialized (speaker w)); cbn [negb andb fst snd];
    [|split; reflexivity].
  destruct (I2SSpeaker._active (speaker w)); cbn [negb andb fst snd];
    [|split; reflexivity].
  destruct (size_wrap (sampleCount * 2) =? 0); cbn [negb fst snd];
    split; reflexivity.
Qed.

Lemma frame_product_bounds (p c b : Z) :
  0 <= p -> 1 <= c <= 2 -> 2 <= b <= 4 -> p * (c * b) < 4294967296 ->
  0 <= p < 4294967296
  /\ 0 <= p * c < 4294967296
  /\ 0 <= p * c * b < 4294967296.
Proof.
  intros Hp Hc Hb Hfit.
  assert (0 <= p * (c - 1)) by (apply Z.mul_nonneg_nonneg; lia).
  assert (0 <= p * c * (b - 1)) by (apply Z.mul_nonneg_nonneg; lia).
  assert (p * (c * b) = p * c * b) by ring.
  assert (p * c * (b - 1) = p * c * b - p * c) by ring.
  assert (p * (c - 1) = p * c - p) by ring.
  lia.
Qed.

(** X15.  calculateBufferSize counts whole milliseconds at the sample rate
    rounded down to whole kHz: as long as the product fits 32 bits the
    result is (rate / 1000) * ms * channels * bytes-per-sample, a whole
    number of sample frames that never exceeds the exact size and equals it
    when the rate is a multiple of 1000 Hz. *)
Theorem calculateBufferSize_whole_kHz (sp : I2SSpeaker.t) (durationMs : Z) :
  let frame := getChannelCount sp * getBytesPerSample sp in
  0 <= I2SSpeaker._sampleRate sp -> 0 <= durationMs ->
  I2SSpeaker._sampleRate sp / 1000 * durationMs * frame < 4294967296 ->
  calculateBufferSize sp durationMs
  = I2SSpeaker._sampleRate sp / 1000 * durationMs * frame
  /\ calculateBufferSize sp durationMs * 1000
     <= I2SSpeaker._sampleRate sp * durationMs * frame
  /\ (I2SSpeaker._sampleRate sp mod 1000 = 0 ->
      calculateBufferSize sp durationMs * 1000
      = I2SSpeaker._sampleRate sp * durationMs * frame).
Proof.
  cbv zeta. intros Hr Hd Hfit.
  assert (Hc : 1 <= getChannelCount sp <= 2).
  { unfold getChannelCount. destruct (_ =? 1); [lia|]. destruct (_ =? 2); lia. }
  assert (Hb : 2 <= getBytesPerSample sp <= 4).
  { unfold getBytesPerSample.
    destruct (_ =? 16); [lia|]. destruct (_ =? 24); [lia|].
    destruct (_ =? 32); lia. }
  pose proof (Z.div_pos (I2SSpeaker._sampleRate sp) 1000 Hr ltac:(lia)) as Hk.
  pose proof (Z.mul_div_le (I2SSpeaker._sampleRate sp) 1000 ltac:(lia)) as Hle.
  pose proof (Z.div_mod (I2SSpeaker._sampleRate sp) 1000 ltac:(lia)) as Hdm.
  unfold calculateBufferSize.
  remember (getChannelCount sp) as c eqn:Ec. clear Ec.
  remember (getBytesPerSample sp) as b eqn:Eb. clear Eb.
  remember (I2SSpeaker._sampleRate sp / 1000) as k eqn:Ek. clear Ek.
  remember (I2SSpeaker._sampleRate sp) as rate eqn:Er. clear Er.
  assert (Hp : 0 <= k * durationMs) by (apply Z.mul_nonneg_nonneg; lia).
  destruct (frame_product_bounds (k * durationMs) c b Hp Hc Hb Hfit)
    as (B1 & B2 & B3).
  rewrite (size_wrap_small (k * durationMs)) by exact B1.
  rewrite (size_wrap_small (k * durationMs * c)) by exact B2.
  rewrite size_wrap_small by exact B3.
  assert (E : k * durationMs * c * b = k * durationMs * (c * b)) by ring.
  rewrite E. split; [reflexivity|].
  assert (Hf : 0 <= durationMs * (c * b)).
  { apply Z.mul_nonneg_nonneg; [lia|]. apply Z.mul_nonneg_nonneg; lia. }
  assert (E1 : k * durationMs * (c * b) * 1000
               = 1000 * k * (durationMs * (c * b))) by ring.
  assert (E2 : rate * durationMs * (c * b) = rate * (durationMs * (c * b)))
    by ring.
  rewrite E1, E2. split.
  - apply Z.mul_le_mono_nonneg_r; assumption.
  - intro Hm. f_equal. lia.
Qed.
End Speaker.

Lemma calculateBufferSize_whole_kHz_witness :
  calculateBufferSize (I2SSpeaker.mk true true 22050 16 2) 1000 = 88000
  /\ 88000 * 1000 <= 22050 * 1000 * 4.
Proof.
  destruct (calculateBufferSize_whole_kHz
              (I2SSpeaker.mk true true 22050 16 2) 1000) as (E & L & _);
    try (vm_compute; congruence).
  split; [exact E|]. rewrite E in L. exact L.
Defined.

(** ** Decoding a whole file *)

Section WholeFileProperties.
Context {D : Type} (codec : Codec D) (env : Env) (fs : SPIFFS).
Import Decode.

Section Ends.
Hypothesis codec_ok : codec_within_window codec.
Hypothesis advances : decode_advances codec.
Variable mp3Data : list Z.

(** The loop ends: each round that does not leave the loop lowers the
    byte count, which the guarded decrement never takes below zero. *)
Lemma decodeLoop_ends (fuel : nat) :
  forall (s : Locals) (w : World D),
    in_block (Z.of_nat (length mp3Data)) s ->
    bytesLeft s < Z.of_nat fuel ->
    forall w', decodeLoop codec env fuel mp3Data s w <> OutOfFuel w'.
Proof.
  induction fuel as [|fuel IH]; intros s w (Hbl & Hin) Hfuel w'; [lia|].
  cbn [decodeLoop].
  destruct (Z.ltb_spec 0 (bytesLeft s)) as [Hpos | Hzero]; cbn [negb];
    [|discriminate].
  destruct Hin as [Hz | [Hrp Hend]]; [lia|].
  rewrite to_int_small by lia.
  destruct codec_ok as [Hsync Hdec].
  pose proof (Hsync (window mp3Data (readPtr s) (bytesLeft s))) as Hoff.
  rewrite window_length in Hoff by lia.
  set (offset := MP3FindSyncWord codec _) in *.
  destruct (Z.ltb_spec offset 0) as [_ | Hge]; [discriminate|].
  rewrite (size_wrap_small (bytesLeft s - offset)) by lia.
  destruct (MP3GetNextFrameInfo codec _ _) as [[dec1 result] fi].
  destruct (negb (result =? 0)); [discriminate|].
  match goal with |- context [if ?g && negb ?m then _ else _] =>
    destruct (g && negb m); [discriminate|]
  end.
  rewrite (to_int_small (bytesLeft s - offset)) by lia.
  pose proof (Hdec dec1 (window mp3Data (readPtr s + offset)
                                (bytesLeft s - offset))) as Hc.
  pose proof (advances dec1 (window mp3Data (readPtr s + offset)
                                    (bytesLeft s - offset))) as Ha.
  rewrite window_length in Hc by lia.
  unfold decode_consumed, decode_status in Hc, Ha.
  destruct (MP3Decode codec dec1 _) as [[[dec2 result2] consumed] pcm].
  cbn [fst snd] in Hc, Ha.
  destruct (_ <? _); [discriminate|].
  rewrite (size_wrap_small (bytesLeft s - offset - consumed)) by lia.
  destruct (Z.eqb_spec result2 0) as [Hr0 | Hr0]; cbn [negb].
  - specialize (Ha Hr0). apply IH.
    + split; cbn [bytesLeft readPtr]; [lia|]. right. lia.
    + cbn [bytesLeft]. lia.
  - destruct (result2 =? ERR_MP3_INDATA_UNDERFLOW codec); [discriminate|].
    apply IH.
    + split; cbn [bytesLeft readPtr].
      * destruct (Z.ltb_spec 0 (bytesLeft s - offset - consumed));
          [rewrite size_wrap_small by lia|]; lia.
      * destruct (Z.ltb_spec 0 (bytesLeft s - offset - consumed));
          [rewrite size_wrap_small by lia; right; lia | left; lia].
    + cbn [bytesLeft].
      destruct (Z.ltb_spec 0 (bytesLeft s - offset - consumed));
        [rewrite size_wrap_small by lia|]; lia.
Qed.
(** The guarded decrement: however the loop ends, the byte count has
    neither gone below zero nor wrapped, and the read window still lies
    inside the block. *)
Lemma decodeLoop_in_block (fuel : nat) :
  forall (s : Locals) (w : World D) (ended : bool * Locals) (w' : World D),
    in_block (Z.of_nat (length mp3Data)) s ->
    decodeLoop codec env fuel mp3Data s w = Ret ended w' ->
    in_block (Z.of_nat (length mp3Data)) (snd ended).
Proof.
  induction fuel as [|fuel IH]; intros s w ended w' Hs E; [discriminate E|].
  pose proof Hs as (Hbl & Hin).
  cbn [decodeLoop] in E.
  destruct (Z.ltb_spec 0 (bytesLeft s)) as [Hpos | Hzero]; cbn [negb] in E.
  2:{ injection E as <- _. exact Hs. }
  destruct Hin as [Hz | [Hrp Hend]]; [lia|].
  rewrite to_int_small in E by lia.
  destruct codec_ok as [Hsync Hdec].
  pose proof (Hsync (window mp3Data (readPtr s) (bytesLeft s))) as Hoff.
  rewrite window_length in Hoff by lia.
  set (offset := MP3FindSyncWord codec _) in *.
  destruct (Z.ltb_spec offset 0) as [_ | Hge].
  { injection E as <- _. exact Hs. }
  rewrite (size_wrap_small (bytesLeft s - offset)) in E by lia.
  destruct (MP3GetNextFrameInfo codec _ _) as [[dec1 result] fi].
  destruct (negb (result =? 0)).
  { injection E as <- _. split; cbn [snd bytesLeft readPtr]; [lia | right; lia]. }
  match type of E with context [if ?g && negb ?m then _ else _] =>
    destruct (g && negb m)
  end.
  { injection E as <- _. split; cbn [snd bytesLeft readPtr]; [lia | right; lia]. }
  rewrite (to_int_small (bytesLeft s - offset)) in E by lia.
  pose proof (Hdec dec1 (window mp3Data (readPtr s + offset)
                                (bytesLeft s - offset))) as Hc.
  rewrite window_length in Hc by lia.
  unfold decode_consumed in Hc.
  destruct (MP3Decode codec dec1 _) as [[[dec2 result2] consumed] pcm].
  cbn [fst snd] in Hc.
  destruct (_ <? _); [discriminate E|].
  rewrite (size_wrap_small (bytesLeft s - offset - consumed)) in E by lia.
  destruct (negb (result2 =? 0)).
  - destruct (result2 =? ERR_MP3_INDATA_UNDERFLOW codec).
    + injection E as <- _.
      split; cbn [snd bytesLeft readPtr]; [lia | right; lia].
    + refine (IH _ _ _ _ _ E).
      split; cbn [bytesLeft readPtr].
      * destruct (Z.ltb_spec 0 (bytesLeft s - offset - consumed));
          [rewrite size_wrap_small by lia|]; lia.
      * destruct (Z.ltb_spec 0 (bytesLeft s - offset - consumed));
          [rewrite size_wrap_small by lia; right; lia | left; lia].
  - refine (IH _ _ _ _ _ E).
    split; cbn [bytesLeft readPtr]; [lia | right; lia].
Qed.
End Ends.

(** The loop keeps [info_latched]. *)
Lemma decodeLoop_info (mp3Data : list Z) (fuel : nat) :
  forall (s : Locals) (w : World D) (ended : bool * Locals) (w' : World D),
    info_latched s ->
    decodeLoop codec env fuel mp3Data s w = Ret ended w' ->
    info_latched (snd ended).
Proof.
  induction fuel as [|fuel IH]; intros s w ended w' J E; [discriminate E|].
  cbn [decodeLoop] in E.
  destruct (negb (0 <? bytesLeft s)); [injection E as <- _; exact J|].
  destruct (_ <? 0); [injection E as <- _; exact J|].
  destruct (MP3GetNextFrameInfo codec _ _) as [[dec1 result] fi].
  destruct (negb (result =? 0)); [injection E as <- _; exact J|].
  match type of E with context [fst ?l] => set (latched := l) in * end.
  assert (JL : forall rp bl block est,
             info_latched (mkLocals rp bl block est (totalPCMSamples s)
                                    (fst latched) (snd latched))).
  { intros. clear E IH. destruct J as [J1 J2]. subst latched.
    destruct (infoOut s) as [i|].
    - destruct (firstFrame s); cbn [fst snd].
      + split; cbn [firstFrame infoOut totalPCMSamples].
        * intros _ i0 [= <-]. reflexivity.
        * intros _. left. reflexivity.
      + split; cbn [firstFrame infoOut totalPCMSamples].
        * intros _. apply J1. reflexivity.
        * intros _. left. reflexivity.
    - cbn [fst snd]. split; cbn [firstFrame infoOut totalPCMSamples].
      + intros _ i0 [=].
      + intros _. right. reflexivity. }
  assert (JT : forall rp bl block est total,
             info_latched (mkLocals rp bl block est total
                                    (fst latched) (snd latched))).
  { intros. destruct (JL rp bl block est) as [J1 J2]. clear E IH JL.
    split; [exact J1|]. cbn [firstFrame infoOut totalPCMSamples] in *.
    intros _. subst latched.
    destruct (infoOut s) as [i|]; [|right; reflexivity].
    destruct (firstFrame s); cbn [fst snd]; left; reflexivity. }
  match type of E with context [if ?g && negb ?m then _ else _] =>
    destruct (g && negb m); [injection E as <- _; apply JL|]
  end.
  destruct (MP3Decode codec dec1 _) as [[[dec2 result2] consumed] pcm].
  destruct (_ <? _); [discriminate E|].
  destruct (negb (result2 =? 0)).
  - destruct (result2 =? ERR_MP3_INDATA_UNDERFLOW codec).
    + injection E as <- _. apply JL.
    + apply (IH _ _ _ _ (JL _ _ _ _) E).
  - apply (IH _ _ _ _ (JT _ _ _ _ _) E).
Qed.

Lemma decodeInternal_ends (fuel : nat) (mp3Data : list Z) (out : Out) (w : World D) :
  codec_within_window codec -> decode_advances codec ->
  Z.of_nat (length mp3Data) < 2147483648 ->
  (length mp3Data < fuel)%nat ->
  forall w', decodeInternal codec env fuel mp3Data out w <> OutOfFuel w'.
Proof.
  intros Hc Ha Hlen Hfuel w'. unfold decodeInternal.
  destruct (negb (malloc_ok env (clock w))); [discriminate|].
  match goal with |- context [decodeLoop codec env fuel mp3Data ?s0 ?w1] =>
    pose proof (decodeLoop_ends Hc Ha mp3Data fuel s0 w1) as H;
    destruct (decodeLoop codec env fuel mp3Data s0 w1) as [ended w2 | w2 | w2]
  end; cbn [bind].
  - destruct (_ || _); discriminate.
  - discriminate.
  - exfalso. apply (H ltac:(split; cbn [bytesLeft readPtr]; [lia | right; lia])
                      ltac:(cbn [bytesLeft]; lia) w2).
    reflexivity.
Qed.

(** X16.  Decoding a whole block ends: with a codec that keeps to its
    window and consumes at least one byte when it decodes a frame, the loop
    of decodeInternal makes at most one round per byte of the block, for
    decodeData and for decodeFile alike.  The decrement after a decode
    error is guarded: however the loop ends, the byte count lies between
    zero and the size of the block (it has neither gone below zero nor
    wrapped) and the read window lies inside the block. *)
Theorem whole_file_decode_ends
        (fuel : nat) (mp3Data : list Z) (out : Out) (w : World D) :
  codec_within_window codec -> decode_advances codec ->
  Z.of_nat (length mp3Data) < 2147483648 ->
  (length mp3Data < fuel)%nat ->
  (forall w', decodeData codec env fuel mp3Data out w <> OutOfFuel w')
  /\ (forall filePath w',
         fs filePath = Some mp3Data ->
         decodeFile codec env fs fuel filePath out w <> OutOfFuel w')
  /\ (forall (n : nat) (s : Locals) (w0 : World D)
             (ended : bool * Locals) (w' : World D),
         in_block (Z.of_nat (length mp3Data)) s ->
         decodeLoop codec env n mp3Data s w0 = Ret ended w' ->
         0 <= bytesLeft (snd ended) <= Z.of_nat (length mp3Data)
         /\ in_block (Z.of_nat (length mp3Data)) (snd ended)).
Proof.
  intros Hc Ha Hlen Hfuel. split; [|split].
  - intros w'. unfold decodeData. destruct (_ || _); [discriminate|].
    apply decodeInternal_ends; assumption.
  - intros filePath w' Hfs. unfold decodeFile, File_open. rewrite Hfs.
    cbn [isOpen negb].
    destruct (negb (_initialized (decoder w))); [discriminate|].
    destruct (_ =? 0); [discriminate|].
    destruct (negb (malloc_ok env (clock w))); [discriminate|].
    assert (Hread : fst (File_read (mkFile true mp3Data 0)
                                   (File_size (mkFile true mp3Data 0)))
                    = mp3Data).
    { unfold File_read, File_size. cbn [isOpen contents position skipn fst].
      apply firstn_all2. lia. }
    rewrite Hread.
    destruct (negb (_ =? _)); [discriminate|].
    apply decodeInternal_ends; assumption.
  - intros n s w0 ended w' Hs E.
    pose proof (decodeLoop_in_block Hc mp3Data n s w0 ended w' Hs E) as H.
    split; [|exact H].
    destruct H as (Hbl & [Hz | [Hrp Hend]]); lia.
Qed.

Lemma decodeInternal_result
      (fuel : nat) (mp3Data : list Z) (out out' : Out) (w w' : World D)
      (ok : bool) :
  decodeInternal codec env fuel mp3Data out w = Ret (ok, out') w' ->
  if ok
  then pcmSize out' <> 0 /\ pcmBuffer out' <> None
       /\ (forall i, info out' = Some i -> valid i = true)
  else pcmBuffer out' = None /\ pcmSize out' = 0.
Proof.
  unfold decodeInternal.
  destruct (negb (malloc_ok env (clock w))).
  { intros [= <- <- _]. split; reflexivity. }
  match goal with |- context [decodeLoop codec env fuel mp3Data ?s0 ?w1] =>
    pose proof (decodeLoop_info mp3Data fuel s0 w1) as J;
    destruct (decodeLoop codec env fuel mp3Data s0 w1) as [ended w2 | w2 | w2]
  end; cbn [bind]; try discriminate.
  specialize (J ended w2). cbn [snd].
  destruct (negb (fst ended)); cbn [orb].
  { intros [= <- <- _]. split; reflexivity. }
  destruct (Z.eqb_spec (totalPCMSamples (snd ended)) 0) as [Hz | Hnz].
  { intros [= <- <- _]. split; reflexivity. }
  intros [= <- <- _]. cbn [pcmSize pcmBuffer info].
  split; [exact Hnz|]. split; [discriminate|].
  destruct J as [J1 J2]; [|reflexivity|].
  { split; cbn [firstFrame infoOut totalPCMSamples].
    - discriminate.
    - intro H. contradiction H. reflexivity. }
  intros i Hi. destruct (J2 Hnz) as [Hf | Hn].
  - apply (J1 Hf i Hi).
  - rewrite Hn in Hi. discriminate Hi.
Qed.

(** X17.  What decodeData reports is consistent: when it returns true the
    sample count is not zero, the PCM pointer is set, and the info record,
    if the caller passed one, is marked valid; when it returns false either
    nothing was touched (decoder not initialised, or no data) or the PCM
    pointer is null and the sample count zero. *)
Theorem decodeData_result
        (fuel : nat) (mp3Data : list Z) (out out' : Out) (w w' : World D)
        (ok : bool) :
  decodeData codec env fuel mp3Data out w = Ret (ok, out') w' ->
  if ok
  then pcmSize out' <> 0 /\ pcmBuffer out' <> None
       /\ (forall i, info out' = Some i -> valid i = true)
       /\ _initialized (decoder w) = true /\ mp3Data <> []
  else (out' = out /\ w' = w)
       \/ (pcmBuffer out' = None /\ pcmSize out' = 0).
Proof.
  unfold decodeData.
  destruct (_initialized (decoder w)) eqn:Hi; cbn [negb orb].
  2:{ intros [= <- <- <-]. left. split; reflexivity. }
  destruct (Z.eqb_spec (Z.of_nat (length mp3Data)) 0) as [Hz | Hnz].
  { intros [= <- <- <-]. left. split; reflexivity. }
  intro E. pose proof (decodeInternal_result _ _ _ _ _ _ _ E) as H.
  destruct ok.
  - destruct H as (A & B & C). repeat split; try assumption.
    intros ->. apply Hnz. reflexivity.
  - right. exact H.
Qed.

(** X18.  A block in which the sync search finds nothing decodes to
    nothing: decodeData returns false with the PCM pointer null and the
    sample count zero, leaves the info record as the caller passed it, and
    does not touch the decoder. *)
Theorem decodeData_no_sync
        (fuel : nat) (mp3Data : list Z) (out : Out) (w : World D) :
  _initialized (decoder w) = true ->
  mp3Data <> [] ->
  Z.of_nat (length mp3Data) < 2147483648 ->
  MP3FindSyncWord codec mp3Data < 0 ->
  exists w',
    decodeData codec env (S fuel) mp3Data out w
    = Ret (false, mkOut None 0 (info out)) w'
    /\ decoder w' = decoder w.
Proof.
  intros Hi Hne Hlen Hno. unfold decodeData. rewrite Hi. cbn [negb orb].
  destruct (Z.eqb_spec (Z.of_nat (length mp3Data)) 0) as [Hz | Hnz].
  { destruct mp3Data; [contradiction | discriminate Hz]. }
  unfold decodeInternal.
  destruct (negb (malloc_ok env (clock w)));
    [eexists; split; reflexivity|].
  cbn [decodeLoop bytesLeft readPtr].
  destruct (Z.ltb_spec 0 (Z.of_nat (length mp3Data))) as [_ | Hbad]; [|lia].
  cbn [negb]. rewrite to_int_small by lia.
  assert (Hwin : window mp3Data 0 (Z.of_nat (length mp3Data)) = mp3Data).
  { unfold window. change (Z.to_nat 0) with 0%nat. cbn [skipn].
    apply firstn_all2. lia. }
  rewrite Hwin.
  destruct (Z.ltb_spec (MP3FindSyncWord codec mp3Data) 0) as [_ | Hbad]; [|lia].
  cbn [bind fst snd negb orb totalPCMSamples infoOut].
  change (0 =? 0) with true. cbv iota.
  eexists. split; reflexivity.
Qed.
(** While no allocation fails, the loop does not depend on the clock. *)
Lemma decodeLoop_clock (mp3Data : list Z) (fuel : nat) :
  (forall n, malloc_ok env n = true) ->
  forall (s : Locals) (w w' : World D),
    decoder w = decoder w' ->
    same_outcome (decodeLoop codec env fuel mp3Data s w)
                 (decodeLoop codec env fuel mp3Data s w').
Proof.
  intro Hm. induction fuel as [|fuel IH]; intros s w w' Hd; [exact Hd|].
  cbn [decodeLoop].
  destruct (negb (0 <? bytesLeft s)); [split; [reflexivity | exact Hd]|].
  destruct (_ <? 0); [split; [reflexivity | exact Hd]|].
  rewrite <- Hd.
  destruct (MP3GetNextFrameInfo codec _ _) as [[dec1 result] fi].
  destruct (negb (result =? 0)).
  { split; [reflexivity|]. cbn [decoder with_decoder]. rewrite Hd. reflexivity. }
  rewrite !Hm. cbn [negb]. rewrite !andb_false_r.
  destruct (MP3Decode codec dec1 _) as [[[dec2 result2] consumed] pcm].
  assert (Hd3 : forall g : bool,
             decoder (with_decoder (set_decoder dec2)
                        (if g then tick (with_decoder (set_decoder dec1) w)
                         else with_decoder (set_decoder dec1) w))
             = decoder (with_decoder (set_decoder dec2)
                          (if g then tick (with_decoder (set_decoder dec1) w')
                           else with_decoder (set_decoder dec1) w'))).
  { intros []; cbn [decoder with_decoder tick]; rewrite Hd; reflexivity. }
  destruct (_ <? _); [apply Hd3|].
  destruct (negb (result2 =? 0)).
  - destruct (result2 =? ERR_MP3_INDATA_UNDERFLOW codec).
    + split; [reflexivity | apply Hd3].
    + apply IH. apply Hd3.
  - apply IH. apply Hd3.
Qed.

(** X19.  decodeFile is decodeData on the bytes of the file: while no
    allocation fails, the two calls end the same way, return the same
    value, the same PCM block, sample count and info record, and leave the
    same decoder state. *)
Theorem decodeFile_is_decodeData
        (fuel : nat) (filePath : String.string) (bytes : list Z)
        (out : Out) (w : World D) :
  fs filePath = Some bytes ->
  (forall n, malloc_ok env n = true) ->
  same_outcome (decodeFile codec env fs fuel filePath out w)
               (decodeData codec env fuel bytes out w).
Proof.
  intros Hfs Hm. unfold decodeFile, decodeData, File_open. rewrite Hfs.
  cbn [isOpen negb].
  destruct (negb (_initialized (decoder w))); cbn [orb];
    [split; reflexivity|].
  unfold File_size. cbn [isOpen contents].
  destruct (Z.of_nat (length bytes) =? 0); [split; reflexivity|].
  rewrite Hm. cbn [negb].
  assert (Hread : fst (File_read (mkFile true bytes 0) (Z.of_nat (length bytes)))
                  = bytes).
  { unfold File_read. cbn [isOpen contents position skipn fst].
    apply firstn_all2. lia. }
  rewrite Hread, Z.eqb_refl. cbn [negb].
  unfold decodeInternal. rewrite !Hm. cbn [negb].
  match goal with
  | |- same_outcome (bind (decodeLoop _ _ _ _ ?s0 ?a) _)
                    (bind (decodeLoop _ _ _ _ ?s0 ?b) _) =>
      pose proof (decodeLoop_clock bytes fuel Hm s0 a b eq_refl) as H;
      destruct (decodeLoop codec env fuel bytes s0 a) as [e1 x1 | x1 | x1];
      destruct (decodeLoop codec env fuel bytes s0 b) as [e2 x2 | x2 | x2]
  end; cbn [same_outcome bind] in *; try contradiction; try exact H.
  destruct H as [<- Hx].
  destruct (_ || _); [split; [reflexivity | exact Hx]|].
  rewrite !Hm. split; [reflexivity | exact Hx].
Qed.
End WholeFileProperties.

Lemma whole_file_decode_ends_witness :
  (forall w',
      decodeData steadyCodec calmEnv 12 twoFrames
                 (Decode.mkOut None 0 (Some emptyInfo)) readyWorld
      <> OutOfFuel w')
  /\ (forall filePath w',
         oneFile twoFrames filePath = Some twoFrames ->
         decodeFile steadyCodec calmEnv (oneFile twoFrames) 12 filePath
                    (Decode.mkOut None 0 (Some emptyInfo)) readyWorld
         <> OutOfFuel w')
  /\ (forall (n : nat) (s : Decode.Locals) (w0 : World bool)
             (ended : bool * Decode.Locals) (w' : World bool),
         in_block (Z.of_nat (length twoFrames)) s ->
         decodeLoop steadyCodec calmEnv n twoFrames s w0 = Ret ended w' ->
         0 <= Decode.bytesLeft (snd ended) <= Z.of_nat (length twoFrames)
         /\ in_block (Z.of_nat (length twoFrames)) (snd ended)).
Proof.
  apply whole_file_decode_ends.
  - exact steadyCodec_within_window.
  - exact steadyCodec_advances.
  - vm_compute. reflexivity.
  - vm_compute. lia.
Defined.

Lemma decodeData_result_witness :
  let r := decodeData TestCodec.codec calmEnv 5 twoFrames
                      (Decode.mkOut None 0 (Some emptyInfo)) readyWorld in
  let out' := match r with
              | Ret (_, o) _ => o
              | _ => Decode.mkOut None 0 None
              end in
  Decode.pcmSize out' <> 0 /\ Decode.pcmBuffer out' <> None
  /\ (forall i, Decode.info out' = Some i -> valid i = true)
  /\ _initialized (decoder readyWorld) = true /\ twoFrames <> [].
Proof.
  cbv zeta.
  apply (decodeData_result TestCodec.codec calmEnv 5 twoFrames
           (Decode.mkOut None 0 (Some emptyInfo)) _ readyWorld
           (world_of (decodeData TestCodec.codec calmEnv 5 twoFrames
                                 (Decode.mkOut None 0 (Some emptyInfo))
                                 readyWorld)) true).
  vm_compute. reflexivity.
Defined.

Lemma decodeData_no_sync_witness :
  exists w',
    decodeData TestCodec.codec calmEnv 1 noSyncFile
               (Decode.mkOut None 7 (Some emptyInfo)) readyWorld
    = Ret (false, Decode.mkOut None 0 (Some emptyInfo)) w'
    /\ decoder w' = decoder readyWorld.
Proof.
  apply (decodeData_no_sync TestCodec.codec calmEnv 0 noSyncFile
           (Decode.mkOut None 7 (Some emptyInfo)) readyWorld).
  - reflexivity.
  - discriminate.
  - vm_compute. reflexivity.
  - vm_compute. reflexivity.
Defined.

Lemma decodeFile_is_decodeData_witness :
  same_outcome
    (decodeFile TestCodec.codec calmEnv (oneFile twoFrames) 5 path
                (Decode.mkOut None 0 (Some emptyInfo)) readyWorld)
    (decodeData TestCodec.codec calmEnv 5 twoFrames
                (Decode.mkOut None 0 (Some emptyInfo)) readyWorld).
Proof.
  apply decodeFile_is_decodeData; reflexivity.
Defined.
